(** * ChaosKVS: a shallow embedding of the node, cluster, metrics,
      chaos-injector and recovery-supervisor code, with the properties
      the specification states about them, and of the event bus, the
      requests of the load generator, the status endpoint and the
      parsing of attack names, with further properties of the code.

    The Go sources are embedded as executable Rocq functions.

    - Locks are not modelled: every method of a node runs under the
      node's lock, so it is one atomic step on the node's state.  A tick
      of the injector or of the supervisor is taken to run without any
      other goroutine touching the nodes in the meantime; what happens
      between two ticks is left open.
    - Node objects are shared by pointer between the cluster registry,
      the injector and the supervisor: they live in an explicit heap.
    - Machine integers are [Z] with their wrap-around written out.
    - The clock, the pseudo-random numbers and the order in which Go
      ranges over a map are inputs.
    - Logging is omitted (it has no effect on any state); published
      events are collected in the order of publication. *)

From Stdlib Require Import ZArith Lia.
From Stdlib Require PrimFloat FloatOps SpecFloat Uint63.
From stdpp Require Import gmap strings list fin_maps sorting pretty.

Local Open Scope string_scope.
Local Open Scope Z_scope.
Local Open Scope list_scope.

(** ** Machine integers *)

(** [uint64] counters wrap around at [2^64]. *)
Definition u64_mod : Z := 2 ^ 64.
Definition u64_inc (x : Z) : Z := (x + 1) mod u64_mod.
Definition u64_add (x y : Z) : Z := (x + y) mod u64_mod.

(** Go's [int] is 64 bits wide on the platforms the program targets;
    [x++] and [x--] wrap around in two's complement. *)
Definition int_wrap (x : Z) : Z := (x + 2 ^ 63) mod 2 ^ 64 - 2 ^ 63.
Definition int_inc (x : Z) : Z := int_wrap (x + 1).
Definition int_dec (x : Z) : Z := int_wrap (x - 1).

(** The sum of the values of a map of counters. *)
Definition map_sum `{Countable K} (m : gmap K Z) : Z :=
  map_fold (fun _ v acc => v + acc) 0 m.

(** [time.Duration] is an [int64] count of nanoseconds. *)
Definition Duration := Z.

(** A Go [error] value: [None] is [nil], [Some msg] is an error whose
    [Error()] text is [msg]. *)
Definition error := option string.

(** [contains s sub]: the text [sub] occurs in [s]. *)
Definition contains (s sub : string) : Prop :=
  exists pre post : string, s = pre +:+ sub +:+ post.

(** ** Package node (src/internal/node/node.go) *)

Module node.

Inductive Status : Set :=
| StatusStopped
| StatusRunning
| StatusSuspended.

#[global] Instance Status_eq_dec : EqDecision Status.
Proof. solve_decision. Defined.

Definition Status_String (s : Status) : string :=
  match s with
  | StatusStopped => "stopped"
  | StatusRunning => "running"
  | StatusSuspended => "suspended"
  end.

(** A [[]byte] value; the nil slice is the empty list.  The store keeps
    the slice it is given: values are taken not to be written to after
    [Set], as the callers of the program do. *)
Definition value := list Byte.byte.
Definition nil_value : value := [].

(** The [Node] struct.  [cancel] records whether the [cancel] field
    holds a function ([Start] stores one, [Stop] calls it when it is
    not nil); the context itself is never read by a node method. *)
Record Node : Type := mkNode {
  id : string;
  status : Status;
  delay : Duration;
  data : gmap string value;
  cancel : bool
}.

Definition set_status (s : Status) (n : Node) : Node :=
  mkNode (id n) s (delay n) (data n) (cancel n).
Definition set_delay (d : Duration) (n : Node) : Node :=
  mkNode (id n) (status n) d (data n) (cancel n).
Definition set_data (m : gmap string value) (n : Node) : Node :=
  mkNode (id n) (status n) (delay n) m (cancel n).
Definition set_cancel (c : bool) (n : Node) : Node :=
  mkNode (id n) (status n) (delay n) (data n) c.

Definition New (i : string) : Node :=
  mkNode i StatusStopped 0 ∅ false.

Definition ID (n : Node) : string := id n.

(** [fmt.Errorf("node %s is ...", n.id)] *)
Definition errorf (i : string) (what : string) : error :=
  Some ("node " +:+ i +:+ what).

Definition Start (n : Node) : Node * error :=
  if decide (status n = StatusRunning)
  then (n, errorf (id n) " is already running")
  else (set_status StatusRunning (set_cancel true n), None).

(** [Stop] also calls [n.cancel] when it is not nil; this cancels the
    context made by [Start], which is no part of the node's state. *)
Definition Stop (n : Node) : Node * error :=
  if decide (status n = StatusStopped)
  then (n, errorf (id n) " is already stopped")
  else (set_status StatusStopped n, None).

Definition Status_of (n : Node) : Status := status n.

Definition Suspend (n : Node) : Node * error :=
  if decide (status n <> StatusRunning)
  then (n, errorf (id n) " is not running")
  else (set_status StatusSuspended n, None).

Definition Resume (n : Node) : Node * error :=
  if decide (status n <> StatusSuspended)
  then (n, errorf (id n) " is not suspended")
  else (set_status StatusRunning n, None).

Definition SetDelay (d : Duration) (n : Node) : Node := set_delay d n.

Definition Delay (n : Node) : Duration := delay n.

(** [applyDelay] only blocks the caller: the result is the time slept.
    [Get] and [Set] call it before they take the lock; it has no effect
    on what they do then. *)
Definition applyDelay (n : Node) : Duration :=
  if decide (0 < Delay n) then Delay n else 0.

Definition Get (n : Node) (key : string) : value * bool :=
  if decide (status n <> StatusRunning)
  then (nil_value, false)
  else match data n !! key with
       | Some v => (v, true)
       | None => (nil_value, false)
       end.

Definition Set_ (n : Node) (key : string) (v : value) : Node * error :=
  if decide (status n <> StatusRunning)
  then (n, errorf (id n) " is not running")
  else (set_data (<[key := v]> (data n)) n, None).

Definition Delete (n : Node) (key : string) : Node * error :=
  if decide (status n <> StatusRunning)
  then (n, errorf (id n) " is not running")
  else (set_data (delete key (data n)) n, None).

(** [Keys] ranges over the map; Go leaves the order unspecified, the
    model lists the keys in the map's own order. *)
Definition Keys (n : Node) : list string := (map_to_list (data n)).*1.

Definition Size (n : Node) : Z := Z.of_nat (size (data n)).

(** The methods of a node as a datatype, to speak about sequences of
    calls on one node. *)
Inductive Op : Type :=
| OpStart | OpStop | OpSuspend | OpResume
| OpSetDelay (d : Duration)
| OpGet (key : string)
| OpSet (key : string) (v : value)
| OpDelete (key : string)
| OpKeys | OpSize | OpStatus | OpDelay.

Definition step (o : Op) (n : Node) : Node :=
  match o with
  | OpStart => fst (Start n)
  | OpStop => fst (Stop n)
  | OpSuspend => fst (Suspend n)
  | OpResume => fst (Resume n)
  | OpSetDelay d => SetDelay d n
  | OpSet k v => fst (Set_ n k v)
  | OpDelete k => fst (Delete n k)
  | OpGet _ | OpKeys | OpSize | OpStatus | OpDelay => n
  end.

Definition run (ops : list Op) (n : Node) : Node :=
  fold_left (fun n o => step o n) ops n.

(** [writes_key k o]: the call is a [Set] or a [Delete] of key [k]. *)
Definition writes_key (k : string) (o : Op) : bool :=
  match o with
  | OpSet k' _ | OpDelete k' => bool_decide (k' = k)
  | _ => false
  end.

(** The node is Running before the calls and after each of them. *)
Fixpoint remains_running (ops : list Op) (n : Node) : Prop :=
  status n = StatusRunning /\
  match ops with
  | [] => True
  | o :: ops' => remains_running ops' (step o n)
  end.

(** The lifecycle events of the state-machine table, and what the code
    does on each: [Some s'] when the call returns nil and leaves the
    node in status [s'], [None] when it returns an error. *)
Inductive Event : Set := EvStart | EvStop | EvSuspend | EvResume.

Definition fire (e : Event) (n : Node) : Node * error :=
  match e with
  | EvStart => Start n
  | EvStop => Stop n
  | EvSuspend => Suspend n
  | EvResume => Resume n
  end.

Definition transition (s : Status) (e : Event) : option Status :=
  let r := fire e (mkNode "n" s 0 ∅ false) in
  match snd r with
  | None => Some (status (fst r))
  | Some _ => None
  end.

(** The lifecycle calls among a sequence of calls, the calls that can
    make a node Running, and the argument of the last [SetDelay] ([d]
    when there is none). *)
Definition is_lifecycle (o : Op) : bool :=
  match o with
  | OpStart | OpStop | OpSuspend | OpResume => true
  | _ => false
  end.

Definition wakes (o : Op) : bool :=
  match o with
  | OpStart | OpResume => true
  | _ => false
  end.

Definition last_delay (ops : list Op) (d : Duration) : Duration :=
  fold_left (fun d o => match o with OpSetDelay d' => d' | _ => d end) ops d.

End node.

(** ** Node objects shared by pointer *)

(** A call either returns or panics (a nil or dangling pointer is
    dereferenced, a slice bound is out of range). *)
Inductive outcome (A : Type) : Type :=
| Returned (a : A)
| Panicked.
Arguments Returned {A} a.
Arguments Panicked {A}.

(** A [*node.Node] is an address; the heap maps the addresses of the
    allocated node objects to their current state.  An address outside
    the heap stands for nil. *)
Abbreviation ptr := positive (only parsing).
Abbreviation heap := (gmap positive node.Node) (only parsing).

(** Code that works on shared nodes: a state monad over the heap whose
    computations may panic. *)
Definition M (A : Type) : Type := heap -> outcome (A * heap).

#[global] Instance M_ret : MRet M :=
  fun A (a : A) (h : heap) => Returned (a, h).

#[global] Instance M_bind : MBind M :=
  fun A B (f : A -> M B) (m : M A) (h : heap) =>
    match m h with
    | Returned (a, h') => f a h'
    | Panicked => Panicked
    end.

Definition panic {A : Type} : M A := fun _ => Panicked.

(** [query f p] is a call [p.f()] of a method that only reads the node;
    [call f p] is a call of a method that may also change it. *)
Definition query {A : Type} (f : node.Node -> A) (p : ptr) : M A :=
  fun h => match h !! p with
           | Some n => Returned (f n, h)
           | None => Panicked
           end.

Definition call {A : Type} (f : node.Node -> node.Node * A) (p : ptr) : M A :=
  fun h => match h !! p with
           | Some n => Returned (snd (f n), <[p := fst (f n)]> h)
           | None => Panicked
           end.

(** [node.New(id)] as the program uses it: a fresh object is allocated
    and its address returned. *)
Definition new_node (i : string) : M ptr :=
  fun h => let p := fresh (dom h) in Returned (p, <[p := node.New i]> h).

(** ** Package cluster (src/internal/cluster/cluster_test.go, second file) *)

Module cluster.

(** The registry [nodes map[string]*node.Node]. *)
Record Cluster : Type := mkCluster {
  nodes : gmap string positive
}.

Definition New : Cluster := mkCluster ∅.

Definition AddNode (c : Cluster) (p : ptr) : M (Cluster * error) :=
  i ← query node.ID p;
  match nodes c !! i with
  | Some _ => mret (c, Some ("node " +:+ i +:+ " already exists in cluster"))
  | None => mret (mkCluster (<[i := p]> (nodes c)), None)
  end.

Definition RemoveNode (c : Cluster) (nodeID : string) : M (Cluster * error) :=
  match nodes c !! nodeID with
  | None => mret (c, Some ("node " +:+ nodeID +:+ " not found in cluster"))
  | Some p =>
      s ← query node.Status_of p;
      _ ← (if decide (s = node.StatusRunning)
           then call node.Stop p
           else mret None);
      mret (mkCluster (delete nodeID (nodes c)), None)
  end.

Definition GetNode (c : Cluster) (nodeID : string) : option positive :=
  nodes c !! nodeID.

(** [Nodes] copies the pointers into a new slice.  Go leaves the order
    of a range over a map unspecified: [Nodes c] lists the pointers in
    the map's own order, and [snapshot c ps] says that [ps] is what a
    call of [Nodes()], or a loop over [c.nodes], may produce. *)
Definition Nodes (c : Cluster) : list positive :=
  (map_to_list (nodes c)).*2.

Definition snapshot (c : Cluster) (ps : list positive) : Prop :=
  ps ≡ₚ Nodes c.

Definition Size (c : Cluster) : Z := Z.of_nat (size (nodes c)).

(** The loop shared by [RunningCount] and [StoppedCount]:
    [for _, n := range c.nodes { if n.Status() == s { count++ } }].
    The count never exceeds [len(c.nodes)], an [int], so [count++] does
    not wrap. *)
Fixpoint count_status (s : node.Status) (ps : list positive) (count : Z) : M Z :=
  match ps with
  | [] => mret count
  | p :: ps' =>
      st ← query node.Status_of p;
      count_status s ps' (if decide (st = s) then count + 1 else count)
  end.

Definition RunningCount (c : Cluster) : M Z :=
  count_status node.StatusRunning (Nodes c) 0.

Definition StoppedCount (c : Cluster) : M Z :=
  count_status node.StatusStopped (Nodes c) 0.

(** Every registered pointer is a live node object stored under its
    own identity; [AddNode] keeps it so, identities being immutable. *)
Definition registry_ok (c : Cluster) (h : heap) : Prop :=
  forall i p, nodes c !! i = Some p ->
    exists n, h !! p = Some n /\ node.id n = i.

(** The nodes of the snapshot [Nodes()] whose [Status()] is [s]. *)
Definition with_status (s : node.Status) (c : Cluster) (h : heap) : list positive :=
  filter (fun p => node.status <$> h !! p = Some s) (Nodes c).

(** The fan-out shared by [StartAll] and [StopAll]: the registered
    pointers are copied into a slice and one goroutine per node calls
    the method [f] ([n.Start(ctx)] or [n.Stop()]) and sends a non-nil
    error into [errCh].  The method runs under the node's own lock:
    with nothing else touching the nodes, the goroutines amount to the
    calls made one after the other in some order.  [nodes] is the slice
    in that order, [errs] the errors received so far.  The field [ctx]
    that [StartAll] also sets is read nowhere. *)
Fixpoint call_each (f : node.Node -> node.Node * error) (nodes : list positive)
    (errs : list string) : M (list string) :=
  match nodes with
  | [] => mret errs
  | p :: nodes' =>
      err ← call f p;
      call_each f nodes' (match err with
                          | Some e => errs ++ [e]
                          | None => errs
                          end)
  end.

(** [fmt.Errorf("failed to start %d nodes", len(errs))] *)
Definition StartAll (nodes : list positive) : M error :=
  errs ← call_each node.Start nodes [];
  if decide (0 < length errs)%nat
  then mret (Some ("failed to start " +:+ pretty (Z.of_nat (length errs)) +:+ " nodes"))
  else mret None.

(** [StopAll] only logs the number of errors and returns nil. *)
Definition StopAll (nodes : list positive) : M error :=
  _ ← call_each node.Stop nodes [];
  mret None.

(** [refused f h p]: the call of [f] on the node at [p] returns an error. *)
Definition refused (f : node.Node -> node.Node * error) (h : heap) (p : ptr) : bool :=
  match h !! p with
  | Some n => bool_decide (is_Some (snd (f n)))
  | None => false
  end.

(** [fmt.Sprintf("%s-%d", prefix, j)] *)
Definition node_name (prefix : string) (j : Z) : string :=
  prefix +:+ "-" +:+ pretty j.

(** [CreateNodes]: the loop [for i := range count] from [i] on, with
    [todo] rounds left. *)
Fixpoint create_from (i : Z) (todo : nat) (prefix : string) (c : Cluster)
    : M (Cluster * error) :=
  match todo with
  | O => mret (c, None)
  | S todo' =>
      let nodeID := node_name prefix (i + 1) in
      p ← new_node nodeID;
      r ← AddNode c p;
      match snd r with
      | Some err => mret (fst r, Some err)
      | None => create_from (i + 1) todo' prefix (fst r)
      end
  end.

(** A [count] of zero or less makes no round. *)
Definition CreateNodes (c : Cluster) (count : Z) (prefix : string)
    : M (Cluster * error) :=
  create_from 0 (Z.to_nat count) prefix c.

End cluster.

(** ** Time and floating point *)

(** A [time.Time] instant, counted in nanoseconds from the zero value
    of the type, so that [IsZero] holds of [0] only.  Every reading of
    the clock is an input of the model. *)
Definition Time := Z.
Definition Time_zero : Time := 0.
Definition IsZero (t : Time) : bool := (t =? 0)%Z.

(** [t.Sub(u)]: the difference as a Duration, saturated at the ends of
    the [int64] range. *)
Definition Time_Sub (t u : Time) : Duration :=
  Z.max (- 2 ^ 63) (Z.min (2 ^ 63 - 1) (t - u)).

(** [float64(n)] for an [int] [n >= 0], and [int(f)]: truncation towards
    zero of a finite [float64] (other values do not occur). *)
Definition float64_of_int (n : Z) : PrimFloat.float :=
  PrimFloat.of_uint63 (Uint63.of_Z n).

Module float64_literals.
Import PrimFloat.
#[warnings="-inexact-float"]
Definition float64_0_99 : float := 0.99%float.
End float64_literals.
Export float64_literals(float64_0_99).

Definition int_of_float64 (f : PrimFloat.float) : Z :=
  match FloatOps.Prim2SF f with
  | SpecFloat.S754_finite s m e =>
      let a := if (0 <=? e)%Z then Z.shiftl (Zpos m) e else Z.shiftr (Zpos m) (- e) in
      if s then - a else a
  | _ => 0
  end.

(** ** Package metrics (src/unnamed/part_012) *)

Module metrics.

Record Metrics : Type := mkMetrics {
  totalRequests : Z;
  successRequests : Z;
  failedRequests : Z;
  totalLatencyNs : Z;
  startTime : Time;
  lastResetTime : Time;
  windowRequests : Z;
  latencies : list Duration;
  maxLatencySamples : Z
}.

Definition New (now : Time) : Metrics :=
  mkMetrics 0 0 0 0 now now 0 [] 1000.

(** [uint64(latency.Nanoseconds())] *)
Definition uint64_of_int64 (x : Z) : Z := x mod u64_mod.

Definition RecordSuccess (latency : Duration) (m : Metrics) : Metrics :=
  mkMetrics
    (u64_add (totalRequests m) 1)
    (u64_add (successRequests m) 1)
    (failedRequests m)
    (u64_add (totalLatencyNs m) (uint64_of_int64 latency))
    (startTime m)
    (lastResetTime m)
    (u64_inc (windowRequests m))
    (if decide (Z.of_nat (length (latencies m)) < maxLatencySamples m)
     then latencies m ++ [latency]
     else latencies m)
    (maxLatencySamples m).

Definition RecordFailure (latency : Duration) (m : Metrics) : Metrics :=
  mkMetrics
    (u64_add (totalRequests m) 1)
    (successRequests m)
    (u64_add (failedRequests m) 1)
    (u64_add (totalLatencyNs m) (uint64_of_int64 latency))
    (startTime m)
    (lastResetTime m)
    (u64_inc (windowRequests m))
    (latencies m)
    (maxLatencySamples m).

Definition TotalRequests (m : Metrics) : Z := totalRequests m.
Definition SuccessRequests (m : Metrics) : Z := successRequests m.
Definition FailedRequests (m : Metrics) : Z := failedRequests m.

(** [sort.Slice(sorted, func(i, j int) bool { return sorted[i] < sorted[j] })]:
    the copy in ascending order. *)
Definition sort_ascending (l : list Duration) : list Duration :=
  merge_sort Z.le l.

(** [int(float64(len(sorted)) * 0.99)]: the untyped constant [0.99]
    becomes the nearest [float64], and the product is rounded once. *)
Definition p99_index (len : Z) : Z :=
  int_of_float64 (PrimFloat.mul (float64_of_int len) float64_0_99).

(** The index expression [sorted[idx]] panics out of range. *)
Definition P99Latency (m : Metrics) : outcome Duration :=
  if decide (length (latencies m) = 0%nat) then Returned 0
  else
    let sorted := sort_ascending (latencies m) in
    let len := Z.of_nat (length sorted) in
    let idx := p99_index len in
    let idx := if decide (idx >= len) then len - 1 else idx in
    if decide (idx < 0) then Panicked
    else match sorted !! Z.to_nat idx with
         | Some d => Returned d
         | None => Panicked
         end.

Definition Reset (now : Time) (m : Metrics) : Metrics :=
  mkMetrics
    (totalRequests m) (successRequests m) (failedRequests m) (totalLatencyNs m)
    (startTime m)
    now
    0
    []
    (maxLatencySamples m).

(** The calls that change a [Metrics], to speak about its history. *)
Inductive Op : Type :=
| OpRecordSuccess (latency : Duration)
| OpRecordFailure (latency : Duration)
| OpReset (now : Time).

Definition step (m : Metrics) (o : Op) : Metrics :=
  match o with
  | OpRecordSuccess l => RecordSuccess l m
  | OpRecordFailure l => RecordFailure l m
  | OpReset now => Reset now m
  end.

Definition run (ops : list Op) (m : Metrics) : Metrics :=
  fold_left step ops m.

(** The latencies passed to [RecordSuccess] since the last [Reset], in
    the order of the calls. *)
Definition success_latencies (ops : list Op) : list Duration :=
  fold_left (fun acc o =>
               match o with
               | OpRecordSuccess l => acc ++ [l]
               | OpRecordFailure _ => acc
               | OpReset _ => []
               end) ops [].

(** [time.Duration(x)] of a [uint64]: the same 64 bits read as an
    [int64]. *)
Definition int64_of_uint64 (x : Z) : Z :=
  if decide (x < 2 ^ 63) then x else x - u64_mod.

(** The division is the one of [uint64]. *)
Definition AverageLatency (m : Metrics) : Duration :=
  let total := totalRequests m in
  if decide (total = 0) then 0
  else
    let avgNs := totalLatencyNs m / total in
    int64_of_uint64 avgNs.

(** What a history of calls has recorded: the latencies passed to
    [RecordSuccess] or [RecordFailure], the numbers of calls of each,
    and the number of recordings since the last [Reset]. *)
Definition recorded (ops : list Op) : list Duration :=
  omap (fun o => match o with
                 | OpRecordSuccess l | OpRecordFailure l => Some l
                 | OpReset _ => None
                 end) ops.

Definition is_success (o : Op) : bool :=
  match o with OpRecordSuccess _ => true | _ => false end.

Definition is_failure (o : Op) : bool :=
  match o with OpRecordFailure _ => true | _ => false end.

Definition successes (ops : list Op) : Z :=
  Z.of_nat (length (filter (fun o => is_success o = true) ops)).

Definition failures (ops : list Op) : Z :=
  Z.of_nat (length (filter (fun o => is_failure o = true) ops)).

Definition since_reset (ops : list Op) : Z :=
  fold_left (fun acc o =>
               match o with
               | OpRecordSuccess _ | OpRecordFailure _ => acc + 1
               | OpReset _ => 0
               end) ops 0.

Definition sum_list (l : list Z) : Z := fold_right Z.add 0 l.

End metrics.

(** ** Package events (src/unnamed/part_011) *)

Module events.

(** [type AttackType string] *)
Inductive AttackType : Set :=
| AttackTypeKill
| AttackTypeSuspend
| AttackTypeDelay.

(** An [Event] is built by one of six constructor functions only; it is
    the tagged union of what they store ([Type] is the tag, [Data] the
    payload).  The [Timestamp], a reading of the wall clock, is left
    out. *)
Inductive Event : Type :=
| NewChaosAttackEvent (nodeID : string) (attackType : AttackType)
| NewChaosAttackEventWithDelay (nodeID : string) (delay : Duration)
| NewChaosResumeEvent (nodeID : string)
| NewRecoveryStartEvent (nodeID : string) (attempt : Z)
| NewRecoverySuccessEvent (nodeID : string)
| NewRecoveryFailedEvent (nodeID : string) (err : error).

(** A [*Bus] as its publishers see it: nil ([None]), or the sequence of
    events handed to [Publish] so far. *)
Definition Bus := option (list Event).

(** [if bus != nil { bus.Publish(event) }] *)
Definition publish (event : Event) (bus : Bus) : Bus :=
  match bus with
  | None => None
  | Some published => Some (published ++ [event])
  end.

End events.

(** ** Package recovery (src/internal/config/config.go, third file) *)

Module recovery.

Record Config : Type := mkConfig {
  HealthCheckInterval : Duration;
  RecoveryDelay : Duration;
  MaxRetries : Z;
  AutoRestart : bool;
  AutoResume : bool;
  ClearDelay : bool
}.

Definition DefaultConfig : Config :=
  mkConfig 1000000000 2000000000 3 true true true.

Record NodeState : Type := mkNodeState {
  LastSeen : Time;
  FailedAt : Time;
  RetryCount : Z;
  IsRecovered : bool
}.

Record Stats : Type := mkStats {
  TotalRecoveries : Z;
  SuccessRecoveries : Z;
  FailedRecoveries : Z;
  CurrentlyFailed : Z
}.

(** The [Manager] struct without the fields of its goroutine ([running],
    [ctx], [cancel], [wg]) and without the [cluster] pointer: every tick
    is given the registry as it is at that moment. *)
Record Manager : Type := mkManager {
  config : Config;
  eventBus : events.Bus;
  nodeStates : gmap string NodeState;
  stats : Stats
}.

Definition New (cfg : Config) : Manager :=
  mkManager cfg None ∅ (mkStats 0 0 0 0).

Definition SetEventBus (bus : events.Bus) (m : Manager) : Manager :=
  mkManager (config m) bus (nodeStates m) (stats m).

Definition publishEvent (event : events.Event) (m : Manager) : Manager :=
  mkManager (config m) (events.publish event (eventBus m)) (nodeStates m) (stats m).

Definition set_stats (s : Stats) (m : Manager) : Manager :=
  mkManager (config m) (eventBus m) (nodeStates m) s.

(** The handlers work on the node [n] the pointer refers to, on the
    tracking record [state] the map entry points to, and on the manager;
    they return all three as they leave them. *)
Definition handleRunningNode (n : node.Node) (state : NodeState) (now : Time)
    (m : Manager) : node.Node * NodeState * Manager :=
  let n1 :=
    if ClearDelay (config m) && bool_decide (node.Delay n > 0)
    then node.SetDelay 0 n else n in
  let shouldPublish :=
    negb (IsRecovered state) && bool_decide (RetryCount state > 0) in
  let m1 :=
    if shouldPublish
    then set_stats (mkStats (TotalRecoveries (stats m))
                            (u64_inc (SuccessRecoveries (stats m)))
                            (FailedRecoveries (stats m))
                            (CurrentlyFailed (stats m))) m
    else m in
  let state1 := mkNodeState now (FailedAt state) 0 false in
  let m2 :=
    if shouldPublish
    then publishEvent (events.NewRecoverySuccessEvent (node.ID n)) m1
    else m1 in
  (n1, state1, m2).

Definition handleStoppedNode (n : node.Node) (state : NodeState) (now : Time)
    (m : Manager) : node.Node * NodeState * Manager :=
  if negb (AutoRestart (config m)) then (n, state, m)
  else if IsZero (FailedAt state) then
    (n,
     mkNodeState (LastSeen state) now (RetryCount state) (IsRecovered state),
     set_stats (mkStats (TotalRecoveries (stats m))
                        (SuccessRecoveries (stats m))
                        (FailedRecoveries (stats m))
                        (int_inc (CurrentlyFailed (stats m)))) m)
  else if bool_decide (Time_Sub now (FailedAt state) < RecoveryDelay (config m))
  then (n, state, m)
  else if bool_decide (MaxRetries (config m) > 0)
          && bool_decide (RetryCount state >= MaxRetries (config m))
  then (n, state, m)
  else
    let retryCount := int_inc (RetryCount state) in
    let state1 := mkNodeState (LastSeen state) now retryCount (IsRecovered state) in
    let m1 :=
      set_stats (mkStats (u64_inc (TotalRecoveries (stats m)))
                         (SuccessRecoveries (stats m))
                         (FailedRecoveries (stats m))
                         (CurrentlyFailed (stats m))) m in
    let m2 := publishEvent (events.NewRecoveryStartEvent (node.ID n) retryCount) m1 in
    match node.Start n with
    | (n', Some err) =>
        let m3 :=
          set_stats (mkStats (TotalRecoveries (stats m2))
                             (SuccessRecoveries (stats m2))
                             (u64_inc (FailedRecoveries (stats m2)))
                             (CurrentlyFailed (stats m2))) m2 in
        (n', state1,
         publishEvent (events.NewRecoveryFailedEvent (node.ID n') (Some err)) m3)
    | (n', None) =>
        (n',
         mkNodeState (LastSeen state1) Time_zero (RetryCount state1) (IsRecovered state1),
         set_stats (mkStats (TotalRecoveries (stats m2))
                            (SuccessRecoveries (stats m2))
                            (FailedRecoveries (stats m2))
                            (int_dec (CurrentlyFailed (stats m2)))) m2)
    end.

Definition handleSuspendedNode (n : node.Node) (state : NodeState) (now : Time)
    (m : Manager) : node.Node * NodeState * Manager :=
  if negb (AutoResume (config m)) then (n, state, m)
  else if IsZero (FailedAt state) then
    (n, mkNodeState (LastSeen state) now (RetryCount state) (IsRecovered state), m)
  else if bool_decide (Time_Sub now (FailedAt state) < RecoveryDelay (config m))
  then (n, state, m)
  else
    let retryCount := int_inc (RetryCount state) in
    let state1 := mkNodeState (LastSeen state) Time_zero retryCount (IsRecovered state) in
    let m1 :=
      set_stats (mkStats (u64_inc (TotalRecoveries (stats m)))
                         (SuccessRecoveries (stats m))
                         (FailedRecoveries (stats m))
                         (CurrentlyFailed (stats m))) m in
    let m2 := publishEvent (events.NewRecoveryStartEvent (node.ID n) retryCount) m1 in
    match node.Resume n with
    | (n', Some err) =>
        let m3 :=
          set_stats (mkStats (TotalRecoveries (stats m2))
                             (SuccessRecoveries (stats m2))
                             (u64_inc (FailedRecoveries (stats m2)))
                             (CurrentlyFailed (stats m2))) m2 in
        (n', state1,
         publishEvent (events.NewRecoveryFailedEvent (node.ID n') (Some err)) m3)
    | (n', None) =>
        let m3 :=
          set_stats (mkStats (TotalRecoveries (stats m2))
                             (u64_inc (SuccessRecoveries (stats m2)))
                             (FailedRecoveries (stats m2))
                             (CurrentlyFailed (stats m2))) m2 in
        (n', state1,
         publishEvent (events.NewRecoverySuccessEvent (node.ID n')) m3)
    end.

(** [checkNode]: the tracking record of the node's identity is looked up
    (created with [LastSeen: now] when missing); the handler of the
    observed status then works through the two pointers, so its results
    are what the heap and the map hold afterwards. *)
Definition checkNode (p : ptr) (now : Time) (m : Manager) : M Manager :=
  fun h =>
    match h !! p with
    | None => Panicked
    | Some n =>
        let nodeID := node.ID n in
        let status := node.Status_of n in
        let state :=
          match nodeStates m !! nodeID with
          | Some state => state
          | None => mkNodeState now Time_zero 0 false
          end in
        let '(n', state', m') :=
          match status with
          | node.StatusRunning => handleRunningNode n state now m
          | node.StatusStopped => handleStoppedNode n state now m
          | node.StatusSuspended => handleSuspendedNode n state now m
          end in
        Returned (mkManager (config m') (eventBus m')
                            (<[nodeID := state']> (nodeStates m')) (stats m'),
                  <[p := n']> h)
    end.

Fixpoint checkNodes (ps : list positive) (now : Time) (m : Manager) : M Manager :=
  match ps with
  | [] => mret m
  | p :: ps' => m' ← checkNode p now m; checkNodes ps' now m'
  end.

(** One tick of the health-check loop; [nodes] is the snapshot
    [m.cluster.Nodes()] and [now] the reading [time.Now()]. *)
Definition checkAndRecover (nodes : list positive) (now : Time) (m : Manager)
    : M Manager :=
  checkNodes nodes now m.

Definition Stats_of (m : Manager) : Stats := stats m.

(** The supervisor after some ticks.  [after_ticks cfg k m]: starting
    from [New cfg], with or without an event bus, health-check ticks
    have led to [m] and have visited [k] nodes in all.  What the
    injector, the load and anything else do between two ticks is not
    restricted: each tick meets a registry and a heap of its own, and
    visits the registered nodes in some order. *)
Inductive after_ticks (cfg : Config) : Z -> Manager -> Prop :=
| ticks_new :
    after_ticks cfg 0 (New cfg)
| ticks_bus k m bus :
    after_ticks cfg k m ->
    after_ticks cfg k (SetEventBus bus m)
| ticks_tick k m c nodes h now m' h' :
    after_ticks cfg k m ->
    cluster.snapshot c nodes ->
    checkAndRecover nodes now m h = Returned (m', h') ->
    after_ticks cfg (k + cluster.Size c) m'.

(** The recoveries started and not yet settled: the tracked nodes whose
    retry count is positive, which the next tick that sees the node
    Running counts as one success. *)
Definition unsettled (m : Manager) : Z :=
  Z.of_nat (size (filter (fun kv => RetryCount (snd kv) > 0) (nodeStates m))).

(** 1 for a tracking record with a positive retry count, else 0. *)
Definition pending (state : NodeState) : Z :=
  if decide (RetryCount state > 0) then 1 else 0.

(** What the counters and the tracking records satisfy between two
    node checks. *)
Definition settled_up (m : Manager) : Prop :=
  0 <= SuccessRecoveries (stats m) /\
  0 <= FailedRecoveries (stats m) /\
  SuccessRecoveries (stats m) + FailedRecoveries (stats m) + unsettled m
    <= TotalRecoveries (stats m) /\
  map_Forall (fun _ st => IsRecovered st = false) (nodeStates m).

(** The effect of one handler on one tracking record and the counters:
    the configuration and the map are kept, the counters only grow,
    [TotalRecoveries] by at most one, and what [TotalRecoveries] exceeds
    the settled and the pending recoveries by does not shrink. *)
Definition accounted (state state' : NodeState) (m m' : Manager) : Prop :=
  config m' = config m /\
  nodeStates m' = nodeStates m /\
  IsRecovered state' = false /\
  SuccessRecoveries (stats m) <= SuccessRecoveries (stats m') /\
  FailedRecoveries (stats m) <= FailedRecoveries (stats m') /\
  TotalRecoveries (stats m) <= TotalRecoveries (stats m')
    <= TotalRecoveries (stats m) + 1 /\
  TotalRecoveries (stats m) - SuccessRecoveries (stats m)
    - FailedRecoveries (stats m) - pending state
  <= TotalRecoveries (stats m') - SuccessRecoveries (stats m')
    - FailedRecoveries (stats m') - pending state'.

(** What a health check may do to a node: it keeps the identity and
    the store, leaves the status alone or makes it Running, and leaves
    the delay alone or clears it. *)
Definition tended (n n' : node.Node) : Prop :=
  node.id n' = node.id n /\
  node.data n' = node.data n /\
  (node.status n' = node.status n \/ node.status n' = node.StatusRunning) /\
  (node.delay n' = node.delay n \/ node.delay n' = 0).

(** What a health check that may not restart or resume makes of a
    node: at most it clears the delay of a Running node. *)
Definition cleared (cfg : Config) (n : node.Node) : node.Node :=
  if ClearDelay cfg && bool_decide (node.status n = node.StatusRunning)
     && bool_decide (node.delay n > 0)
  then node.set_delay 0 n else n.

(** Every tracked node has used at most [MaxRetries] retries. *)
Definition within_budget (cfg : Config) (m : Manager) : Prop :=
  map_Forall (fun _ state => 0 <= RetryCount state <= MaxRetries cfg) (nodeStates m).

End recovery.

(** ** Package chaos (src/internal/chaos/chaos.go) *)

Module chaos.

(** [type AttackType int] with its three constants. *)
Inductive AttackType : Set :=
| AttackKill
| AttackSuspend
| AttackDelay.

#[global] Instance AttackType_eq_dec : EqDecision AttackType.
Proof. solve_decision. Defined.

Definition AttackType_to_nat (a : AttackType) : nat :=
  match a with
  | AttackKill => 0
  | AttackSuspend => 1
  | AttackDelay => 2
  end.

Definition AttackType_of_nat (i : nat) : AttackType :=
  match i with
  | O => AttackKill
  | S O => AttackSuspend
  | _ => AttackDelay
  end.

#[global] Instance AttackType_countable : Countable AttackType :=
  inj_countable' AttackType_to_nat AttackType_of_nat
    (fun a => match a with
              | AttackKill => eq_refl
              | AttackSuspend => eq_refl
              | AttackDelay => eq_refl
              end).

Definition AttackType_String (a : AttackType) : string :=
  match a with
  | AttackKill => "kill"
  | AttackSuspend => "suspend"
  | AttackDelay => "delay"
  end.

Record Config : Type := mkConfig {
  Interval : Duration;
  TargetCount : Z;
  AttackTypes : list AttackType;
  DelayDuration : Duration;
  SuspendTime : Duration
}.

Definition DefaultConfig : Config :=
  mkConfig 5000000000 1 [AttackKill; AttackSuspend; AttackDelay]
           100000000 3000000000.

Record Stats : Type := mkStats {
  TotalAttacks : Z;
  ByType : gmap string Z
}.

(** The [Monkey] struct without the fields of its goroutines and
    without the [cluster] pointer: every tick is given the registry as
    it is at that moment. *)
Record Monkey : Type := mkMonkey {
  config : Config;
  eventBus : events.Bus;
  attackCount : Z;
  attackByType : gmap AttackType Z;
  lastAttack : Time;
  suspendedIDs : gmap string Time
}.

Definition New (cfg : Config) : Monkey :=
  mkMonkey cfg None 0 ∅ Time_zero ∅.

Definition SetEventBus (bus : events.Bus) (m : Monkey) : Monkey :=
  mkMonkey (config m) bus (attackCount m) (attackByType m)
           (lastAttack m) (suspendedIDs m).

Definition publishEvent (event : events.Event) (m : Monkey) : Monkey :=
  mkMonkey (config m) (events.publish event (eventBus m)) (attackCount m)
           (attackByType m) (lastAttack m) (suspendedIDs m).

(** [m.attackByType[t]++]: a missing key reads as 0. *)
Definition count_attack (t : AttackType) (m : Monkey) : Monkey :=
  mkMonkey (config m) (eventBus m) (attackCount m)
           (<[t := u64_inc (default 0 (attackByType m !! t))]> (attackByType m))
           (lastAttack m) (suspendedIDs m).

(** The pseudo-random numbers a tick draws, as inputs: the draws of
    [rand.Shuffle] in order, then the draw of [rand.Intn].  A draw for
    [Intn(k)] is any natural number, taken modulo [k]. *)
Record Draws : Type := mkDraws {
  shuffle_draws : list nat;
  type_draw : nat
}.

(** [rand.Shuffle(n, swap)] is the Fisher-Yates shuffle:
    [for i := n-1; i > 0; i-- { j := Intn(i+1); swap(i, j) }],
    with [swap] exchanging the elements at [i] and [j]. *)
Definition swap {A : Type} (i j : nat) (l : list A) : list A :=
  match l !! i, l !! j with
  | Some x, Some y => <[i := y]> (<[j := x]> l)
  | _, _ => l
  end.

Fixpoint shuffle_from {A : Type} (i : nat) (draws : list nat) (l : list A) : list A :=
  match i with
  | O => l
  | S i' =>
      let j := (hd O draws mod (i + 1))%nat in
      shuffle_from i' (tl draws) (swap i j l)
  end.

Definition Shuffle {A : Type} (draws : list nat) (l : list A) : list A :=
  shuffle_from (length l - 1) draws l.

(** The loop [for _, n := range nodes { if n.Status() == node.StatusRunning
    { running = append(running, n) } }]. *)
Fixpoint running_of (ps : list positive) : M (list positive) :=
  match ps with
  | [] => mret []
  | p :: ps' =>
      st ← query node.Status_of p;
      rest ← running_of ps';
      mret (if decide (st = node.StatusRunning) then p :: rest else rest)
  end.

(** [nodes] is the snapshot [m.cluster.Nodes()]; [running[:count]]
    panics when [count] is negative. *)
Definition selectTargets (nodes : list positive) (d : Draws) (m : Monkey)
    : M (list positive) :=
  if decide (length nodes = 0%nat) then mret []
  else
    running ← running_of nodes;
    if decide (length running = 0%nat) then mret []
    else
      let count := TargetCount (config m) in
      let count :=
        if decide (count > Z.of_nat (length running))
        then Z.of_nat (length running) else count in
      let shuffled := Shuffle (shuffle_draws d) running in
      if decide (count < 0) then panic
      else mret (take (Z.to_nat count) shuffled).

Definition selectAttackType (d : Draws) (m : Monkey) : AttackType :=
  match AttackTypes (config m) with
  | [] => AttackKill
  | t0 :: _ =>
      nth (type_draw d mod length (AttackTypes (config m))) (AttackTypes (config m)) t0
  end.

Definition attackKill (p : ptr) (m : Monkey) : M Monkey :=
  err ← call node.Stop p;
  match err with
  | Some _ => mret m
  | None =>
      i ← query node.ID p;
      mret (count_attack AttackKill
              (publishEvent (events.NewChaosAttackEvent i events.AttackTypeKill) m))
  end.

Definition attackSuspend (p : ptr) (now : Time) (m : Monkey) : M Monkey :=
  err ← call node.Suspend p;
  match err with
  | Some _ => mret m
  | None =>
      i ← query node.ID p;
      let m1 :=
        mkMonkey (config m) (eventBus m) (attackCount m) (attackByType m)
                 (lastAttack m) (<[i := now]> (suspendedIDs m)) in
      mret (publishEvent (events.NewChaosAttackEvent i events.AttackTypeSuspend)
              (count_attack AttackSuspend m1))
  end.

Definition attackDelay (p : ptr) (m : Monkey) : M Monkey :=
  _ ← call (fun n => (node.SetDelay (DelayDuration (config m)) n, tt)) p;
  i ← query node.ID p;
  mret (count_attack AttackDelay
          (publishEvent
             (events.NewChaosAttackEventWithDelay i (DelayDuration (config m))) m)).

Definition executeAttack (p : ptr) (attackType : AttackType) (now : Time)
    (m : Monkey) : M Monkey :=
  match attackType with
  | AttackKill => attackKill p m
  | AttackSuspend => attackSuspend p now m
  | AttackDelay => attackDelay p m
  end.

Fixpoint executeAttacks (targets : list positive) (attackType : AttackType)
    (now : Time) (m : Monkey) : M Monkey :=
  match targets with
  | [] => mret m
  | p :: targets' =>
      m' ← executeAttack p attackType now m;
      executeAttacks targets' attackType now m'
  end.

(** One tick of the attack loop; [nodes] is the snapshot
    [m.cluster.Nodes()] and [now] stands for the readings of the clock
    made during the tick. *)
Definition attack (nodes : list positive) (d : Draws) (now : Time) (m : Monkey)
    : M Monkey :=
  targets ← selectTargets nodes d m;
  if decide (length targets = 0%nat) then mret m
  else
    let attackType := selectAttackType d m in
    m' ← executeAttacks targets attackType now m;
    mret (mkMonkey (config m') (eventBus m') (u64_inc (attackCount m'))
                   (attackByType m') now (suspendedIDs m')).

Definition AttackCount (m : Monkey) : Z := attackCount m.

(** [for t, count := range m.attackByType { byType[t.String()] = count }] *)
Definition Stats_of (m : Monkey) : Stats :=
  mkStats (attackCount m)
          (map_fold (fun t count byType => <[AttackType_String t := count]> byType)
                    ∅ (attackByType m)).

(** The sum of the per-type counters of a [Stats]. *)
Definition sum_ByType (s : Stats) : Z := map_sum (ByType s).

(** The sum of the per-type counters of the injector itself, their
    being non-negative, and what holds of the counters between ticks. *)
Definition tally (m : Monkey) : Z := map_sum (attackByType m).

Definition counters_ok (m : Monkey) : Prop :=
  map_Forall (fun _ v => 0 <= v) (attackByType m).

Definition counted (m : Monkey) : Prop :=
  counters_ok m /\ 0 <= attackCount m <= tally m.

(** The injector after some ticks.  [after_ticks cfg k m]: starting from
    [New cfg], with or without an event bus, attack ticks have led to
    [m]; [k] is the sum over these ticks of the sizes of the registry.
    Each tick meets a registry and a heap of its own (whatever the
    supervisor and the load did since the last one) and its own draws;
    the registry holds live nodes under their identities. *)
Inductive after_ticks (cfg : Config) : Z -> Monkey -> Prop :=
| ticks_new :
    after_ticks cfg 0 (New cfg)
| ticks_bus k m bus :
    after_ticks cfg k m ->
    after_ticks cfg k (SetEventBus bus m)
| ticks_tick k m c nodes h d now m' h' :
    after_ticks cfg k m ->
    cluster.registry_ok c h ->
    cluster.snapshot c nodes ->
    attack nodes d now m h = Returned (m', h') ->
    after_ticks cfg (k + cluster.Size c) m'.

(** The auto-resume loop.  [resume_entry] is the body of the loop of
    [checkAndResume] for the entry [nodeID], [suspendTime] of
    [m.suspendedIDs]; [c] is the registry [m.cluster] at that moment and
    [now] the reading [time.Now()] made before the loop. *)
Definition resume_entry (c : cluster.Cluster) (now : Time) (nodeID : string)
    (suspendTime : Time) (m : Monkey) : M Monkey :=
  if decide (Time_Sub now suspendTime >= SuspendTime (config m)) then
    m1 ← match cluster.GetNode c nodeID with
         | Some p =>
             err ← call node.Resume p;
             mret (match err with
                   | None => publishEvent (events.NewChaosResumeEvent nodeID) m
                   | Some _ => m
                   end)
         | None => mret m
         end;
    mret (mkMonkey (config m1) (eventBus m1) (attackCount m1) (attackByType m1)
                   (lastAttack m1) (delete nodeID (suspendedIDs m1)))
  else mret m.

(** [entries] lists the map [m.suspendedIDs] in the order the [range]
    meets it.  The loop deletes the entry it is at and no other, so
    every entry is met once. *)
Fixpoint resume_entries (c : cluster.Cluster) (now : Time)
    (entries : list (string * Time)) (m : Monkey) : M Monkey :=
  match entries with
  | [] => mret m
  | (nodeID, suspendTime) :: entries' =>
      m' ← resume_entry c now nodeID suspendTime m;
      resume_entries c now entries' m'
  end.

Definition checkAndResume (c : cluster.Cluster) (entries : list (string * Time))
    (now : Time) (m : Monkey) : M Monkey :=
  resume_entries c now entries m.

(** [resumeAll], called by [Stop]: [ids] lists the keys of
    [m.suspendedIDs] in the order the [range] meets them. *)
Fixpoint resume_ids (c : cluster.Cluster) (ids : list string) : M unit :=
  match ids with
  | [] => mret tt
  | nodeID :: ids' =>
      _ ← match cluster.GetNode c nodeID with
          | Some p => _ ← call node.Resume p; mret tt
          | None => mret tt
          end;
      resume_ids c ids'
  end.

Definition resumeAll (c : cluster.Cluster) (ids : list string) (m : Monkey)
    : M Monkey :=
  _ ← resume_ids c ids;
  mret (mkMonkey (config m) (eventBus m) (attackCount m) (attackByType m)
                 (lastAttack m) ∅).

(** The orders in which a [range] may meet [m.suspendedIDs]. *)
Definition suspended_entries (m : Monkey) (entries : list (string * Time)) : Prop :=
  entries ≡ₚ map_to_list (suspendedIDs m).

(** What an attack of type [t] makes of a Running node. *)
Definition attacked (t : AttackType) (cfg : Config) (n : node.Node) : node.Node :=
  match t with
  | AttackKill => node.set_status node.StatusStopped n
  | AttackSuspend => node.set_status node.StatusSuspended n
  | AttackDelay => node.set_delay (DelayDuration cfg) n
  end.

(** What a call of the attack does to a node, Running or not. *)
Definition attack_call (t : AttackType) (cfg : Config) (n : node.Node) : node.Node :=
  match t with
  | AttackKill => fst (node.Stop n)
  | AttackSuspend => fst (node.Suspend n)
  | AttackDelay => node.SetDelay (DelayDuration cfg) n
  end.

(** The tracking map after an attack: an entry is as before or has
    been set to [now]. *)
Definition tracks (now : Time) (before after : gmap string Time) : Prop :=
  forall i, after !! i = before !! i \/ after !! i = Some now.

(** What [Resume] makes of a node. *)
Definition resumed (n : node.Node) : node.Node :=
  if decide (node.status n = node.StatusSuspended)
  then node.set_status node.StatusRunning n else n.

(** The pointers the auto-resume loop calls [Resume] on at the time
    [now]: those registered under a tracked identity whose suspension
    is at least [SuspendTime] old. *)
Definition expired (now : Time) (m : Monkey) (suspendTime : Time) : bool :=
  bool_decide (Time_Sub now suspendTime >= SuspendTime (config m)).

Definition due_among (c : cluster.Cluster) (now : Time) (m : Monkey)
    (entries : list (string * Time)) : list positive :=
  omap (fun entry : string * Time =>
          if expired now m (snd entry)
          then cluster.GetNode c (fst entry) else None)
       entries.

Definition due (c : cluster.Cluster) (now : Time) (m : Monkey) : list positive :=
  due_among c now m (map_to_list (suspendedIDs m)).

(** The keys of the entries of [entries] that are due at [now]. *)
Definition due_keys (now : Time) (m : Monkey) (entries : list (string * Time))
    : list string :=
  (filter (fun entry : string * Time => expired now m (snd entry) = true) entries).*1.

(** A heap in which the nodes at the pointers [ps] have been resumed. *)
Definition resumed_at (ps : list positive) (h h' : heap) : Prop :=
  forall p, h' !! p = (fun n => if decide (p ∈ ps) then resumed n else n) <$> h !! p.

(** The pointers registered under a tracked identity. *)
Definition tracked (c : cluster.Cluster) (m : Monkey) : list positive :=
  omap (cluster.GetNode c) (map_to_list (suspendedIDs m)).*1.


End chaos.

(** ** Package events: the bus (src/internal/events/bus.go) *)

Module eventbus.

(** A buffered [chan Event]: the events it holds, oldest first, its
    capacity, and whether it has been closed. *)
Record Chan : Type := mkChan {
  queue : list events.Event;
  capacity : Z;
  closed : bool
}.

(** The channels made so far live in a heap of their own, addressed by
    the channel value; an address outside it stands for the nil
    channel.  A subscriber holds its channel as a [<-chan Event]: it can
    receive from it and cannot send on it or close it. *)
Abbreviation chans := (gmap positive Chan) (only parsing).

(** The key set of [subscribers map[chan Event]struct{}]. *)
Record Bus : Type := mkBus {
  subscribers : gset positive;
  bufferSize : Z
}.

Definition defaultBufferSize : Z := 100.

Definition NewBus : Bus := mkBus ∅ defaultBufferSize.

(** [make(chan Event, n)] panics for a negative [n]. *)
Definition Subscribe (b : Bus) (cs : chans) : outcome (positive * Bus * chans) :=
  if decide (bufferSize b < 0) then Panicked
  else
    let ch := fresh (dom cs) in
    Returned (ch,
              mkBus ({[ ch ]} ∪ subscribers b) (bufferSize b),
              <[ch := mkChan [] (bufferSize b) false]> cs).

(** [close(ch)] panics on a nil channel and on a closed one. *)
Definition close (ch : positive) (cs : chans) : outcome chans :=
  match cs !! ch with
  | None => Panicked
  | Some c =>
      if closed c then Panicked
      else Returned (<[ch := mkChan (queue c) (capacity c) true]> cs)
  end.

(** The loop looks for the key equal to [ch]; there is at most one. *)
Definition Unsubscribe (b : Bus) (ch : positive) (cs : chans) : outcome (Bus * chans) :=
  if decide (ch ∈ subscribers b) then
    match close ch cs with
    | Returned cs' => Returned (mkBus (subscribers b ∖ {[ ch ]}) (bufferSize b), cs')
    | Panicked => Panicked
    end
  else Returned (b, cs).

(** [select { case ch <- event: default: }]: the send panics on a closed
    channel; it is taken when the buffer has room; otherwise, and on a
    nil channel, the default branch is taken and the event is dropped. *)
Definition try_send (ch : positive) (event : events.Event) (cs : chans) : outcome chans :=
  match cs !! ch with
  | None => Returned cs
  | Some c =>
      if closed c then Panicked
      else if decide (Z.of_nat (length (queue c)) < capacity c)
      then Returned (<[ch := mkChan (queue c ++ [event]) (capacity c) false]> cs)
      else Returned cs
  end.

(** [subs] lists the subscribers in the order the [range] meets them. *)
Fixpoint publish_to (subs : list positive) (event : events.Event) (cs : chans)
    : outcome chans :=
  match subs with
  | [] => Returned cs
  | ch :: subs' =>
      match try_send ch event cs with
      | Returned cs' => publish_to subs' event cs'
      | Panicked => Panicked
      end
  end.

Definition Publish (b : Bus) (subs : list positive) (event : events.Event) (cs : chans)
    : outcome chans :=
  publish_to subs event cs.


Fixpoint close_each (subs : list positive) (b : Bus) (cs : chans) : outcome (Bus * chans) :=
  match subs with
  | [] => Returned (b, cs)
  | ch :: subs' =>
      match close ch cs with
      | Returned cs' =>
          close_each subs' (mkBus (subscribers b ∖ {[ ch ]}) (bufferSize b)) cs'
      | Panicked => Panicked
      end
  end.

Definition Close (b : Bus) (subs : list positive) (cs : chans) : outcome (Bus * chans) :=
  close_each subs b cs.

(** What a subscriber does with its channel: [event, ok := <-ch].  The
    result is [None] when the receive blocks (nothing buffered, channel
    open or nil); a closed channel hands out what it still holds and
    then the zero value with [ok] false, here [(None, false)]. *)
Definition receive (ch : positive) (cs : chans)
    : option (option events.Event * bool * chans) :=
  match cs !! ch with
  | None => None
  | Some c =>
      match queue c with
      | event :: rest =>
          Some (Some event, true, <[ch := mkChan rest (capacity c) (closed c)]> cs)
      | [] => if closed c then Some (None, false, cs) else None
      end
  end.

(** What a send attempt makes of an open channel: the event joins
    the queue when there is room and is dropped otherwise. *)
Definition offered (event : events.Event) (c : Chan) : Chan :=
  if decide (Z.of_nat (length (queue c)) < capacity c)
  then mkChan (queue c ++ [event]) (capacity c) (closed c)
  else c.

(** The orders in which a [range] may meet [b.subscribers]. *)
Definition range_of (b : Bus) (subs : list positive) : Prop :=
  subs ≡ₚ elements (subscribers b).

(** A bus and its channels after any calls of the methods of the bus
    and any receives of its subscribers, from [NewBus] on. *)
Inductive reachable : Bus -> chans -> Prop :=
| reach_new :
    reachable NewBus ∅
| reach_subscribe b cs ch b' cs' :
    reachable b cs ->
    Subscribe b cs = Returned (ch, b', cs') ->
    reachable b' cs'
| reach_unsubscribe b cs ch b' cs' :
    reachable b cs ->
    Unsubscribe b ch cs = Returned (b', cs') ->
    reachable b' cs'
| reach_publish b cs subs event cs' :
    reachable b cs ->
    range_of b subs ->
    Publish b subs event cs = Returned cs' ->
    reachable b cs'
| reach_close b cs subs b' cs' :
    reachable b cs ->
    range_of b subs ->
    Close b subs cs = Returned (b', cs') ->
    reachable b' cs'
| reach_receive b cs ch r cs' :
    reachable b cs ->
    receive ch cs = Some (r, cs') ->
    reachable b cs'.

(** What holds of a bus between two calls: its subscribers are the
    open channels, made with the capacity of the bus and never holding
    more. *)
Definition bus_ok (b : Bus) (cs : chans) : Prop :=
  bufferSize b = defaultBufferSize /\
  (forall ch, ch ∈ subscribers b ->
     exists c, cs !! ch = Some c /\ closed c = false) /\
  (forall ch c, cs !! ch = Some c ->
     capacity c = defaultBufferSize /\
     Z.of_nat (length (queue c)) <= capacity c /\
     (closed c = false -> ch ∈ subscribers b)).

End eventbus.

(** ** Package client: one request (src/internal/client/client.go) *)

Module client.

(** The part of [Config] a request reads. *)
Record Config : Type := mkConfig {
  ValueSize : Z
}.

(** The job [createJob(n, key, isWrite)] returns, run on the collector
    [mt].  [random] are the bytes [cryptorand.Read] writes into the
    value, [latency] is the reading [time.Since(start)].
    [make([]byte, size)] panics for a negative size and gives zeroes
    otherwise. *)
Definition createJob (cfg : Config) (p : ptr) (key : string) (isWrite : bool)
    (random : list Byte.byte) (latency : Duration) (mt : metrics.Metrics)
    : M metrics.Metrics :=
  err ← (if isWrite then
           if decide (ValueSize cfg < 0) then panic
           else
             let value := resize (Z.to_nat (ValueSize cfg)) Byte.x00 random in
             call (fun n => node.Set_ n key value) p
         else
           _ ← query (fun n => node.Get n key) p;
           mret None);
  match err with
  | Some _ => mret (metrics.RecordFailure latency mt)
  | None => mret (metrics.RecordSuccess latency mt)
  end.

End client.

(** ** Package api: the status endpoint (src/unnamed/part_007, second file) *)

Module api.

Record StatusResponse : Type := mkStatusResponse {
  Running : bool;
  ScenarioName : string;
  NodeCount : Z;
  RunningNodes : Z;
  StoppedNodes : Z;
  SuspendedNodes : Z
}.

(** The fields of [Server] the handler reads: [running], [config.Name]
    and the [cluster] pointer, which is nil until a scenario starts. *)
Record Server : Type := mkServer {
  running : bool;
  config_Name : string;
  cluster_of : option cluster.Cluster
}.

(** [switch n.Status().String() { case "Stopped": ... case "Suspended": ... }]
    for the nodes of the snapshot; the counts stay below the length of
    the slice. *)
Fixpoint count_by_name (ps : list positive) (resp : StatusResponse) : M StatusResponse :=
  match ps with
  | [] => mret resp
  | p :: ps' =>
      name ← query (fun n => node.Status_String (node.Status_of n)) p;
      count_by_name ps'
        (if String.eqb name "Stopped" then
           mkStatusResponse (Running resp) (ScenarioName resp) (NodeCount resp)
             (RunningNodes resp) (StoppedNodes resp + 1) (SuspendedNodes resp)
         else if String.eqb name "Suspended" then
           mkStatusResponse (Running resp) (ScenarioName resp) (NodeCount resp)
             (RunningNodes resp) (StoppedNodes resp) (SuspendedNodes resp + 1)
         else resp)
  end.

(** The answer is the response written as JSON, or the status code of
    [http.Error]; [nodes] is the snapshot [s.cluster.Nodes()]. *)
Definition handleStatus (s : Server) (method : string) (nodes : list positive)
    : M (StatusResponse + Z) :=
  if negb (String.eqb method "GET") then mret (inr 405)
  else
    let resp := mkStatusResponse (running s) "" 0 0 0 0 in
    let resp :=
      if negb (String.eqb (config_Name s) "")
      then mkStatusResponse (Running resp) (config_Name s) 0 0 0 0
      else resp in
    match cluster_of s with
    | None => mret (inl resp)
    | Some c =>
        running_nodes ← cluster.RunningCount c;
        resp' ← count_by_name nodes
          (mkStatusResponse (Running resp) (ScenarioName resp) (cluster.Size c)
             running_nodes 0 0);
        mret (inl resp')
    end.

End api.

(** ** Package config: attack names (src/internal/config/config.go, first file) *)

Module config.

(** [parseAttackTypes]; [ToLower] stands for [strings.ToLower], which
    maps every Unicode letter to its lower case. *)
Fixpoint parse_from (ToLower : string -> string) (types : list string)
    (attacks : list chaos.AttackType) : list chaos.AttackType * error :=
  match types with
  | [] => (attacks, None)
  | t :: types' =>
      let name := ToLower t in
      if String.eqb name "kill" then
        parse_from ToLower types' (attacks ++ [chaos.AttackKill])
      else if String.eqb name "suspend" then
        parse_from ToLower types' (attacks ++ [chaos.AttackSuspend])
      else if String.eqb name "delay" then
        parse_from ToLower types' (attacks ++ [chaos.AttackDelay])
      else ([], Some ("unknown attack type: " +:+ t))
  end.

Definition parseAttackTypes (ToLower : string -> string) (types : list string)
    : list chaos.AttackType * error :=
  parse_from ToLower types [].

(** [strings.ToLower] on a string of ASCII characters. *)
Definition ascii_lower (a : Ascii.ascii) : Ascii.ascii :=
  let n := Ascii.nat_of_ascii a in
  if ((65 <=? n) && (n <=? 90))%nat then Ascii.ascii_of_nat (n + 32) else a.

Fixpoint ToLower_ascii (s : string) : string :=
  match s with
  | EmptyString => EmptyString
  | String a s' => String (ascii_lower a) (ToLower_ascii s')
  end.

End config.

(** ** Concrete inputs used by the examples below *)

Definition running_node : node.Node :=
  fst (node.Start (node.New "node-1")).

Definition suspended_node : node.Node :=
  fst (node.Suspend running_node).

Definition value_a : node.value := [Byte.x61].

(** Clock readings one, four and five seconds after some origin. *)
Definition at_1s : Time := 1700000001000000000.
Definition at_4s : Time := 1700000004000000000.
Definition at_5s : Time := 1700000005000000000.

(** A registry with one node, built as the program builds it, and then
    started and suspended; the result is the registry and the node's
    address. *)
Definition one_suspended : M (cluster.Cluster * positive) :=
  p ← new_node "node-1";
  r ← cluster.AddNode cluster.New p;
  _ ← call node.Start p;
  _ ← call node.Suspend p;
  mret (fst r, p).

Definition cluster_1 : cluster.Cluster :=
  cluster.mkCluster {[ "node-1" := 1%positive ]}.

Definition heap_1_suspended : gmap positive node.Node :=
  {[ 1%positive := suspended_node ]}.

Definition heap_1_running : gmap positive node.Node :=
  {[ 1%positive := running_node ]}.

(** A registry with two nodes, both started. *)
Definition two_running : M cluster.Cluster :=
  p1 ← new_node "node-1";
  r1 ← cluster.AddNode cluster.New p1;
  p2 ← new_node "node-2";
  r2 ← cluster.AddNode (fst r1) p2;
  _ ← call node.Start p1;
  _ ← call node.Start p2;
  mret (fst r2).

Definition cluster_2 : cluster.Cluster :=
  cluster.mkCluster {[ "node-1" := 1%positive; "node-2" := 2%positive ]}.

Definition heap_2_running : gmap positive node.Node :=
  {[ 1%positive := running_node;
     2%positive := fst (node.Start (node.New "node-2")) ]}.

(** An injector that kills two nodes per tick, and the draws of a tick. *)
Definition kill_two : chaos.Config :=
  chaos.mkConfig 5000000000 2 [chaos.AttackKill] 100000000 3000000000.

Definition draws_0 : chaos.Draws := chaos.mkDraws [0%nat] 0.
Definition draws_delay : chaos.Draws := chaos.mkDraws [] 2.

Definition attack_stats (r : outcome (chaos.Monkey * gmap positive node.Node))
    : option (Z * gmap string Z * Z) :=
  match r with
  | Returned (m, _) =>
      Some (chaos.TotalAttacks (chaos.Stats_of m),
            chaos.ByType (chaos.Stats_of m),
            chaos.sum_ByType (chaos.Stats_of m))
  | Panicked => None
  end.

(** The default injector after one tick that delayed the only node. *)
Definition delayed_once : chaos.Monkey :=
  chaos.mkMonkey chaos.DefaultConfig None 1 {[ chaos.AttackDelay := 1 ]} at_1s ∅.

(** The same registry after the node was started and then killed. *)
Definition stopped_node : node.Node :=
  fst (node.Stop running_node).

Definition heap_1_stopped : gmap positive node.Node :=
  {[ 1%positive := stopped_node ]}.

(** Supervisor ticks at the given times with nothing else touching the
    nodes in between. *)
Fixpoint supervisor_ticks (c : cluster.Cluster) (times : list Time)
    (m : recovery.Manager) : M recovery.Manager :=
  match times with
  | [] => mret m
  | now :: times' =>
      m' ← recovery.checkAndRecover (cluster.Nodes c) now m;
      supervisor_ticks c times' m'
  end.

Definition stats_after (r : outcome (recovery.Manager * gmap positive node.Node))
    : option recovery.Stats :=
  match r with
  | Returned (m, _) => Some (recovery.Stats_of m)
  | Panicked => None
  end.

(** The default configuration with [AutoResume] switched off. *)
Definition restart_only : recovery.Config :=
  recovery.mkConfig 1000000000 2000000000 3 true false true.


(** The restart-only supervisor after it has noticed the stopped node
    (first tick) and after it has restarted it (second tick). *)
Definition restart_detected : recovery.Manager :=
  recovery.mkManager restart_only None
    {[ "node-1" := recovery.mkNodeState at_1s at_1s 0 false ]}
    (recovery.mkStats 0 0 0 1).

Definition restart_done : recovery.Manager :=
  recovery.mkManager restart_only None
    {[ "node-1" := recovery.mkNodeState at_1s Time_zero 1 false ]}
    (recovery.mkStats 1 0 0 0).

(** An injector that only suspends, one node per tick, and what it is
    after one tick on the registry of one Running node. *)
Definition suspend_only : chaos.Config :=
  chaos.mkConfig 5000000000 1 [chaos.AttackSuspend] 100000000 3000000000.

Definition suspended_once : chaos.Monkey :=
  chaos.mkMonkey suspend_only None 1 {[ chaos.AttackSuspend := 1 ]} at_1s
                 {[ "node-1" := at_1s ]}.

(** A supervisor that may neither restart nor resume nor clear delays. *)
Definition idle_supervisor : recovery.Config :=
  recovery.mkConfig 1000000000 2000000000 3 false false false.

(** A bus with one subscriber, as [Subscribe] on a new bus leaves it. *)
Definition bus_1 : eventbus.Bus :=
  eventbus.mkBus ({[ 1%positive ]} ∪ ∅) eventbus.defaultBufferSize.

Definition chans_1 : gmap positive eventbus.Chan :=
  {[ 1%positive := eventbus.mkChan [] eventbus.defaultBufferSize false ]}.

(* ===================================================================== *)
(** * Properties                                                          *)
(* ===================================================================== *)

(** ** Node: lifecycle *)

Section node_lifecycle.
Import node.

Ltac by_status n :=
  destruct n as [? [] ? ? ?]; cbn [fire];
  unfold Start, Stop, Suspend, Resume, errorf; cbn;
  repeat case_decide; cbn; intuition congruence.

Lemma Start_ok_iff n : snd (Start n) = None <-> status n <> StatusRunning.
Proof. by_status n. Qed.

Lemma Stop_ok_iff n : snd (Stop n) = None <-> status n <> StatusStopped.
Proof. by_status n. Qed.

Lemma Suspend_ok_iff n : snd (Suspend n) = None <-> status n = StatusRunning.
Proof. by_status n. Qed.

Lemma Resume_ok_iff n : snd (Resume n) = None <-> status n = StatusSuspended.
Proof. by_status n. Qed.

(** A lifecycle call that returns an error leaves the node as it was. *)
Lemma fire_error_unchanged e n msg :
  snd (fire e n) = Some msg -> fst (fire e n) = n.
Proof. destruct e; by_status n. Qed.

(** No lifecycle call touches the identity, the delay or the store. *)
Lemma fire_frame e n :
  id (fst (fire e n)) = id n /\
  delay (fst (fire e n)) = delay n /\
  data (fst (fire e n)) = data n.
Proof. destruct e; by_status n. Qed.

End node_lifecycle.

(** C1 (as the code has it): [Start] returns nil exactly when the node
    is not Running, that is from Stopped and also from Suspended, and
    leaves it Running; [Stop] returns nil exactly when the node is
    Running or Suspended and leaves it Stopped; a call that returns an
    error leaves the whole node, hence its status, unchanged. *)
Theorem C1_start_stop_transitions (n : node.Node) :
  (snd (node.Start n) = None <->
     node.status n = node.StatusStopped \/ node.status n = node.StatusSuspended) /\
  (snd (node.Stop n) = None <->
     node.status n = node.StatusRunning \/ node.status n = node.StatusSuspended) /\
  (snd (node.Start n) = None -> node.status (fst (node.Start n)) = node.StatusRunning) /\
  (snd (node.Stop n) = None -> node.status (fst (node.Stop n)) = node.StatusStopped) /\
  (snd (node.Start n) <> None -> fst (node.Start n) = n) /\
  (snd (node.Stop n) <> None -> fst (node.Stop n) = n).
Proof.
  rewrite Start_ok_iff, Stop_ok_iff.
  destruct n as [i [] d m c]; unfold node.Start, node.Stop, node.errorf; cbn;
    repeat case_decide; cbn; intuition congruence.
Qed.

(** C1, the claim as stated fails: on a Suspended node (reached by
    [New], [Start], [Suspend]) [Start] returns nil and the node is
    Running, where the table of the specification says the call fails. *)
Lemma C1_start_on_suspended_succeeds :
  node.status suspended_node = node.StatusSuspended /\
  node.Start suspended_node =
    (node.mkNode "node-1" node.StatusRunning 0 ∅ true, None) /\
  node.transition node.StatusSuspended node.EvStart = Some node.StatusRunning.
Proof. repeat split. Qed.

(** ** Node: the store *)

Section node_store.
Import node.

Lemma Get_running n k :
  status n = StatusRunning ->
  Get n k = match data n !! k with
            | Some v => (v, true)
            | None => (nil_value, false)
            end.
Proof. intros H. unfold Get. rewrite H. by case_decide. Qed.

Lemma Get_not_running n k :
  status n <> StatusRunning -> Get n k = (nil_value, false).
Proof. intros H. unfold Get. by case_decide. Qed.

Lemma Set_running n k v :
  status n = StatusRunning ->
  Set_ n k v = (set_data (<[k := v]> (data n)) n, None).
Proof. intros H. unfold Set_. rewrite H. by case_decide. Qed.

Lemma Delete_running n k :
  status n = StatusRunning ->
  Delete n k = (set_data (delete k (data n)) n, None).
Proof. intros H. unfold Delete. rewrite H. by case_decide. Qed.

(** A call that is neither [Set(k,_)] nor [Delete(k)] leaves the
    binding of [k] alone, whatever the state of the node. *)
Lemma step_lookup_other k o n :
  writes_key k o = false -> data (step o n) !! k = data n !! k.
Proof.
  destruct o; cbn [step writes_key]; intros Hk; try reflexivity.
  1-4: match goal with
       | |- data (fst (?f ?m)) !! _ = _ =>
           first [ change (f m) with (fire EvStart m)
                 | change (f m) with (fire EvStop m)
                 | change (f m) with (fire EvSuspend m)
                 | change (f m) with (fire EvResume m) ]
       end;
       match goal with
       | |- data (fst (fire ?e ?m)) !! _ = _ =>
           by destruct (fire_frame e m) as (_ & _ & ->)
       end.
  - apply bool_decide_eq_false in Hk.
    unfold Set_. case_decide; cbn; [done | by rewrite lookup_insert_ne].
  - apply bool_decide_eq_false in Hk.
    unfold Delete. case_decide; cbn; [done | by rewrite lookup_delete_ne].
Qed.

Lemma run_lookup_other k ops : forall n,
  Forall (fun o => writes_key k o = false) ops ->
  data (run ops n) !! k = data n !! k.
Proof.
  induction ops as [|o ops IH]; intros n Hall; [done |].
  inversion Hall as [|? ? Ho Hops]; subst. cbn [run fold_left].
  change (data (run ops (step o n)) !! k = data n !! k).
  rewrite IH by done. by apply step_lookup_other.
Qed.

Lemma remains_running_end ops : forall n,
  remains_running ops n -> status (run ops n) = StatusRunning.
Proof.
  induction ops as [|o ops IH]; intros n [Hn Hrest]; [done |].
  exact (IH _ Hrest).
Qed.

End node_store.

(** C5: on a Running node [Set(k,v)] returns nil, and after any
    further calls that keep the node Running and are neither [Set(k,_)]
    nor [Delete(k)], [Get(k)] returns [(v, true)]; [Delete(k)] returns
    nil and [Get(k)] then returns [(nil, false)], at once and after any
    such further calls. *)
Theorem C5_set_get_delete_roundtrip
    (n : node.Node) (k : string) (v : node.value)
    (Hrun : node.status n = node.StatusRunning) :
  (exists n1, node.Set_ n k v = (n1, None) /\
     forall ops,
       Forall (fun o => node.writes_key k o = false) ops ->
       node.remains_running ops n1 ->
       node.Get (node.run ops n1) k = (v, true)) /\
  (exists n2, node.Delete n k = (n2, None) /\
     node.Get n2 k = (node.nil_value, false) /\
     forall ops,
       Forall (fun o => node.writes_key k o = false) ops ->
       node.remains_running ops n2 ->
       node.Get (node.run ops n2) k = (node.nil_value, false)).
Proof.
  split.
  - eexists. split; [by apply Set_running |].
    intros ops Hops Hrr.
    rewrite Get_running by (by apply remains_running_end).
    rewrite run_lookup_other by done. cbn.
    by rewrite lookup_insert_eq.
  - eexists. split; [by apply Delete_running |]. split.
    + rewrite Get_running by done. cbn. by rewrite lookup_delete_eq.
    + intros ops Hops Hrr.
      rewrite Get_running by (by apply remains_running_end).
      rewrite run_lookup_other by done. cbn.
      by rewrite lookup_delete_eq.
Qed.

Lemma C5_witness :
  node.status running_node = node.StatusRunning /\
  (exists n1, node.Set_ running_node "key1" value_a = (n1, None) /\
     forall ops,
       Forall (fun o => node.writes_key "key1" o = false) ops ->
       node.remains_running ops n1 ->
       node.Get (node.run ops n1) "key1" = (value_a, true)) /\
  (exists n2, node.Delete running_node "key1" = (n2, None) /\
     node.Get n2 "key1" = (node.nil_value, false) /\
     forall ops,
       Forall (fun o => node.writes_key "key1" o = false) ops ->
       node.remains_running ops n2 ->
       node.Get (node.run ops n2) "key1" = (node.nil_value, false)).
Proof.
  split; [reflexivity |].
  apply (C5_set_get_delete_roundtrip running_node "key1" value_a).
  reflexivity.
Defined.

(** A call through a pointer to a live node that leaves the node as it
    was returns and leaves the heap as it was. *)
Lemma call_unchanged {A} (f : node.Node -> node.Node * A)
    (h : gmap positive node.Node) p n a :
  h !! p = Some n -> f n = (n, a) -> call f p h = Returned (a, h).
Proof.
  intros Hp Hf. unfold call. rewrite Hp, Hf. cbn. by rewrite insert_id.
Qed.

(** C6: on a node that is not Running, [Get] returns [(nil, false)]
    for every key and [Set] and [Delete] return an error and leave the
    node as it was; the text of these errors, and of the error of every
    refused lifecycle call, contains the node's identity.  None of
    these calls panics: made through a pointer to a live node, each of
    them returns, with the heap of nodes unchanged. *)
Theorem C6_not_running_errors (n : node.Node) :
  (node.status n <> node.StatusRunning ->
     (forall k, node.Get n k = (node.nil_value, false)) /\
     (forall k v, exists msg,
        node.Set_ n k v = (n, Some msg) /\ contains msg (node.id n)) /\
     (forall k, exists msg,
        node.Delete n k = (n, Some msg) /\ contains msg (node.id n))) /\
  (forall e msg,
     snd (node.fire e n) = Some msg ->
     contains msg (node.id n) /\ fst (node.fire e n) = n) /\
  (forall (h : gmap positive node.Node) p,
     h !! p = Some n ->
     (node.status n <> node.StatusRunning ->
        (forall k, query (fun n => node.Get n k) p h
                   = Returned ((node.nil_value, false), h)) /\
        (forall k v, exists msg,
           call (fun n => node.Set_ n k v) p h = Returned (Some msg, h)) /\
        (forall k, exists msg,
           call (fun n => node.Delete n k) p h = Returned (Some msg, h))) /\
     (forall e msg,
        snd (node.fire e n) = Some msg ->
        call (node.fire e) p h = Returned (Some msg, h))).
Proof.
  assert (Hdata : node.status n <> node.StatusRunning ->
     (forall k, node.Get n k = (node.nil_value, false)) /\
     (forall k v, exists msg,
        node.Set_ n k v = (n, Some msg) /\ contains msg (node.id n)) /\
     (forall k, exists msg,
        node.Delete n k = (n, Some msg) /\ contains msg (node.id n))).
  { intros Hn. repeat split.
    - intros k. by apply Get_not_running.
    - intros k v. unfold node.Set_, node.errorf. case_decide; [| done].
      eexists. split; [reflexivity |]. by exists "node ", " is not running".
    - intros k. unfold node.Delete, node.errorf. case_decide; [| done].
      eexists. split; [reflexivity |]. by exists "node ", " is not running". }
  assert (Hfire : forall e msg,
     snd (node.fire e n) = Some msg ->
     contains msg (node.id n) /\ fst (node.fire e n) = n).
  { intros e msg H. split; [| by eapply fire_error_unchanged].
    destruct e; cbn [node.fire] in H;
      unfold node.Start, node.Stop, node.Suspend, node.Resume, node.errorf in H;
      case_decide; cbn in H; try discriminate;
      injection H as <-.
    - by exists "node ", " is already running".
    - by exists "node ", " is already stopped".
    - by exists "node ", " is not running".
    - by exists "node ", " is not suspended". }
  split; [exact Hdata |]. split; [exact Hfire |].
  intros h p Hp. split.
  - intros Hn. destruct (Hdata Hn) as (Hget & Hset & Hdel). repeat split.
    + intros k. unfold query. by rewrite Hp, Hget.
    + intros k v. destruct (Hset k v) as (msg & Heq & _).
      exists msg.
      exact (call_unchanged (fun n => node.Set_ n k v) h p n _ Hp Heq).
    + intros k. destruct (Hdel k) as (msg & Heq & _).
      exists msg.
      exact (call_unchanged (fun n => node.Delete n k) h p n _ Hp Heq).
  - intros e msg He. destruct (Hfire e msg He) as [_ Hsame].
    apply (call_unchanged (node.fire e) h p n); [done |].
    destruct (node.fire e n) as [n' err]. cbn in *. congruence.
Qed.

(** C8: no lifecycle call changes the store (nor the identity or the
    delay).  From Running, [Suspend] then [Resume] both return nil and
    give back the very same node; from Running or Suspended, [Stop] then
    [Start] both return nil, the node is Running and its store is the
    one it had, so [Get] finds every key with the value it had. *)
Theorem C8_lifecycle_preserves_store (n : node.Node) :
  (forall e,
     node.data (fst (node.fire e n)) = node.data n /\
     node.id (fst (node.fire e n)) = node.id n /\
     node.delay (fst (node.fire e n)) = node.delay n) /\
  (node.status n = node.StatusRunning ->
     exists n1 n2,
       node.Suspend n = (n1, None) /\ node.Resume n1 = (n2, None) /\
       n2 = n /\ forall k, node.Get n2 k = node.Get n k) /\
  (node.status n <> node.StatusStopped ->
     exists n1 n2,
       node.Stop n = (n1, None) /\ node.Start n1 = (n2, None) /\
       node.status n2 = node.StatusRunning /\
       node.data n2 = node.data n /\
       (forall k, node.Get n2 k =
                  match node.data n !! k with
                  | Some v => (v, true)
                  | None => (node.nil_value, false)
                  end) /\
       (node.status n = node.StatusRunning ->
        forall k, node.Get n2 k = node.Get n k)).
Proof.
  split; [| split].
  - intros e. destruct (fire_frame e n) as (? & ? & ?). done.
  - intros Hn. destruct n as [i s d m c]. cbn in Hn. subst s.
    do 2 eexists. repeat split.
  - intros Hn. destruct n as [i s d m c]. cbn in Hn.
    destruct s; [done | |]; do 2 eexists; repeat split.
    intros [=].
Qed.

(** C9: in every lifecycle state [Keys] lists exactly the keys present
    in the store, each once, and [Size] is their number; neither looks
    at the status, and neither can fail. *)
Theorem C9_keys_size_any_state (n : node.Node) :
  (forall k, k ∈ node.Keys n <-> is_Some (node.data n !! k)) /\
  NoDup (node.Keys n) /\
  node.Size n = Z.of_nat (length (node.Keys n)) /\
  (forall s, node.Keys (node.set_status s n) = node.Keys n /\
             node.Size (node.set_status s n) = node.Size n).
Proof.
  unfold node.Keys, node.Size. repeat split.
  - intros Hk. apply list_elem_of_fmap in Hk as [[k' v] [-> Hkv]].
    apply elem_of_map_to_list in Hkv. by eexists.
  - intros [v Hv]. apply list_elem_of_fmap. exists (k, v).
    split; [done |]. by apply elem_of_map_to_list.
  - apply NoDup_fst_map_to_list.
  - by rewrite length_fmap, length_map_to_list.
Qed.


(** ** Cluster *)

Section cluster_props.
Import cluster.

Lemma one_suspended_eval :
  one_suspended ∅ = Returned ((cluster_1, 1%positive), heap_1_suspended).
Proof. vm_compute. reflexivity. Qed.

Lemma registry_ok_1 : registry_ok cluster_1 heap_1_suspended.
Proof.
  intros i p Hi. unfold cluster_1 in Hi. cbn in Hi.
  apply lookup_singleton_Some in Hi as [<- <-].
  exists suspended_node. split; [| reflexivity].
  unfold heap_1_suspended. apply lookup_singleton_eq.
Qed.

(** The counting loop returns the number of listed nodes in status [s]
    (added to the initial count) and leaves the heap alone, provided
    every listed pointer is live. *)
Lemma count_status_spec s (h : gmap positive node.Node) ps : forall count,
  Forall (fun p => is_Some (h !! p)) ps ->
  count_status s ps count h =
    Returned (count + Z.of_nat (length
                (filter (fun p => node.status <$> h !! p = Some s) ps)), h).
Proof.
  induction ps as [|p ps IH]; intros count Hall.
  - cbn [count_status]. unfold mret, M_ret. rewrite filter_nil. cbn [length].
    do 2 f_equal. lia.
  - inversion Hall as [|? ? [n Hn] Hps]; subst.
    cbn [count_status]. unfold mbind, M_bind, query. rewrite Hn.
    rewrite IH by done. rewrite filter_cons. rewrite Hn. cbn [fmap option_fmap option_map].
    unfold node.Status_of.
    destruct (decide (node.status n = s)) as [Hs|Hs].
    + rewrite decide_True by (by rewrite Hs). cbn [length]. do 2 f_equal. lia.
    + rewrite decide_False by (intros [=]; done). done.
Qed.

(** Every live node is in exactly one of the three statuses. *)
Lemma status_partition (h : gmap positive node.Node) ps :
  Forall (fun p => is_Some (h !! p)) ps ->
  length ps =
    (length (filter (fun p => node.status <$> h !! p = Some node.StatusRunning) ps) +
     length (filter (fun p => node.status <$> h !! p = Some node.StatusStopped) ps) +
     length (filter (fun p => node.status <$> h !! p = Some node.StatusSuspended) ps))%nat.
Proof.
  induction 1 as [|p ps [n Hn] _ IH]; [done |].
  rewrite !filter_cons, Hn. cbn [fmap option_fmap option_map length].
  destruct (node.status n); repeat case_decide; try congruence; cbn [length]; lia.
Qed.

Lemma registry_ok_Nodes c h :
  registry_ok c h -> Forall (fun p => is_Some (h !! p)) (Nodes c).
Proof.
  intros Hok. apply Forall_forall. intros p Hp.
  apply list_elem_of_fmap in Hp as [[i p'] [-> Hip]].
  apply elem_of_map_to_list in Hip.
  destruct (Hok _ _ Hip) as (n & Hn & _). by exists n.
Qed.

Lemma snapshot_Nodes c : snapshot c (Nodes c).
Proof. unfold snapshot. done. Qed.

Lemma snapshot_length c ps :
  snapshot c ps -> Z.of_nat (length ps) = Size c.
Proof.
  unfold snapshot, Nodes, Size. intros ->.
  by rewrite length_fmap, length_map_to_list.
Qed.

Lemma registry_ok_snapshot c h ps :
  registry_ok c h -> snapshot c ps -> Forall (fun p => is_Some (h !! p)) ps.
Proof.
  intros Hok Hsnap. unfold snapshot in Hsnap. rewrite Hsnap.
  by apply registry_ok_Nodes.
Qed.

(** The counts do not depend on the order in which the loop meets the
    nodes. *)
Lemma count_status_snapshot c (h : gmap positive node.Node) s ps :
  registry_ok c h -> snapshot c ps ->
  count_status s ps 0 h = count_status s (Nodes c) 0 h.
Proof.
  intros Hok Hsnap.
  rewrite !count_status_spec
    by eauto using registry_ok_snapshot, registry_ok_Nodes.
  unfold snapshot in Hsnap. by rewrite Hsnap.
Qed.

End cluster_props.

(** C4 (as the code has it): every snapshot [Nodes()] has [Size()]
    elements; [RunningCount()] and [StoppedCount()] return the numbers
    of Running and of Stopped nodes, in whatever order the loop meets
    them, and change nothing; and [Size()] is their sum plus the number
    of nodes of the snapshot whose status is Suspended, for which the
    cluster has no counting operation. *)
Theorem C4_size_is_sum_of_status_counts
    (c : cluster.Cluster) (h : gmap positive node.Node)
    (Hok : cluster.registry_ok c h) :
  (forall ps, cluster.snapshot c ps -> Z.of_nat (length ps) = cluster.Size c) /\
  (forall s ps, cluster.snapshot c ps ->
     cluster.count_status s ps 0 h = cluster.count_status s (cluster.Nodes c) 0 h) /\
  exists running stopped : Z,
    cluster.RunningCount c h = Returned (running, h) /\
    cluster.StoppedCount c h = Returned (stopped, h) /\
    running = Z.of_nat (length (cluster.with_status node.StatusRunning c h)) /\
    stopped = Z.of_nat (length (cluster.with_status node.StatusStopped c h)) /\
    cluster.Size c =
      running + stopped +
      Z.of_nat (length (cluster.with_status node.StatusSuspended c h)).
Proof.
  pose proof (registry_ok_Nodes c h Hok) as Hall.
  pose proof (snapshot_length c _ (snapshot_Nodes c)) as Hlen.
  split; [apply snapshot_length |].
  split; [intros s ps Hps; by apply count_status_snapshot |].
  unfold cluster.RunningCount, cluster.StoppedCount.
  rewrite !count_status_spec by done.
  do 2 eexists. split; [reflexivity |]. split; [reflexivity |].
  unfold cluster.with_status. split; [lia |]. split; [lia |].
  rewrite <- Hlen. rewrite (status_partition h _ Hall). lia.
Qed.

Lemma C4_witness :
  cluster.registry_ok cluster_1 heap_1_suspended /\
  (forall ps, cluster.snapshot cluster_1 ps ->
     Z.of_nat (length ps) = cluster.Size cluster_1) /\
  (forall s ps, cluster.snapshot cluster_1 ps ->
     cluster.count_status s ps 0 heap_1_suspended
     = cluster.count_status s (cluster.Nodes cluster_1) 0 heap_1_suspended) /\
  exists running stopped : Z,
    cluster.RunningCount cluster_1 heap_1_suspended
      = Returned (running, heap_1_suspended) /\
    cluster.StoppedCount cluster_1 heap_1_suspended
      = Returned (stopped, heap_1_suspended) /\
    running = Z.of_nat (length
      (cluster.with_status node.StatusRunning cluster_1 heap_1_suspended)) /\
    stopped = Z.of_nat (length
      (cluster.with_status node.StatusStopped cluster_1 heap_1_suspended)) /\
    cluster.Size cluster_1 =
      running + stopped +
      Z.of_nat (length
        (cluster.with_status node.StatusSuspended cluster_1 heap_1_suspended)).
Proof.
  split; [exact registry_ok_1 |].
  exact (C4_size_is_sum_of_status_counts cluster_1 heap_1_suspended registry_ok_1).
Defined.

(** C4, the claim as stated fails: the cluster has two per-status
    counting operations, [RunningCount] and [StoppedCount], and no
    third one.  With one Suspended node registered, [Nodes()] has one
    element and [Size()] is 1 while both counts are 0: the node is
    counted by neither. *)
Lemma C4_suspended_node_is_not_counted :
  one_suspended ∅ = Returned ((cluster_1, 1%positive), heap_1_suspended) /\
  length (cluster.Nodes cluster_1) = 1%nat /\
  cluster.Size cluster_1 = 1 /\
  cluster.RunningCount cluster_1 heap_1_suspended = Returned (0, heap_1_suspended) /\
  cluster.StoppedCount cluster_1 heap_1_suspended = Returned (0, heap_1_suspended).
Proof. repeat split; vm_compute; reflexivity. Qed.

(** C10: [RemoveNode] of a registered node returns nil and deletes the
    entry, leaving the other entries alone.  [Stop] is called exactly
    when the node is Running; for any other status no node object
    changes, so a Suspended node is still Suspended afterwards. *)
Theorem C10_remove_suspended_keeps_status
    (c : cluster.Cluster) (h : gmap positive node.Node)
    (nodeID : string) (p : positive) (n : node.Node)
    (Hreg : cluster.nodes c !! nodeID = Some p)
    (Hlive : h !! p = Some n) :
  exists c' h',
    cluster.RemoveNode c nodeID h = Returned ((c', None), h') /\
    cluster.GetNode c' nodeID = None /\
    (forall j, j <> nodeID -> cluster.GetNode c' j = cluster.GetNode c j) /\
    (node.status n = node.StatusRunning -> h' = <[p := fst (node.Stop n)]> h) /\
    (node.status n <> node.StatusRunning -> h' = h) /\
    (node.status n = node.StatusSuspended ->
       node.status <$> h' !! p = Some node.StatusSuspended).
Proof.
  unfold cluster.RemoveNode. rewrite Hreg.
  unfold mbind, M_bind, query, call, mret, M_ret. rewrite Hlive.
  unfold node.Status_of.
  destruct (decide (node.status n = node.StatusRunning)) as [Hs|Hs].
  - rewrite Hlive. do 2 eexists. split; [reflexivity |].
    unfold cluster.GetNode. cbn [cluster.nodes].
    split; [apply lookup_delete_eq |].
    split; [intros j Hj; by apply lookup_delete_ne |].
    repeat split; try done. intros Hsus. congruence.
  - do 2 eexists. split; [reflexivity |].
    unfold cluster.GetNode. cbn [cluster.nodes].
    split; [apply lookup_delete_eq |].
    split; [intros j Hj; by apply lookup_delete_ne |].
    repeat split; try done. intros Hsus. by rewrite Hlive, <- Hsus.
Qed.

Lemma C10_witness :
  cluster.nodes cluster_1 !! "node-1" = Some 1%positive /\
  heap_1_suspended !! 1%positive = Some suspended_node /\
  exists c' h',
    cluster.RemoveNode cluster_1 "node-1" heap_1_suspended = Returned ((c', None), h') /\
    cluster.GetNode c' "node-1" = None /\
    (forall j, j <> "node-1" -> cluster.GetNode c' j = cluster.GetNode cluster_1 j) /\
    (node.status suspended_node = node.StatusRunning ->
       h' = <[1%positive := fst (node.Stop suspended_node)]> heap_1_suspended) /\
    (node.status suspended_node <> node.StatusRunning -> h' = heap_1_suspended) /\
    (node.status suspended_node = node.StatusSuspended ->
       node.status <$> h' !! 1%positive = Some node.StatusSuspended).
Proof.
  split; [reflexivity |]. split; [reflexivity |].
  apply (C10_remove_suspended_keeps_status
           cluster_1 heap_1_suspended "node-1" 1%positive suspended_node);
    reflexivity.
Defined.

(** ** Metrics: the P99 reservoir *)

Section metrics_props.
Import metrics.

(** For every length the reservoir can have, the floating-point index
    is the integer part of 99 N / 100 (checked for each N up to 1000). *)
Lemma p99_index_table :
  forallb (fun n => p99_index (Z.of_nat n) =? 99 * Z.of_nat n / 100)
          (seq 0 1001) = true.
Proof. vm_compute. reflexivity. Qed.

Lemma p99_index_exact (N : Z) :
  0 <= N <= 1000 -> p99_index N = 99 * N / 100.
Proof.
  intros HN. pose proof p99_index_table as Ht.
  rewrite forallb_forall in Ht.
  specialize (Ht (Z.to_nat N)). rewrite Z2Nat.id in Ht by lia.
  apply Z.eqb_eq, Ht. apply in_seq. lia.
Qed.

Lemma run_snoc ops o m : run (ops ++ [o]) m = step (run ops m) o.
Proof. unfold run. by rewrite fold_left_app. Qed.

Lemma success_latencies_snoc ops o :
  success_latencies (ops ++ [o]) =
    match o with
    | OpRecordSuccess l => success_latencies ops ++ [l]
    | OpRecordFailure _ => success_latencies ops
    | OpReset _ => []
    end.
Proof. unfold success_latencies. by rewrite fold_left_app. Qed.

Lemma maxLatencySamples_run ops t0 :
  maxLatencySamples (run ops (New t0)) = 1000.
Proof.
  induction ops as [|o ops IH] using rev_ind; [done |].
  rewrite run_snoc. by destruct o.
Qed.

Lemma take_snoc_cap {A} (n : nat) (l : list A) (x : A) :
  take n (l ++ [x]) =
    if decide (length (take n l) < n)%nat then take n l ++ [x] else take n l.
Proof.
  rewrite length_take. case_decide as Hlt.
  - rewrite !take_ge; [done | lia | rewrite length_app; cbn; lia].
  - rewrite take_app_le by lia. done.
Qed.

(** The reservoir holds the first 1000 success latencies recorded since
    the last [Reset]. *)
Lemma latencies_run ops t0 :
  latencies (run ops (New t0)) = take 1000 (success_latencies ops).
Proof.
  induction ops as [|o ops IH] using rev_ind; [done |].
  rewrite run_snoc, success_latencies_snoc.
  destruct o as [l|l|now]; cbn [step RecordSuccess RecordFailure Reset latencies].
  - rewrite maxLatencySamples_run, IH, take_snoc_cap.
    repeat case_decide; try done; lia.
  - exact IH.
  - done.
Qed.

Lemma latencies_run_length ops t0 :
  (length (latencies (run ops (New t0))) <= 1000)%nat.
Proof. rewrite latencies_run, length_take. lia. Qed.

Lemma sort_ascending_unique (l sorted : list Duration) :
  Sorted Z.le sorted -> sorted ≡ₚ l -> sort_ascending l = sorted.
Proof.
  intros Hs Hp. apply (Sorted_unique Z.le).
  - apply Sorted_merge_sort. apply _.
  - exact Hs.
  - unfold sort_ascending. by rewrite merge_sort_Permutation, Hp.
Qed.

(** [P99Latency] on a reservoir of at most 1000 samples. *)
Lemma P99Latency_spec m (sorted : list Duration) :
  latencies m <> [] ->
  (length (latencies m) <= 1000)%nat ->
  Sorted Z.le sorted -> sorted ≡ₚ latencies m ->
  exists d,
    sorted !! Z.to_nat (Z.min (99 * Z.of_nat (length (latencies m)) / 100)
                              (Z.of_nat (length (latencies m)) - 1)) = Some d /\
    P99Latency m = Returned d.
Proof.
  intros Hne Hlen Hs Hp.
  assert (Hl : length sorted = length (latencies m)) by (by rewrite Hp).
  assert (Hpos : (0 < length (latencies m))%nat).
  { destruct (latencies m); [done | cbn; lia]. }
  unfold P99Latency. rewrite decide_False by lia. cbv zeta.
  rewrite (sort_ascending_unique _ sorted Hs Hp).
  rewrite Hl.
  rewrite p99_index_exact by lia.
  assert (HN : 1 <= Z.of_nat (length (latencies m)) <= 1000) by lia.
  remember (Z.of_nat (length (latencies m))) as N eqn:HNdef.
  assert (Hidx : 99 * N / 100 < N).
  { apply Z.div_lt_upper_bound; lia. }
  assert (Hidx0 : 0 <= 99 * N / 100) by (apply Z.div_pos; lia).
  rewrite (decide_False (P := 99 * N / 100 >= N)) by lia.
  rewrite decide_False by lia.
  rewrite Z.min_l by lia.
  destruct (lookup_lt_is_Some_2 sorted (Z.to_nat (99 * N / 100))) as [d Hd];
    [lia |].
  exists d. by rewrite Hd.
Qed.

End metrics_props.

(** C7: after any history of calls on a fresh [Metrics], the reservoir
    holds the first 1000 latencies passed to [RecordSuccess] since the
    last [Reset], in order: [RecordSuccess] appends its sample while
    fewer than 1000 are held and drops it afterwards, [RecordFailure]
    never changes the reservoir.  [P99Latency] returns 0 on an empty
    reservoir and otherwise the element at index min(⌊0.99 N⌋, N − 1)
    of the ascending arrangement of the N samples; being a query, it
    leaves the reservoir as it is. *)
Theorem C7_p99_reservoir (t0 : Time) (ops : list metrics.Op) :
  let m := metrics.run ops (metrics.New t0) in
  let N := Z.of_nat (length (metrics.latencies m)) in
  metrics.latencies m = take 1000 (metrics.success_latencies ops) /\
  (forall l,
     metrics.latencies (metrics.RecordSuccess l m) =
       if decide (N < 1000) then metrics.latencies m ++ [l]
       else metrics.latencies m) /\
  (forall l, metrics.latencies (metrics.RecordFailure l m) = metrics.latencies m) /\
  (metrics.latencies m = [] -> metrics.P99Latency m = Returned 0) /\
  (metrics.latencies m <> [] ->
   forall sorted : list Duration,
     Sorted Z.le sorted -> sorted ≡ₚ metrics.latencies m ->
     exists d,
       sorted !! Z.to_nat (Z.min (99 * N / 100) (N - 1)) = Some d /\
       metrics.P99Latency m = Returned d).
Proof.
  intros m N. unfold m, N. repeat split.
  - apply latencies_run.
  - intros l. cbn [metrics.RecordSuccess metrics.latencies].
    rewrite maxLatencySamples_run. done.
  - intros Hnil. unfold metrics.P99Latency. rewrite Hnil. done.
  - intros Hne sorted Hs Hp.
    apply P99Latency_spec; [done | apply latencies_run_length | done | done].
Qed.

(** ** Recovery supervisor: the counters *)

Section recovery_props.
Import recovery.

Lemma size_filter_insert (M : gmap string NodeState) (i : string) (x : NodeState) :
  Z.of_nat (size (filter (fun kv : string * NodeState => RetryCount (snd kv) > 0)
                         (<[i := x]> M))) =
  Z.of_nat (size (filter (fun kv : string * NodeState => RetryCount (snd kv) > 0) M))
  - match M !! i with Some y => pending y | None => 0 end
  + pending x.
Proof.
  set (P := fun kv : string * NodeState => RetryCount (snd kv) > 0).
  unfold pending. rewrite map_filter_insert.
  destruct (decide (P (i, x))) as [Hx|Hx]; cbn [snd] in Hx.
  - rewrite map_size_insert. rewrite (decide_True (P := RetryCount x > 0)) by done.
    destruct (M !! i) as [y|] eqn:Hi.
    + destruct (decide (RetryCount y > 0)) as [Hy|Hy].
      * rewrite (map_lookup_filter_Some_2 P M i y) by done. cbn. lia.
      * rewrite (proj2 (map_lookup_filter_None P M i)); [cbn; lia |].
        right. intros y' Hy'. rewrite Hi in Hy'. by injection Hy' as <-.
    + rewrite (proj2 (map_lookup_filter_None P M i)) by (by left).
      cbn. lia.
  - rewrite map_filter_delete, map_size_delete.
    rewrite (decide_False (P := RetryCount x > 0)) by done.
    destruct (M !! i) as [y|] eqn:Hi.
    + destruct (decide (RetryCount y > 0)) as [Hy|Hy].
      * rewrite (map_lookup_filter_Some_2 P M i y) by done.
        assert (size (filter P M) <> 0%nat).
        { intros H0. apply map_size_empty_inv in H0.
          pose proof (map_lookup_filter_Some_2 P M i y Hi Hy) as Hl.
          rewrite H0 in Hl. by rewrite lookup_empty in Hl. }
        cbn. lia.
      * rewrite (proj2 (map_lookup_filter_None P M i)); [cbn; lia |].
        right. intros y' Hy'. rewrite Hi in Hy'. by injection Hy' as <-.
    + rewrite (proj2 (map_lookup_filter_None P M i)) by (by left).
      cbn. lia.
Qed.

Lemma u64_inc_small x : 0 <= x < u64_mod - 1 -> u64_inc x = x + 1.
Proof. intros Hx. unfold u64_inc. apply Z.mod_small. lia. Qed.

Lemma handleRunningNode_accounted n state now m :
  IsRecovered state = false ->
  0 <= SuccessRecoveries (stats m) ->
  SuccessRecoveries (stats m) + pending state
    <= TotalRecoveries (stats m) < u64_mod ->
  accounted state (snd (fst (handleRunningNode n state now m))) m
            (snd (handleRunningNode n state now m)).
Proof.
  intros Hrec HS HT. unfold handleRunningNode, accounted, pending in *.
  rewrite Hrec. cbn [negb andb].
  destruct (bool_decide_reflect (RetryCount state > 0)) as [Hr|Hr]; cbn.
  - rewrite (decide_True (P := RetryCount state > 0)) in * by done.
    rewrite u64_inc_small by lia.
    rewrite (decide_False (P := 0 > 0)) by lia. repeat split; lia.
  - rewrite (decide_False (P := RetryCount state > 0)) in * by done.
    rewrite (decide_False (P := 0 > 0)) by lia. repeat split; lia.
Qed.

Lemma handleStoppedNode_accounted n state now m :
  node.status n = node.StatusStopped ->
  IsRecovered state = false ->
  0 <= TotalRecoveries (stats m) < u64_mod - 1 ->
  accounted state (snd (fst (handleStoppedNode n state now m))) m
            (snd (handleStoppedNode n state now m)).
Proof.
  intros Hst Hrec HT. unfold handleStoppedNode, accounted.
  destruct (negb (AutoRestart (config m))); [cbn; repeat split; try done; lia |].
  destruct (IsZero (FailedAt state)); [cbn; repeat split; try done; lia |].
  case_bool_decide; [cbn; repeat split; try done; lia |].
  destruct (_ && _); [cbn; repeat split; try done; lia |].
  cbv zeta. unfold node.Start. rewrite decide_False by (by rewrite Hst).
  cbn. rewrite u64_inc_small by lia. unfold pending. cbn [RetryCount].
  repeat split; try done; try lia. repeat case_decide; lia.
Qed.

Lemma handleSuspendedNode_off n state now m :
  AutoResume (config m) = false ->
  handleSuspendedNode n state now m = (n, state, m).
Proof. intros H. unfold handleSuspendedNode. by rewrite H. Qed.

(** One node check keeps the accounts, as long as [AutoResume] is off
    and [TotalRecoveries] is below the largest [uint64]. *)
Lemma checkNode_settled_up p now m h m' h' :
  AutoResume (config m) = false ->
  settled_up m ->
  TotalRecoveries (stats m) < u64_mod - 1 ->
  checkNode p now m h = Returned (m', h') ->
  settled_up m' /\ config m' = config m /\
  TotalRecoveries (stats m) <= TotalRecoveries (stats m')
    <= TotalRecoveries (stats m) + 1.
Proof.
  intros Hoff (HS & HF & Hacc & Hrec) HT Hcheck.
  unfold checkNode in Hcheck.
  destruct (h !! p) as [n|] eqn:Hn; [| discriminate].
  cbv zeta in Hcheck.
  set (state := match nodeStates m !! node.ID n with
                | Some st => st
                | None => mkNodeState now Time_zero 0 false
                end) in *.
  assert (Hstate_rec : IsRecovered state = false).
  { unfold state. destruct (nodeStates m !! node.ID n) as [st|] eqn:Hst; [| done].
    exact (Hrec _ _ Hst). }
  assert (Hstate_pos :
    pending state =
    match nodeStates m !! node.ID n with
    | Some y => pending y | None => 0 end).
  { unfold state. by destruct (nodeStates m !! node.ID n). }
  assert (Hun : pending state <= unsettled m).
  { unfold state, unsettled, pending.
    destruct (nodeStates m !! node.ID n) as [st|] eqn:Hst.
    - case_decide as Hr; [| lia].
      assert (size (filter (fun kv : string * NodeState => RetryCount (snd kv) > 0)
                           (nodeStates m)) <> 0%nat); [| lia].
      intros H0. apply map_size_empty_inv in H0.
      pose proof (map_lookup_filter_Some_2
                    (fun kv : string * NodeState => RetryCount (snd kv) > 0)
                    (nodeStates m) _ st Hst Hr) as Hl.
      rewrite H0 in Hl. by rewrite lookup_empty in Hl.
    - cbn. rewrite (decide_False (P := 0 > 0)) by lia. lia. }
  assert (Hun0 : 0 <= unsettled m) by (unfold unsettled; lia).
  assert (Hpos0 : 0 <= pending state)
    by (unfold pending; case_decide; lia).
  assert (Hhandled : exists n1 state1 m1,
    match node.Status_of n with
    | node.StatusStopped => handleStoppedNode n state now m
    | node.StatusRunning => handleRunningNode n state now m
    | node.StatusSuspended => handleSuspendedNode n state now m
    end = (n1, state1, m1) /\ accounted state state1 m m1).
  { unfold node.Status_of. destruct (node.status n) eqn:Hstatus.
    - pose proof (handleStoppedNode_accounted n state now m Hstatus Hstate_rec) as H.
      destruct (handleStoppedNode n state now m) as [[n1 state1] m1].
      exists n1, state1, m1. split; [done |]. apply H. lia.
    - pose proof (handleRunningNode_accounted n state now m Hstate_rec HS) as H.
      destruct (handleRunningNode n state now m) as [[n1 state1] m1].
      exists n1, state1, m1. split; [done |]. apply H. lia.
    - rewrite handleSuspendedNode_off by done.
      exists n, state, m. split; [done |].
      unfold accounted. repeat split; try done; lia. }
  destruct Hhandled as (n1 & state1 & m1 & Heq & Hacc1).
  rewrite Heq in Hcheck. injection Hcheck as <- <-.
  destruct Hacc1 as (Hcfg & Hmap & Hrec1 & HS1 & HF1 & HT1 & Hbal).
  split; [| split; [exact Hcfg | exact HT1]].
  unfold settled_up, unsettled in *. cbn [stats nodeStates].
  rewrite Hmap, size_filter_insert. rewrite <- Hstate_pos.
  repeat split; try lia.
  apply map_Forall_insert_2; [exact Hrec1 | exact Hrec].
Qed.

Lemma checkNodes_settled_up now ps : forall m h m' h',
  AutoResume (config m) = false ->
  settled_up m ->
  TotalRecoveries (stats m) + Z.of_nat (length ps) < u64_mod ->
  checkNodes ps now m h = Returned (m', h') ->
  settled_up m' /\ config m' = config m /\
  TotalRecoveries (stats m) <= TotalRecoveries (stats m')
    <= TotalRecoveries (stats m) + Z.of_nat (length ps).
Proof.
  induction ps as [|p ps IH]; intros m h m' h' Hoff Hm HT Hrun.
  - injection Hrun as <- <-.
    split; [exact Hm |]. split; [done |]. cbn. lia.
  - cbn [checkNodes] in Hrun. unfold mbind, M_bind in Hrun.
    destruct (checkNode p now m h) as [[m1 h1]|] eqn:Hcheck; [| discriminate].
    cbn [length] in HT.
    destruct (checkNode_settled_up _ _ _ _ _ _ Hoff Hm ltac:(lia) Hcheck)
      as (Hm1 & Hcfg1 & HT1).
    destruct (IH m1 h1 m' h' ltac:(by rewrite Hcfg1) Hm1 ltac:(lia) Hrun)
      as (Hm' & Hcfg' & HT').
    split; [exact Hm' |]. split; [by rewrite Hcfg' |]. cbn [length]. lia.
Qed.

Lemma settled_up_New cfg : settled_up (New cfg).
Proof.
  unfold settled_up, unsettled. cbn.
  rewrite map_filter_empty, map_size_empty.
  repeat split; try lia. apply map_Forall_empty.
Qed.

Lemma after_ticks_settled_up cfg k m :
  after_ticks cfg k m -> k < u64_mod -> AutoResume cfg = false ->
  settled_up m /\ config m = cfg /\ 0 <= k /\
  0 <= TotalRecoveries (stats m) <= k.
Proof.
  induction 1 as [|k m bus Hm IH|k m c nodes h now m' h' Hm IH Hsnap Htick];
    intros Hk Hoff.
  - split; [apply settled_up_New |]. cbn. repeat split; lia.
  - destruct (IH Hk Hoff) as (Hs & Hcfg & Hk0 & HT).
    split; [exact Hs |]. split; [exact Hcfg |]. cbn. lia.
  - assert (Hsize : 0 <= cluster.Size c) by (unfold cluster.Size; lia).
    destruct (IH ltac:(lia) Hoff) as (Hs & Hcfg & Hk0 & HT).
    unfold checkAndRecover in Htick.
    pose proof (snapshot_length c nodes Hsnap) as Hlen.
    destruct (checkNodes_settled_up now nodes m h m' h'
                ltac:(by rewrite Hcfg) Hs ltac:(lia) Htick)
      as (Hs' & Hcfg' & HT').
    split; [exact Hs' |]. split; [by rewrite Hcfg' |]. lia.
Qed.

End recovery_props.

Lemma restart_ticks_eval :
  supervisor_ticks cluster_1 [at_1s; at_4s] (recovery.New restart_only) heap_1_stopped
  = Returned (restart_done, {[ 1%positive := running_node ]}).
Proof. vm_compute. reflexivity. Qed.

Lemma cluster_1_size : cluster.Size cluster_1 = 1.
Proof. vm_compute. reflexivity. Qed.

Lemma restart_tick_1 :
  recovery.checkAndRecover (cluster.Nodes cluster_1) at_1s
    (recovery.New restart_only) heap_1_stopped
  = Returned (restart_detected, heap_1_stopped).
Proof. vm_compute. reflexivity. Qed.

Lemma restart_tick_2 :
  recovery.checkAndRecover (cluster.Nodes cluster_1) at_4s
    restart_detected heap_1_stopped
  = Returned (restart_done, {[ 1%positive := running_node ]}).
Proof. vm_compute. reflexivity. Qed.

Lemma after_restart_ticks : recovery.after_ticks restart_only 2 restart_done.
Proof.
  pose proof (recovery.ticks_tick restart_only _ _ cluster_1 _ _ _ _ _
                (recovery.ticks_tick restart_only _ _ cluster_1 _ _ _ _ _
                   (recovery.ticks_new restart_only)
                   (snapshot_Nodes cluster_1) restart_tick_1)
                (snapshot_Nodes cluster_1) restart_tick_2) as H.
  rewrite cluster_1_size in H. exact H.
Qed.

(** C2 (as the code has it, for the restart path): after any sequence
    of health-check ticks of a supervisor whose [AutoResume] is off,
    with anything happening to the nodes between the ticks and fewer
    than 2^64 node checks in all, TotalRecoveries is at least
    SuccessRecoveries + FailedRecoveries plus the number of tracked
    nodes whose restart is not yet settled.  Equality with
    SuccessRecoveries + FailedRecoveries is not promised between ticks:
    a restart is counted as a success only by a later tick that sees
    the node Running. *)
Theorem C2_total_covers_success_and_failed
    (cfg : recovery.Config) (k : Z) (m : recovery.Manager)
    (Hticks : recovery.after_ticks cfg k m)
    (Hk : k < 2 ^ 64)
    (Hoff : recovery.AutoResume cfg = false) :
  let s := recovery.Stats_of m in
  0 <= recovery.unsettled m /\
  recovery.SuccessRecoveries s + recovery.FailedRecoveries s + recovery.unsettled m
    <= recovery.TotalRecoveries s /\
  recovery.SuccessRecoveries s + recovery.FailedRecoveries s
    <= recovery.TotalRecoveries s < 2 ^ 64.
Proof.
  destruct (after_ticks_settled_up cfg k m Hticks Hk Hoff)
    as ((HS & HF & Hacc & _) & _ & _ & HT).
  assert (0 <= recovery.unsettled m) by (unfold recovery.unsettled; lia).
  cbv zeta. unfold recovery.Stats_of. lia.
Qed.

Lemma C2_witness :
  let m := restart_done in
  let s := recovery.Stats_of m in
  recovery.after_ticks restart_only 2 m /\
  2 < 2 ^ 64 /\
  recovery.AutoResume restart_only = false /\
  0 <= recovery.unsettled m /\
  recovery.SuccessRecoveries s + recovery.FailedRecoveries s + recovery.unsettled m
    <= recovery.TotalRecoveries s /\
  recovery.SuccessRecoveries s + recovery.FailedRecoveries s
    <= recovery.TotalRecoveries s < 2 ^ 64.
Proof.
  split; [exact after_restart_ticks |].
  split; [reflexivity |].
  split; [reflexivity |].
  exact (C2_total_covers_success_and_failed restart_only 2 _
           after_restart_ticks eq_refl eq_refl).
Defined.

(** C2, the claim as stated fails, in both of its parts.  With the
    default configuration and one node, ticks one, four and five
    seconds after the start, and nobody else touching the node:
    - the node is Stopped: after the second tick, which restarts it,
      the counters are Total = 1, Success = 0, Failed = 0, so equality
      does not hold between that tick and the next;
    - the node is Suspended: the second tick resumes it and counts the
      success, the third sees it Running with a positive retry count
      and counts a success again: Total = 1, Success = 2, Failed = 0. *)
Lemma C2_counters_after_restart_and_resume :
  stats_after (supervisor_ticks cluster_1 [at_1s; at_4s]
                 (recovery.New recovery.DefaultConfig) heap_1_stopped)
    = Some (recovery.mkStats 1 0 0 0) /\
  stats_after (supervisor_ticks cluster_1 [at_1s; at_4s; at_5s]
                 (recovery.New recovery.DefaultConfig) heap_1_suspended)
    = Some (recovery.mkStats 1 2 0 0).
Proof. split; vm_compute; reflexivity. Qed.

(** ** Chaos injector: the counters *)

Section map_sum_props.
Context `{Countable K}.
Implicit Types m : gmap K Z.

Lemma map_sum_empty : map_sum (∅ : gmap K Z) = 0.
Proof. unfold map_sum. apply map_fold_empty. Qed.

Lemma map_sum_insert_fresh m i x :
  m !! i = None -> map_sum (<[i := x]> m) = x + map_sum m.
Proof.
  intros Hi. unfold map_sum.
  rewrite map_fold_insert_L; [done | intros; lia | done].
Qed.

Lemma map_sum_delete m i v :
  m !! i = Some v -> v + map_sum (delete i m) = map_sum m.
Proof.
  intros Hi.
  rewrite <- (map_sum_insert_fresh (delete i m) i v) by apply lookup_delete_eq.
  by rewrite insert_delete_eq, insert_id.
Qed.

Lemma map_sum_insert m i x :
  map_sum (<[i := x]> m) = map_sum m - default 0 (m !! i) + x.
Proof.
  destruct (m !! i) as [v|] eqn:Hi; cbn.
  - pose proof (map_sum_delete m i v Hi) as Hm.
    rewrite <- (insert_delete_eq m i x).
    rewrite map_sum_insert_fresh by apply lookup_delete_eq. lia.
  - rewrite map_sum_insert_fresh by done. lia.
Qed.

Lemma map_sum_nonneg m :
  map_Forall (fun _ v => 0 <= v) m -> 0 <= map_sum m.
Proof.
  induction m as [|i x m Hi IH] using map_ind; intros Hall.
  - by rewrite map_sum_empty.
  - rewrite map_sum_insert_fresh by done.
    apply map_Forall_insert in Hall as [Hx Hm]; [| done].
    specialize (IH Hm). lia.
Qed.

Lemma map_sum_lookup_le m i :
  map_Forall (fun _ v => 0 <= v) m -> 0 <= default 0 (m !! i) <= map_sum m.
Proof.
  intros Hall. destruct (m !! i) as [v|] eqn:Hi; cbn.
  - pose proof (Hall _ _ Hi) as Hv. cbn in Hv.
    pose proof (map_sum_delete m i v Hi) as Hm.
    pose proof (map_sum_nonneg (delete i m) (map_Forall_delete _ _ _ Hall)). lia.
  - pose proof (map_sum_nonneg m Hall). lia.
Qed.

End map_sum_props.

Section chaos_props.
Import chaos.

Lemma AttackType_String_inj t1 t2 :
  AttackType_String t1 = AttackType_String t2 -> t1 = t2.
Proof. destruct t1, t2; cbn; intros Heq; first [done | discriminate Heq]. Qed.

(** [Stats] renames the keys of the per-type counters and keeps their
    values, so the sum is the same. *)
Lemma rename_keys_sum (counters : gmap AttackType Z) :
  (forall t,
     map_fold (fun t count (byType : gmap string Z) =>
                 <[AttackType_String t := count]> byType) ∅ counters
       !! AttackType_String t = counters !! t) /\
  map_sum (map_fold (fun t count (byType : gmap string Z) =>
                       <[AttackType_String t := count]> byType) ∅ counters)
    = map_sum counters.
Proof.
  apply (map_fold_weak_ind
    (fun (r : gmap string Z) (c : gmap AttackType Z) =>
       (forall t, r !! AttackType_String t = c !! t) /\ map_sum r = map_sum c)).
  - split; [intros t; by rewrite !lookup_empty | by rewrite !map_sum_empty].
  - intros i x c r Hi [Hlook Hsum]. split.
    + intros t. destruct (decide (t = i)) as [->|Hne].
      * by rewrite !lookup_insert_eq.
      * rewrite !lookup_insert_ne; [apply Hlook | done |].
        intros Heq. apply AttackType_String_inj in Heq. congruence.
    + rewrite !map_sum_insert_fresh; [lia | done |].
      by rewrite Hlook.
Qed.

Lemma Stats_of_sum m : sum_ByType (Stats_of m) = map_sum (attackByType m).
Proof. apply rename_keys_sum. Qed.

(** *** The shuffle keeps the elements it is given *)

Lemma swap_length {A} i j (l : list A) : length (swap i j l) = length l.
Proof.
  unfold swap. destruct (l !! i), (l !! j); try done.
  by rewrite !length_insert.
Qed.

Lemma swap_elem_of {A} i j (l : list A) x : x ∈ swap i j l -> x ∈ l.
Proof.
  unfold swap. destruct (l !! i) as [a|] eqn:Hi; [| done].
  destruct (l !! j) as [b|] eqn:Hj; [| done].
  intros Hx. apply list_elem_of_lookup in Hx as [k Hk].
  apply list_lookup_insert_Some in Hk as [(_ & <- & _)|[_ Hk]].
  { by eapply list_elem_of_lookup_2. }
  apply list_lookup_insert_Some in Hk as [(_ & <- & _)|[_ Hk]].
  { by eapply list_elem_of_lookup_2. }
  by eapply list_elem_of_lookup_2.
Qed.

Lemma shuffle_from_length {A} i : forall draws (l : list A),
  length (shuffle_from i draws l) = length l.
Proof.
  induction i as [|i IH]; intros draws l; [done |].
  cbn [shuffle_from]. by rewrite IH, swap_length.
Qed.

Lemma shuffle_from_elem_of {A} i : forall draws (l : list A) x,
  x ∈ shuffle_from i draws l -> x ∈ l.
Proof.
  induction i as [|i IH]; intros draws l x; [done |].
  cbn [shuffle_from]. intros Hx. apply IH in Hx. by eapply swap_elem_of.
Qed.

(** The shuffle returns a permutation of its input, whatever the draws. *)
Lemma insert_head_Permutation {A} (l : list A) : forall j y a,
  l !! j = Some y -> y :: <[j := a]> l ≡ₚ a :: l.
Proof.
  induction l as [|b l IH]; intros [|j] y a Hj; try done.
  - injection Hj as ->. cbn. apply perm_swap.
  - cbn in Hj. cbn. rewrite (perm_swap b y), (IH j y a Hj). apply perm_swap.
Qed.

Lemma swap_Permutation {A} (l : list A) : forall i j, swap i j l ≡ₚ l.
Proof.
  unfold swap. induction l as [|b l IH]; intros i j; [by destruct i, j |].
  destruct i as [|i], j as [|j]; cbn.
  - done.
  - destruct (l !! j) as [y|] eqn:Hj; [| done].
    by apply insert_head_Permutation.
  - destruct (l !! i) as [x|] eqn:Hi; [| done].
    by apply insert_head_Permutation.
  - specialize (IH i j).
    destruct (l !! i) as [x|]; [| done]. destruct (l !! j) as [y|]; [| done].
    by rewrite IH.
Qed.

Lemma Shuffle_Permutation {A} draws (l : list A) : Shuffle draws l ≡ₚ l.
Proof.
  unfold Shuffle. generalize (length l - 1)%nat as i. intros i. revert draws l.
  induction i as [|i IH]; intros draws l; [done |].
  cbn [shuffle_from]. by rewrite IH, swap_Permutation.
Qed.

(** *** Target selection *)

Lemma running_of_spec (h : gmap positive node.Node) ps :
  Forall (fun p => is_Some (h !! p)) ps ->
  exists running,
    running_of ps h = Returned (running, h) /\
    (length running <= length ps)%nat /\
    forall p, p ∈ running ->
      exists n, h !! p = Some n /\ node.status n = node.StatusRunning.
Proof.
  induction 1 as [|p ps [n Hn] _ (running & Hrun & Hlen & Hall)].
  - exists []. split; [done |]. split; [done |]. intros p Hp. by apply elem_of_nil in Hp.
  - cbn [running_of]. unfold mbind, M_bind, query. rewrite Hn, Hrun.
    unfold mret, M_ret, node.Status_of.
    destruct (decide (node.status n = node.StatusRunning)) as [Hs|Hs].
    + exists (p :: running). split; [done |]. split; [cbn; lia |].
      intros q Hq. apply elem_of_cons in Hq as [->|Hq]; [by exists n | by apply Hall].
    + exists running. split; [done |]. split; [cbn; lia |]. done.
Qed.

Lemma selectTargets_spec nodes d m (h : gmap positive node.Node) targets h' :
  Forall (fun p => is_Some (h !! p)) nodes ->
  selectTargets nodes d m h = Returned (targets, h') ->
  h' = h /\
  (length targets <= length nodes)%nat /\
  (TargetCount (config m) <= 1 -> (length targets <= 1)%nat) /\
  forall p, p ∈ targets ->
    exists n, h !! p = Some n /\ node.status n = node.StatusRunning.
Proof.
  intros Hok Hsel. unfold selectTargets in Hsel.
  assert (Hnil : forall p : positive, p ∈ @nil positive ->
            exists n, h !! p = Some n /\ node.status n = node.StatusRunning).
  { intros p Hp. by apply elem_of_nil in Hp. }
  case_decide as Hn.
  { injection Hsel as <- <-. repeat split; cbn; try done; lia. }
  destruct (running_of_spec h _ Hok) as (running & Hrun & Hlen & Hall).
  unfold mbind, M_bind in Hsel. rewrite Hrun in Hsel. cbv zeta in Hsel.
  case_decide as Hr.
  { injection Hsel as <- <-. repeat split; cbn; try done; lia. }
  case_decide as Hneg; [discriminate |].
  injection Hsel as <- <-.
  split; [done |].
  assert (Hshuf : length (Shuffle (shuffle_draws d) running) = length running)
    by apply shuffle_from_length.
  split; [rewrite length_take; lia |].
  split.
  - intros Hone. rewrite length_take. case_decide; lia.
  - intros p Hp. apply Hall.
    eapply shuffle_from_elem_of. eapply subseteq_take. exact Hp.
Qed.

(** *** Counting *)

Lemma count_attack_tally t m :
  counters_ok m -> tally m < u64_mod - 1 ->
  counters_ok (count_attack t m) /\
  tally (count_attack t m) = tally m + 1 /\
  attackCount (count_attack t m) = attackCount m /\
  config (count_attack t m) = config m.
Proof.
  intros Hok Hsmall. unfold tally, counters_ok, count_attack in *.
  cbn [attackByType attackCount config].
  pose proof (map_sum_lookup_le (attackByType m) t Hok) as Hv.
  rewrite map_sum_insert, u64_inc_small by lia.
  split; [| split; [lia | done]].
  apply map_Forall_insert_2; [lia | done].
Qed.

(** One attack on one target: the tally grows by at most one, and by
    exactly one when the target is Running (a delay always counts). *)
Lemma executeAttack_effect p t now m (h : gmap positive node.Node) m' h' :
  counters_ok m -> tally m < u64_mod - 1 ->
  executeAttack p t now m h = Returned (m', h') ->
  exists n,
    h !! p = Some n /\
    counters_ok m' /\
    attackCount m' = attackCount m /\
    config m' = config m /\
    tally m <= tally m' <= tally m + 1 /\
    (node.status n = node.StatusRunning -> tally m' = tally m + 1).
Proof.
  intros Hok Hsmall Hexec.
  destruct t; cbn [executeAttack] in Hexec;
    unfold attackKill, attackSuspend, attackDelay, mbind, M_bind, call, query,
      mret, M_ret in Hexec;
    destruct (h !! p) as [n|] eqn:Hn; try discriminate; exists n.
  - unfold node.Stop in Hexec.
    destruct (decide (node.status n = node.StatusStopped)) as [Hs|Hs];
      cbn in Hexec.
    + injection Hexec as <- <-. repeat split; try done; try lia. congruence.
    + rewrite lookup_insert_eq in Hexec. injection Hexec as <- <-.
      destruct (count_attack_tally AttackKill
                  (publishEvent (events.NewChaosAttackEvent (node.id n)
                                   events.AttackTypeKill) m) Hok Hsmall)
        as (H1 & H2 & H3 & H4).
      change (tally (publishEvent (events.NewChaosAttackEvent (node.id n)
                                     events.AttackTypeKill) m)) with (tally m) in H2.
      repeat split; try done; lia.
  - unfold node.Suspend in Hexec.
    destruct (decide (node.status n <> node.StatusRunning)) as [Hs|Hs];
      cbn in Hexec.
    + injection Hexec as <- <-. repeat split; try done; lia.
    + rewrite lookup_insert_eq in Hexec. injection Hexec as <- <-.
      set (m1 := mkMonkey (config m) (eventBus m) (attackCount m) (attackByType m)
                          (lastAttack m) (<[node.id n := now]> (suspendedIDs m))).
      destruct (count_attack_tally AttackSuspend m1 Hok Hsmall)
        as (H1 & H2 & H3 & H4).
      repeat split; try done; cbn in *;
        change (tally m1) with (tally m) in H2;
        unfold tally in *; cbn in *; lia.
  - cbn in Hexec. rewrite lookup_insert_eq in Hexec. injection Hexec as <- <-.
    destruct (count_attack_tally AttackDelay
                (publishEvent (events.NewChaosAttackEventWithDelay (node.id n)
                                 (DelayDuration (config m))) m) Hok Hsmall)
      as (H1 & H2 & H3 & H4).
    change (tally (publishEvent (events.NewChaosAttackEventWithDelay (node.id n)
                                   (DelayDuration (config m))) m))
      with (tally m) in H2.
    repeat split; try done; lia.
Qed.

Lemma executeAttacks_effect t now targets : forall m (h : gmap positive node.Node) m' h',
  counters_ok m -> tally m + Z.of_nat (length targets) < u64_mod ->
  executeAttacks targets t now m h = Returned (m', h') ->
  counters_ok m' /\
  attackCount m' = attackCount m /\
  config m' = config m /\
  tally m <= tally m' <= tally m + Z.of_nat (length targets).
Proof.
  induction targets as [|p targets IH]; intros m h m' h' Hok Hsmall Hexec.
  - injection Hexec as <- <-. cbn. repeat split; try done; lia.
  - cbn [executeAttacks] in Hexec. unfold mbind, M_bind in Hexec.
    destruct (executeAttack p t now m h) as [[m1 h1]|] eqn:Hone; [| discriminate].
    cbn [length] in Hsmall.
    destruct (executeAttack_effect _ _ _ _ _ _ _ Hok ltac:(lia) Hone)
      as (n & _ & Hok1 & Hc1 & Hcfg1 & Ht1 & _).
    destruct (IH m1 h1 m' h' Hok1 ltac:(lia) Hexec) as (Hok' & Hc' & Hcfg' & Ht').
    split; [done |]. split; [congruence |]. split; [congruence |].
    cbn [length]. lia.
Qed.

(** One tick: the tick counter grows by one exactly when at least one
    target was selected, and then the tally grows by at least one and at
    most the number of targets. *)
Lemma attack_counted nodes d now m (h : gmap positive node.Node) m' h' :
  Forall (fun p => is_Some (h !! p)) nodes ->
  counted m ->
  tally m + Z.of_nat (length nodes) < u64_mod ->
  attack nodes d now m h = Returned (m', h') ->
  counted m' /\
  config m' = config m /\
  tally m' <= tally m + Z.of_nat (length nodes) /\
  (TargetCount (config m) <= 1 ->
   attackCount m = tally m -> attackCount m' = tally m').
Proof.
  intros Hreg (Hok & Hcount) Hsmall Hatt.
  unfold attack, mbind, M_bind in Hatt.
  destruct (selectTargets nodes d m h) as [[targets h0]|] eqn:Hsel; [| discriminate].
  destruct (selectTargets_spec _ _ _ _ _ _ Hreg Hsel) as (-> & Hlen & Hone & Hrun).
  case_decide as Hempty.
  { injection Hatt as <- <-. repeat split; try done; lia. }
  cbv zeta in Hatt.
  destruct targets as [|p targets]; [done |].
  cbn [executeAttacks] in Hatt. unfold mbind, M_bind in Hatt.
  destruct (executeAttack p (selectAttackType d m) now m h)
    as [[m1 h1]|] eqn:Hfirst; [| discriminate].
  destruct (executeAttacks targets (selectAttackType d m) now m1 h1)
    as [[m2 h2]|] eqn:Hrest; [| discriminate].
  injection Hatt as <- <-.
  cbn [length] in Hlen.
  destruct (executeAttack_effect _ _ _ _ _ _ _ Hok ltac:(lia) Hfirst)
    as (n & Hn & Hok1 & Hc1 & Hcfg1 & Ht1 & Hhit).
  destruct (Hrun p ltac:(by left)) as (n' & Hn' & Hstatus).
  rewrite Hn in Hn'. injection Hn' as <-.
  specialize (Hhit Hstatus).
  destruct (executeAttacks_effect (selectAttackType d m) now targets m1 h1 m2 h2
              Hok1 ltac:(lia) Hrest)
    as (Hok2 & Hc2 & Hcfg2 & Ht2).
  unfold counted, counters_ok, tally in *.
  cbn [attackByType attackCount config].
  rewrite u64_inc_small by lia.
  split; [split; [done | lia] |].
  split; [congruence |].
  split; [lia |].
  intros Hle Heq. specialize (Hone Hle). cbn [length] in Hone.
  assert (length targets = 0%nat) as Hzero by lia.
  rewrite Hzero in Ht2. lia.
Qed.

Lemma counted_New cfg : counted (New cfg).
Proof.
  unfold counted, counters_ok, tally. cbn [New attackByType attackCount].
  pose proof (@map_sum_empty AttackType _ _) as Hz.
  split; [apply map_Forall_empty | lia].
Qed.

Lemma after_ticks_counted cfg k m :
  after_ticks cfg k m -> k < u64_mod ->
  counted m /\ config m = cfg /\ 0 <= k /\ tally m <= k /\
  (TargetCount cfg <= 1 -> attackCount m = tally m).
Proof.
  induction 1 as [|k m bus Hm IH|k m c nodes h d now m' h' Hm IH Hreg Hsnap Htick];
    intros Hk.
  - split; [apply counted_New |]. unfold tally. cbn [New attackByType attackCount config].
    pose proof (@map_sum_empty AttackType _ _) as Hz.
    repeat split; try done; lia.
  - destruct (IH Hk) as (Hc & Hcfg & Hk0 & Ht & Heq).
    repeat split; try done; apply Hc.
  - assert (Hsize : 0 <= cluster.Size c) by (unfold cluster.Size; lia).
    destruct (IH ltac:(lia)) as (Hc & Hcfg & Hk0 & Ht & Heq).
    pose proof (snapshot_length c nodes Hsnap) as Hlen.
    destruct (attack_counted nodes d now m h m' h'
                (registry_ok_snapshot c h nodes Hreg Hsnap) Hc ltac:(lia) Htick)
      as (Hc' & Hcfg' & Ht' & Heq').
    split; [exact Hc' |]. split; [congruence |]. split; [lia |]. split; [lia |].
    intros Hone. apply Heq'; [by rewrite Hcfg | by apply Heq].
Qed.

End chaos_props.

Lemma registry_ok_1_running : cluster.registry_ok cluster_1 heap_1_running.
Proof.
  intros i p Hi. unfold cluster_1 in Hi. cbn in Hi.
  apply lookup_singleton_Some in Hi as [<- <-].
  exists running_node. split; [| reflexivity].
  unfold heap_1_running. apply lookup_singleton_eq.
Qed.

Lemma delay_tick :
  chaos.attack (cluster.Nodes cluster_1) draws_delay at_1s
    (chaos.New chaos.DefaultConfig) heap_1_running
  = Returned (delayed_once,
              {[ 1%positive := node.SetDelay 100000000 running_node ]}).
Proof. vm_compute. reflexivity. Qed.

Lemma after_delay_tick : chaos.after_ticks chaos.DefaultConfig 1 delayed_once.
Proof.
  pose proof (chaos.ticks_tick chaos.DefaultConfig _ _ cluster_1 _ _ _ _ _ _
                (chaos.ticks_new chaos.DefaultConfig)
                registry_ok_1_running (snapshot_Nodes cluster_1) delay_tick) as H.
  rewrite cluster_1_size in H. exact H.
Qed.

(** C3 (as the code has it): after any sequence of attack ticks, each
    on a registry of live nodes and with any draws, with anything
    happening to the nodes between the ticks and fewer than 2^64
    registry entries met in all, TotalAttacks is at most the sum of the
    ByType counters, and equal to it when TargetCount is at most 1: the
    global counter is incremented once per tick that selected a target,
    the per-type counter once per attacked target. *)
Theorem C3_total_attacks_vs_by_type
    (cfg : chaos.Config) (k : Z) (m : chaos.Monkey)
    (Hticks : chaos.after_ticks cfg k m)
    (Hk : k < 2 ^ 64) :
  let s := chaos.Stats_of m in
  0 <= chaos.TotalAttacks s <= chaos.sum_ByType s /\
  (chaos.TargetCount cfg <= 1 -> chaos.TotalAttacks s = chaos.sum_ByType s).
Proof.
  destruct (after_ticks_counted cfg k m Hticks Hk)
    as ((_ & Hcount) & _ & _ & _ & Heq).
  cbv zeta. rewrite Stats_of_sum. cbn [chaos.TotalAttacks chaos.Stats_of].
  split; [exact Hcount | exact Heq].
Qed.

Lemma C3_witness :
  let s := chaos.Stats_of delayed_once in
  chaos.after_ticks chaos.DefaultConfig 1 delayed_once /\
  1 < 2 ^ 64 /\
  0 <= chaos.TotalAttacks s <= chaos.sum_ByType s /\
  (chaos.TargetCount chaos.DefaultConfig <= 1 ->
   chaos.TotalAttacks s = chaos.sum_ByType s).
Proof.
  split; [exact after_delay_tick |].
  split; [reflexivity |].
  exact (C3_total_attacks_vs_by_type chaos.DefaultConfig 1 delayed_once
           after_delay_tick eq_refl).
Defined.

(** C3, the claim as stated fails: with TargetCount = 2, the attack
    type Kill and two Running nodes, one tick stops both nodes; the
    per-type counter of "kill" is 2 and the global counter is 1. *)
Lemma C3_two_targets_one_attack :
  two_running ∅ = Returned (cluster_2, heap_2_running) /\
  attack_stats (chaos.attack (cluster.Nodes cluster_2) draws_0 at_1s
                  (chaos.New kill_two) heap_2_running)
    = Some (1, {[ "kill" := 2 ]}, 2).
Proof. split; vm_compute; reflexivity. Qed.

(** ** Node: sequences of calls *)

Section node_runs.
Import node.

Lemma step_id o n : id (step o n) = id n.
Proof.
  destruct o; cbn; unfold Start, Stop, Suspend, Resume, Set_, Delete;
    repeat case_decide; done.
Qed.

Lemma step_status_data_plane o n :
  is_lifecycle o = false -> status (step o n) = status n.
Proof.
  destruct o; cbn; try done; intros _; unfold Set_, Delete;
    case_decide; done.
Qed.

Lemma step_status_only o n1 n2 :
  status n1 = status n2 -> status (step o n1) = status (step o n2).
Proof.
  intros Hs.
  destruct o; cbn; unfold Start, Stop, Suspend, Resume, Set_, Delete;
    rewrite ?Hs; repeat case_decide; cbn; congruence.
Qed.

Lemma run_status_only ops : forall n1 n2,
  status n1 = status n2 -> status (run ops n1) = status (run ops n2).
Proof.
  induction ops as [|o ops IH]; intros n1 n2 Hs; [done |].
  cbn. apply IH. by apply step_status_only.
Qed.

Lemma step_delay o n :
  delay (step o n) = match o with OpSetDelay d => d | _ => delay n end.
Proof.
  destruct o; cbn; unfold Start, Stop, Suspend, Resume, Set_, Delete;
    repeat case_decide; done.
Qed.

Lemma step_frozen o n :
  wakes o = false -> status n <> StatusRunning ->
  status (step o n) <> StatusRunning /\ data (step o n) = data n.
Proof.
  intros Ho Hn.
  destruct o; cbn in *; try done;
    unfold Stop, Suspend, Set_, Delete; repeat case_decide; cbn; done.
Qed.

End node_runs.

(** X1: over any sequence of calls on a node, the identity never
    changes, the status is the one the lifecycle calls of the sequence
    alone lead to (no [Get], [Set], [Delete], [SetDelay] or query has a
    part in it), and the delay is the argument of the last [SetDelay],
    whatever the status was when it was called. *)
Theorem X1_status_follows_lifecycle (ops : list node.Op) (n : node.Node) :
  node.id (node.run ops n) = node.id n /\
  node.status (node.run ops n) =
    node.status (node.run (filter (fun o => node.is_lifecycle o = true) ops) n) /\
  node.Delay (node.run ops n) = node.last_delay ops (node.Delay n).
Proof.
  revert n. induction ops as [|o ops IH]; intros n; [done |].
  cbn [node.run fold_left]. fold (node.run ops (node.step o n)).
  destruct (IH (node.step o n)) as (Hid & Hst & Hd).
  split; [| split].
  - by rewrite Hid, step_id.
  - rewrite Hst. rewrite filter_cons.
    destruct (node.is_lifecycle o) eqn:Ho.
    + rewrite decide_True by done. done.
    + rewrite decide_False by done.
      apply run_status_only. by apply step_status_data_plane.
  - rewrite Hd. unfold node.last_delay, node.Delay. cbn [fold_left].
    by rewrite step_delay.
Qed.

(** X2: what a write does to the store of a Running node.  [Set(k,v)]
    adds one key when [k] is new and none when it overwrites; the last
    of two writes to a key wins; [Delete(k)] of a key that is not there
    returns nil and changes nothing, and takes exactly one key away
    otherwise; neither touches another key. *)
Theorem X2_store_writes (n : node.Node) (k : string) (v : node.value)
    (Hrun : node.status n = node.StatusRunning) :
  let n1 := fst (node.Set_ n k v) in
  let n2 := fst (node.Delete n k) in
  node.Size n1 = node.Size n + (if decide (is_Some (node.data n !! k)) then 0 else 1) /\
  (forall v', fst (node.Set_ n1 k v') = fst (node.Set_ n k v')) /\
  snd (node.Delete n k) = None /\
  node.Size n2 = node.Size n - (if decide (is_Some (node.data n !! k)) then 1 else 0) /\
  (node.data n !! k = None -> n2 = n) /\
  (forall k', k' <> k ->
     node.Get n1 k' = node.Get n k' /\ node.Get n2 k' = node.Get n k').
Proof.
  intros n1 n2. unfold n1, n2.
  rewrite Set_running, Delete_running by done. cbn [fst snd].
  unfold node.Size. cbn [node.data node.set_data].
  split; [| split; [| split; [| split; [| split]]]].
  - destruct (node.data n !! k) as [v0|] eqn:Hk.
    + rewrite map_size_insert_Some, decide_True by (by eexists). lia.
    + rewrite map_size_insert_None by done.
      rewrite decide_False by (by intros [? ?]). lia.
  - intros v'. rewrite !Set_running by done. cbn.
    unfold node.set_data. cbn. by rewrite insert_insert_eq.
  - done.
  - destruct (node.data n !! k) as [v0|] eqn:Hk.
    + rewrite map_size_delete_Some, decide_True by (by eexists).
      assert (size (node.data n) <> 0%nat).
      { intros H0%map_size_empty_inv. rewrite H0 in Hk. done. }
      lia.
    + rewrite map_size_delete_None by done.
      rewrite decide_False by (by intros [? ?]). lia.
  - intros Hk. rewrite delete_id by done. by destruct n.
  - intros k' Hk'. rewrite !Get_running by done. cbn.
    rewrite lookup_insert_ne, lookup_delete_ne by done. done.
Qed.

Lemma X2_witness :
  node.status running_node = node.StatusRunning /\
  node.Size (fst (node.Set_ running_node "key1" value_a)) = 1 /\
  fst (node.Delete running_node "key1") = running_node.
Proof.
  assert (Hrun : node.status running_node = node.StatusRunning) by reflexivity.
  pose proof (X2_store_writes running_node "key1" value_a Hrun) as H.
  cbv zeta in H. destruct H as (Hsize & _ & _ & _ & Hdel & _).
  split; [exact Hrun |]. split; [exact Hsize |].
  apply Hdel. reflexivity.
Defined.

(** X3: a node that is not Running stays so, and keeps its store as it
    is, until it is started or resumed: after any calls other than
    [Start] and [Resume] the store is the same, and every [Get] still
    misses. *)
Theorem X3_store_frozen_while_down (ops : list node.Op) (n : node.Node)
    (Hdown : node.status n <> node.StatusRunning)
    (Hops : Forall (fun o => node.wakes o = false) ops) :
  node.status (node.run ops n) <> node.StatusRunning /\
  node.data (node.run ops n) = node.data n /\
  forall k, node.Get (node.run ops n) k = (node.nil_value, false).
Proof.
  assert (node.status (node.run ops n) <> node.StatusRunning /\
          node.data (node.run ops n) = node.data n) as [Hs Hd].
  { revert n Hdown. induction Hops as [|o ops Ho _ IH]; intros n Hdown; [done |].
    cbn [node.run fold_left]. fold (node.run ops (node.step o n)).
    destruct (step_frozen o n Ho Hdown) as [Hs1 Hd1].
    destruct (IH _ Hs1) as [Hs2 Hd2]. split; [done | congruence]. }
  repeat split; try done.
  intros k. by apply Get_not_running.
Qed.

Lemma X3_witness :
  node.data (node.run [node.OpSet "key1" value_a; node.OpStop; node.OpSetDelay 5]
                      suspended_node) = ∅.
Proof.
  refine (proj1 (proj2 (X3_store_frozen_while_down
            [node.OpSet "key1" value_a; node.OpStop; node.OpSetDelay 5]
            suspended_node _ _))).
  - cbn. discriminate.
  - repeat constructor.
Defined.

(** ** Cluster: the registry and the calls on all nodes *)

Lemma filter_ext_Forall {A} (P Q : A -> Prop)
    `{!forall x, Decision (P x)} `{!forall x, Decision (Q x)} (l : list A) :
  Forall (fun x => P x <-> Q x) l -> filter P l = filter Q l.
Proof.
  induction 1 as [|x l Hx _ IH]; [done |].
  rewrite !filter_cons, IH.
  destruct (decide (P x)), (decide (Q x)); tauto.
Qed.

Section cluster_bulk.
Import cluster.

Lemma registry_ok_NoDup c (h : gmap positive node.Node) :
  registry_ok c h -> NoDup (Nodes c).
Proof.
  intros Hok. unfold Nodes.
  apply NoDup_fmap_2_strong; [| apply NoDup_map_to_list].
  intros [i1 p1] [i2 p2] H1 H2 Heq. cbn in Heq. subst p2.
  apply elem_of_map_to_list in H1, H2.
  destruct (Hok _ _ H1) as (n1 & Hn1 & Hi1).
  destruct (Hok _ _ H2) as (n2 & Hn2 & Hi2).
  congruence.
Qed.

Lemma elem_of_Nodes c p :
  p ∈ Nodes c <-> exists i, nodes c !! i = Some p.
Proof.
  unfold Nodes. rewrite list_elem_of_fmap. split.
  - intros [[i q] [-> Hin]]. apply elem_of_map_to_list in Hin. by exists i.
  - intros [i Hi]. exists (i, p). split; [done |]. by apply elem_of_map_to_list.
Qed.

Lemma call_each_spec f nodes : forall errs (h : gmap positive node.Node),
  Forall (fun p => is_Some (h !! p)) nodes -> NoDup nodes ->
  exists errs' h',
    call_each f nodes errs h = Returned (errs ++ errs', h') /\
    length errs' = length (filter (fun p => refused f h p = true) nodes) /\
    forall p, h' !! p =
      (fun n => if decide (p ∈ nodes) then fst (f n) else n) <$> h !! p.
Proof.
  induction nodes as [|p ps IH]; intros errs h Hlive Hnd.
  - exists [], h. cbn. rewrite app_nil_r. repeat split.
    intros p. destruct (h !! p); cbn; [| done].
    rewrite decide_False by (by intros ?%elem_of_nil). done.
  - apply Forall_cons in Hlive as [[n Hn] Hlive].
    apply NoDup_cons in Hnd as [Hp Hnd].
    cbn [call_each]. unfold mbind, M_bind, call. rewrite Hn.
    set (h1 := <[p := fst (f n)]> h).
    assert (Hlive1 : Forall (fun q => is_Some (h1 !! q)) ps).
    { eapply Forall_impl; [exact Hlive |]. intros q Hq. unfold h1.
      destruct (decide (q = p)) as [->|Hne].
      - rewrite lookup_insert_eq. by eexists.
      - by rewrite lookup_insert_ne. }
    assert (Hsame : filter (fun q => refused f h1 q = true) ps
                    = filter (fun q => refused f h q = true) ps).
    { apply filter_ext_Forall. apply Forall_forall. intros q Hq.
      unfold refused, h1. rewrite lookup_insert_ne; [done |].
      intros ->. done. }
    destruct (IH (match snd (f n) with Some e => errs ++ [e] | None => errs end)
                 h1 Hlive1 Hnd) as (errs' & h' & Hrun & Hlen & Hh').
    rewrite Hrun.
    exists (match snd (f n) with Some e => e :: errs' | None => errs' end), h'.
    split; [| split].
    + destruct (snd (f n)); [by rewrite <- app_assoc | done].
    + assert (Hr : refused f h p = bool_decide (is_Some (snd (f n)))).
      { unfold refused. by rewrite Hn. }
      rewrite filter_cons, <- Hsame.
      destruct (snd (f n)) as [e|].
      * rewrite decide_True; [cbn; by rewrite Hlen |]. rewrite Hr.
        apply bool_decide_eq_true. by eexists.
      * rewrite decide_False; [done |]. rewrite Hr.
        rewrite bool_decide_eq_true. by intros [? ?].
    + intros q. rewrite Hh'. unfold h1.
      destruct (decide (q = p)) as [->|Hne].
      * rewrite lookup_insert_eq, Hn. cbn.
        rewrite decide_False by done.
        rewrite decide_True by (by apply elem_of_cons; left). done.
      * rewrite lookup_insert_ne by done.
        destruct (h !! q); cbn; [| done].
        destruct (decide (q ∈ ps)).
        -- rewrite decide_True by (by apply elem_of_cons; right). done.
        -- rewrite decide_False; [done |].
           intros [?|?]%elem_of_cons; done.
Qed.

End cluster_bulk.

Lemma filter_all {A} (P : A -> Prop) `{!forall x, Decision (P x)} (l : list A) :
  Forall P l -> filter P l = l.
Proof.
  induction 1 as [|x l Hx _ IH]; [done |].
  by rewrite filter_cons_True, IH.
Qed.

Lemma filter_none {A} (P : A -> Prop) `{!forall x, Decision (P x)} (l : list A) :
  Forall (fun x => ~ P x) l -> filter P l = [].
Proof.
  induction 1 as [|x l Hx _ IH]; [done |].
  by rewrite filter_cons_False, IH.
Qed.

Lemma contains_middle (pre sub post : string) : contains (pre +:+ sub +:+ post) sub.
Proof. by exists pre, post. Qed.

(** X4: [AddNode] files a node under its own identity.  When the
    identity is free it returns nil, the node is then found under it,
    every other entry is as before, the size has grown by one and the
    registry still holds live nodes under their identities.  When the
    identity is taken, by this or by any other node object, it returns
    an error that names the identity and the registry is unchanged.
    No node object is touched. *)
Theorem X4_AddNode_by_identity
    (c : cluster.Cluster) (h : gmap positive node.Node) (p : positive) (n : node.Node)
    (Hlive : h !! p = Some n) :
  (cluster.GetNode c (node.id n) = None ->
     exists c', cluster.AddNode c p h = Returned ((c', None), h) /\
       cluster.GetNode c' (node.id n) = Some p /\
       (forall j, j <> node.id n -> cluster.GetNode c' j = cluster.GetNode c j) /\
       cluster.Size c' = cluster.Size c + 1 /\
       (cluster.registry_ok c h -> cluster.registry_ok c' h)) /\
  (forall q, cluster.GetNode c (node.id n) = Some q ->
     exists msg, cluster.AddNode c p h = Returned ((c, Some msg), h) /\
       contains msg (node.id n)).
Proof.
  unfold cluster.GetNode, cluster.AddNode, mbind, M_bind, query, node.ID.
  rewrite Hlive. split.
  - intros Hfree. rewrite Hfree. eexists. split; [reflexivity |].
    cbn [cluster.nodes]. split; [apply lookup_insert_eq |].
    split; [intros j Hj; by apply lookup_insert_ne |].
    split.
    + unfold cluster.Size. cbn [cluster.nodes].
      rewrite map_size_insert_None by done. lia.
    + intros Hok i q. cbn [cluster.nodes].
      destruct (decide (i = node.id n)) as [->|Hne].
      * rewrite lookup_insert_eq. intros [= <-]. by exists n.
      * rewrite lookup_insert_ne by done. apply Hok.
  - intros q Hq. rewrite Hq. eexists. split; [reflexivity |].
    apply contains_middle.
Qed.

Lemma X4_witness :
  exists c',
    cluster.AddNode cluster.New 1%positive {[ 1%positive := node.New "node-1" ]}
      = Returned ((c', None), {[ 1%positive := node.New "node-1" ]}) /\
    cluster.GetNode c' "node-1" = Some 1%positive /\
    cluster.Size c' = 1.
Proof.
  assert (Hlive : ({[ 1%positive := node.New "node-1" ]} : gmap positive node.Node)
                    !! 1%positive = Some (node.New "node-1")) by (vm_compute; reflexivity).
  destruct (X4_AddNode_by_identity cluster.New {[ 1%positive := node.New "node-1" ]}
              1%positive (node.New "node-1") Hlive) as [Hfree _].
  assert (Hnone : cluster.GetNode cluster.New (node.id (node.New "node-1")) = None)
    by (vm_compute; reflexivity).
  destruct (Hfree Hnone) as (c' & Hadd & Hget & _ & Hsize & _).
  exists c'. split; [exact Hadd |]. split; [exact Hget |]. exact Hsize.
Defined.

(** X5: on a registry of live nodes [RemoveNode] always returns.  It
    returns nil exactly when the identity is registered; the size then
    drops by one and the registry still holds live nodes under their
    identities.  Otherwise the error names the identity, and neither
    the registry nor any node has changed. *)
Theorem X5_RemoveNode_bookkeeping
    (c : cluster.Cluster) (h : gmap positive node.Node) (nodeID : string)
    (Hok : cluster.registry_ok c h) :
  exists c' err h',
    cluster.RemoveNode c nodeID h = Returned ((c', err), h') /\
    (err = None <-> is_Some (cluster.GetNode c nodeID)) /\
    (err = None ->
       cluster.Size c' = cluster.Size c - 1 /\ cluster.registry_ok c' h') /\
    (forall msg, err = Some msg -> contains msg nodeID /\ c' = c /\ h' = h).
Proof.
  unfold cluster.GetNode, cluster.RemoveNode.
  destruct (cluster.nodes c !! nodeID) as [p|] eqn:Hreg.
  - destruct (Hok _ _ Hreg) as (n & Hn & Hid).
    assert (Hsize : cluster.Size (cluster.mkCluster (delete nodeID (cluster.nodes c)))
                    = cluster.Size c - 1).
    { unfold cluster.Size. cbn [cluster.nodes].
      rewrite map_size_delete_Some by (by eexists).
      assert (size (cluster.nodes c) <> 0%nat).
      { intros H0%map_size_empty_inv. rewrite H0 in Hreg. done. }
      lia. }
    unfold mbind, M_bind, query, call, mret, M_ret. rewrite Hn.
    unfold node.Status_of.
    destruct (decide (node.status n = node.StatusRunning)) as [Hs|Hs].
    + rewrite Hn. do 3 eexists. split; [reflexivity |].
      split; [split; [by eexists | done] |].
      split; [| done]. intros _. split; [exact Hsize |].
      intros i q. cbn [cluster.nodes]. intros Hq.
      apply lookup_delete_Some in Hq as [Hne Hq].
      destruct (Hok _ _ Hq) as (n' & Hn' & Hid').
      destruct (decide (q = p)) as [->|Hqp].
      * congruence.
      * exists n'. by rewrite lookup_insert_ne.
    + do 3 eexists. split; [reflexivity |].
      split; [split; [by eexists | done] |].
      split; [| done]. intros _. split; [exact Hsize |].
      intros i q. cbn [cluster.nodes]. intros Hq.
      apply lookup_delete_Some in Hq as [Hne Hq]. by apply Hok.
  - do 3 eexists. split; [reflexivity |].
    split; [split; [done | by intros [? ?]] |].
    split; [done |]. intros msg [= <-].
    split; [apply contains_middle | done].
Qed.

Lemma X5_witness :
  exists c' err h',
    cluster.RemoveNode cluster_1 "node-2" heap_1_suspended = Returned ((c', err), h') /\
    (err = None <-> is_Some (cluster.GetNode cluster_1 "node-2")).
Proof.
  destruct (X5_RemoveNode_bookkeeping cluster_1 heap_1_suspended "node-2" registry_ok_1)
    as (c' & err & h' & Hrm & Hiff & _).
  exists c', err, h'. split; [exact Hrm | exact Hiff].
Defined.

Section cluster_all.
Import cluster.

(** After [f] has been called on every node of a snapshot: the nodes
    of the registry are as [f] leaves them, the others as they were. *)
Lemma call_each_snapshot f c (h : gmap positive node.Node) nodes :
  registry_ok c h -> snapshot c nodes ->
  exists errs h',
    call_each f nodes [] h = Returned (errs, h') /\
    length errs = length (filter (fun p => refused f h p = true) (Nodes c)) /\
    forall p, h' !! p =
      (fun n => if decide (p ∈ Nodes c) then fst (f n) else n) <$> h !! p.
Proof.
  intros Hok Hsnap.
  pose proof (registry_ok_snapshot c h nodes Hok Hsnap) as Hlive.
  assert (Hnd : NoDup nodes).
  { unfold snapshot in Hsnap. rewrite Hsnap. by eapply registry_ok_NoDup. }
  destruct (call_each_spec f nodes [] h Hlive Hnd) as (errs & h' & Hrun & Hlen & Hh').
  exists errs, h'. split; [exact Hrun |]. split.
  - rewrite Hlen. unfold snapshot in Hsnap. by rewrite Hsnap.
  - intros p. rewrite Hh'. destruct (h !! p); cbn; [| done].
    unfold snapshot in Hsnap.
    destruct (decide (p ∈ nodes)) as [Hin|Hin].
    + rewrite decide_True; [done |]. by rewrite <- Hsnap.
    + rewrite decide_False; [done |]. by rewrite <- Hsnap.
Qed.

Lemma count_all_in_status s c (h : gmap positive node.Node) :
  (forall p, p ∈ Nodes c -> node.status <$> h !! p = Some s) ->
  count_status s (Nodes c) 0 h = Returned (Size c, h).
Proof.
  intros Hall.
  rewrite count_status_spec.
  - rewrite filter_all by (by apply Forall_forall).
    rewrite (snapshot_length c (Nodes c)) by apply snapshot_Nodes. done.
  - apply Forall_forall. intros p Hp. specialize (Hall p Hp).
    destruct (h !! p); [by eexists | done].
Qed.

Lemma count_none_in_status s c (h : gmap positive node.Node) :
  (forall p, p ∈ Nodes c -> exists n, h !! p = Some n /\ node.status n <> s) ->
  count_status s (Nodes c) 0 h = Returned (0, h).
Proof.
  intros Hnone.
  rewrite count_status_spec.
  - rewrite filter_none; [done |].
    apply Forall_forall. intros p Hp. destruct (Hnone p Hp) as (n & -> & Hs).
    cbn. congruence.
  - apply Forall_forall. intros p Hp. destruct (Hnone p Hp) as (n & -> & _).
    by eexists.
Qed.

Lemma refused_Start (h : gmap positive node.Node) p :
  refused node.Start h p = true <->
  node.status <$> h !! p = Some node.StatusRunning.
Proof.
  unfold refused. destruct (h !! p) as [n|]; cbn; [| done].
  rewrite bool_decide_eq_true. unfold node.Start.
  case_decide; cbn; unfold node.errorf.
  - split; [congruence | by eexists].
  - split; [by intros [? ?] | congruence].
Qed.

End cluster_all.

(** X6: [StartAll] on a registry of live nodes, whatever the order in
    which the nodes are met.  Afterwards every registered node is
    Running (a Suspended one included), so [RunningCount] equals
    [Size]; every node keeps its identity, its store and its delay,
    and a node outside the registry is not touched.  The result is nil
    exactly when no registered node was Running before; otherwise the
    error gives the number of nodes that were. *)
Theorem X6_StartAll_all_running
    (c : cluster.Cluster) (h : gmap positive node.Node) (nodes : list positive)
    (Hok : cluster.registry_ok c h)
    (Hsnap : cluster.snapshot c nodes) :
  let was_running := length (cluster.with_status node.StatusRunning c h) in
  exists h',
    cluster.StartAll nodes h =
      Returned (if decide (0 < was_running)%nat
                then Some ("failed to start " +:+ pretty (Z.of_nat was_running) +:+ " nodes")
                else None, h') /\
    cluster.RunningCount c h' = Returned (cluster.Size c, h') /\
    cluster.registry_ok c h' /\
    (forall p, h' !! p =
       (fun n => if decide (p ∈ cluster.Nodes c)
                 then node.set_status node.StatusRunning
                        (if decide (node.status n = node.StatusRunning)
                         then n else node.set_cancel true n)
                 else n) <$> h !! p).
Proof.
  intros was_running.
  destruct (call_each_snapshot node.Start c h nodes Hok Hsnap)
    as (errs & h' & Hrun & Hlen & Hh').
  assert (Hcount : length errs = was_running).
  { rewrite Hlen. unfold was_running, cluster.with_status. f_equal.
    apply filter_ext_Forall, Forall_forall. intros p _. apply refused_Start. }
  assert (Hh'' : forall p, h' !! p =
       (fun n => if decide (p ∈ cluster.Nodes c)
                 then node.set_status node.StatusRunning
                        (if decide (node.status n = node.StatusRunning)
                         then n else node.set_cancel true n)
                 else n) <$> h !! p).
  { intros p. rewrite Hh'. destruct (h !! p) as [n|]; cbn; [| done].
    f_equal. case_decide; [| done]. unfold node.Start.
    case_decide as Hs; cbn; [| done].
    destruct n as [i s d m cl]. cbn in Hs. by subst s. }
  exists h'. split; [| split; [| split]].
  - unfold cluster.StartAll, mbind, M_bind. rewrite Hrun, Hcount. by case_decide.
  - apply count_all_in_status. intros p Hp. rewrite Hh''.
    apply elem_of_Nodes in Hp as Hreg. destruct Hreg as [i Hi].
    destruct (Hok _ _ Hi) as (n & -> & _). cbn. by rewrite decide_True.
  - intros i p Hi. destruct (Hok _ _ Hi) as (n & Hn & Hid).
    rewrite Hh'', Hn. cbn. eexists. split; [reflexivity |].
    repeat case_decide; done.
  - exact Hh''.
Qed.

Lemma X6_witness :
  exists h',
    cluster.StartAll (cluster.Nodes cluster_1) heap_1_suspended = Returned (None, h') /\
    cluster.RunningCount cluster_1 h' = Returned (1, h').
Proof.
  destruct (X6_StartAll_all_running cluster_1 heap_1_suspended (cluster.Nodes cluster_1)
              registry_ok_1 (snapshot_Nodes cluster_1))
    as (h' & Hstart & Hcount & _).
  exists h'. split; [exact Hstart | exact Hcount].
Defined.

(** X7: [StopAll] on a registry of live nodes always returns nil, also
    when some or all nodes were Stopped already.  Afterwards every
    registered node is Stopped, so [StoppedCount] equals [Size] and
    [RunningCount] is 0; no node loses its store, and a node outside
    the registry is not touched. *)
Theorem X7_StopAll_all_stopped
    (c : cluster.Cluster) (h : gmap positive node.Node) (nodes : list positive)
    (Hok : cluster.registry_ok c h)
    (Hsnap : cluster.snapshot c nodes) :
  exists h',
    cluster.StopAll nodes h = Returned (None, h') /\
    cluster.StoppedCount c h' = Returned (cluster.Size c, h') /\
    cluster.RunningCount c h' = Returned (0, h') /\
    cluster.registry_ok c h' /\
    (forall p, h' !! p =
       (fun n => if decide (p ∈ cluster.Nodes c)
                 then node.set_status node.StatusStopped n else n) <$> h !! p).
Proof.
  destruct (call_each_snapshot node.Stop c h nodes Hok Hsnap)
    as (errs & h' & Hrun & Hlen & Hh').
  assert (Hh'' : forall p, h' !! p =
       (fun n => if decide (p ∈ cluster.Nodes c)
                 then node.set_status node.StatusStopped n else n) <$> h !! p).
  { intros p. rewrite Hh'. destruct (h !! p) as [n|]; cbn; [| done].
    f_equal. case_decide; [| done]. unfold node.Stop.
    case_decide as Hs; cbn; [| done].
    destruct n as [i s d m cl]. cbn in Hs. by subst s. }
  exists h'. split; [| split; [| split; [| split]]].
  - unfold cluster.StopAll, mbind, M_bind. by rewrite Hrun.
  - apply count_all_in_status. intros p Hp. rewrite Hh''.
    apply elem_of_Nodes in Hp as Hreg. destruct Hreg as [i Hi].
    destruct (Hok _ _ Hi) as (n & -> & _). cbn. by rewrite decide_True.
  - apply count_none_in_status. intros p Hp. rewrite Hh''.
    apply elem_of_Nodes in Hp as Hreg. destruct Hreg as [i Hi].
    destruct (Hok _ _ Hi) as (n & -> & _). cbn. rewrite decide_True by done.
    eexists. split; [reflexivity |]. done.
  - intros i p Hi. destruct (Hok _ _ Hi) as (n & Hn & Hid).
    rewrite Hh'', Hn. cbn. eexists. split; [reflexivity |].
    case_decide; done.
  - exact Hh''.
Qed.

Lemma X7_witness :
  exists h',
    cluster.StopAll (cluster.Nodes cluster_1) heap_1_suspended = Returned (None, h') /\
    cluster.StoppedCount cluster_1 h' = Returned (1, h').
Proof.
  destruct (X7_StopAll_all_stopped cluster_1 heap_1_suspended (cluster.Nodes cluster_1)
              registry_ok_1 (snapshot_Nodes cluster_1))
    as (h' & Hstop & Hcount & _).
  exists h'. split; [exact Hstop | exact Hcount].
Defined.

Section cluster_create.
Import cluster.

Lemma node_name_inj prefix j1 j2 :
  node_name prefix j1 = node_name prefix j2 -> j1 = j2.
Proof.
  unfold node_name. intros Heq.
  apply (inj (String.app prefix)) in Heq.
  apply (inj (String.app "-")) in Heq.
  by apply (inj pretty) in Heq.
Qed.

(** One round of the loop on a free identity. *)
Lemma create_round nodeID c (h : gmap positive node.Node) :
  registry_ok c h -> nodes c !! nodeID = None ->
  let p := fresh (dom h) in
  let h1 := <[p := node.New nodeID]> h in
  let c1 := mkCluster (<[nodeID := p]> (nodes c)) in
  (p' ← new_node nodeID; AddNode c p') h = Returned ((c1, None), h1) /\
  h !! p = None /\
  registry_ok c1 h1 /\
  Size c1 = Size c + 1.
Proof.
  intros Hok Hfree p h1 c1.
  assert (Hp : h !! p = None).
  { apply not_elem_of_dom. apply is_fresh. }
  split; [| split; [done | split]].
  - unfold mbind, M_bind, new_node, AddNode, query. cbv zeta.
    unfold mbind, M_bind. cbv beta. rewrite lookup_insert_eq.
    unfold node.ID. cbn [node.New node.id]. by rewrite Hfree.
  - intros i q. unfold c1, h1. cbn [nodes].
    destruct (decide (i = nodeID)) as [->|Hne].
    + rewrite lookup_insert_eq. intros [= <-].
      rewrite lookup_insert_eq. by eexists.
    + rewrite lookup_insert_ne by done. intros Hq.
      destruct (Hok _ _ Hq) as (n & Hn & Hid).
      exists n. rewrite lookup_insert_ne; [done |]. intros ->. congruence.
  - unfold Size, c1. cbn [nodes]. rewrite map_size_insert_None by done. lia.
Qed.

Lemma create_from_free prefix todo : forall i c (h : gmap positive node.Node),
  registry_ok c h ->
  (forall j, i < j <= i + Z.of_nat todo -> nodes c !! node_name prefix j = None) ->
  exists c' h',
    create_from i todo prefix c h = Returned ((c', None), h') /\
    Size c' = Size c + Z.of_nat todo /\
    registry_ok c' h' /\
    (forall j, i < j <= i + Z.of_nat todo ->
       exists p, nodes c' !! node_name prefix j = Some p /\
                 h !! p = None /\
                 h' !! p = Some (node.New (node_name prefix j))) /\
    (forall k p, nodes c !! k = Some p -> nodes c' !! k = Some p) /\
    (forall p n, h !! p = Some n -> h' !! p = Some n).
Proof.
  induction todo as [|todo IH]; intros i c h Hok Hfree.
  - exists c, h. cbn. repeat split; try done; lia.
  - assert (Hfree1 : nodes c !! node_name prefix (i + 1) = None) by (apply Hfree; lia).
    destruct (create_round (node_name prefix (i + 1)) c h Hok Hfree1)
      as (Hround & Hp & Hok1 & Hsize1).
    set (p := fresh (dom h)) in *.
    set (h1 := <[p := node.New (node_name prefix (i + 1))]> h) in *.
    set (c1 := mkCluster (<[node_name prefix (i + 1) := p]> (nodes c))) in *.
    destruct (IH (i + 1) c1 h1 Hok1) as (c' & h' & Hrun & Hsize & Hok' & Hnew & Hold & Hheap).
    { intros j Hj. unfold c1. cbn [nodes].
      rewrite lookup_insert_ne; [apply Hfree; lia |].
      intros Heq%node_name_inj. lia. }
    exists c', h'.
    split; [| split; [| split; [| split; [| split]]]].
    + cbn [create_from]. unfold mbind, M_bind in *.
      unfold new_node in *. fold p in Hround |- *. fold h1 in Hround |- *.
      cbn beta zeta in Hround.
      destruct (AddNode c p h1) as [[[c2 e2] h2]|] eqn:Hadd; [| done].
      injection Hround as -> -> ->. cbn [fst snd]. exact Hrun.
    + lia.
    + exact Hok'.
    + intros j Hj. destruct (decide (j = i + 1)) as [->|Hne].
      * exists p. split; [| split; [done |]].
        -- apply Hold. unfold c1. cbn [nodes]. apply lookup_insert_eq.
        -- apply Hheap. unfold h1. apply lookup_insert_eq.
      * destruct (Hnew j) as (q & Hq & Hq1 & Hq'); [lia |].
        exists q. split; [done |]. split; [| done].
        unfold h1 in Hq1. apply lookup_insert_None in Hq1. tauto.
    + intros k q Hk. apply Hold. unfold c1. cbn [nodes].
      rewrite lookup_insert_ne; [done |]. intros <-. congruence.
    + intros q n Hq. apply Hheap. unfold h1.
      rewrite lookup_insert_ne; [done |]. intros <-. congruence.
Qed.

End cluster_create.

(** X8: [CreateNodes(count, prefix)] on a registry of live nodes in
    which none of the identities prefix-1, ..., prefix-count is taken.
    It returns nil; the size grows by [count] (by nothing for a count
    of zero or less); each of these identities is then registered to a
    node object of its own that did not exist before, Stopped, with an
    empty store and no delay; what was registered before still is, and
    no node that existed before is touched. *)
Theorem X8_CreateNodes_fresh
    (c : cluster.Cluster) (h : gmap positive node.Node) (count : Z) (prefix : string)
    (Hok : cluster.registry_ok c h)
    (Hfree : forall j, 1 <= j <= count ->
               cluster.GetNode c (cluster.node_name prefix j) = None) :
  exists c' h',
    cluster.CreateNodes c count prefix h = Returned ((c', None), h') /\
    cluster.Size c' = cluster.Size c + Z.max 0 count /\
    cluster.registry_ok c' h' /\
    (forall j, 1 <= j <= count ->
       exists p, cluster.GetNode c' (cluster.node_name prefix j) = Some p /\
                 h !! p = None /\
                 h' !! p = Some (node.New (cluster.node_name prefix j))) /\
    (forall k p, cluster.GetNode c k = Some p -> cluster.GetNode c' k = Some p) /\
    (forall p n, h !! p = Some n -> h' !! p = Some n).
Proof.
  unfold cluster.CreateNodes, cluster.GetNode in *.
  destruct (create_from_free prefix (Z.to_nat count) 0 c h Hok)
    as (c' & h' & Hrun & Hsize & Hok' & Hnew & Hold & Hheap).
  { intros j Hj. apply Hfree. lia. }
  exists c', h'. split; [exact Hrun |]. split; [lia |]. split; [exact Hok' |].
  split; [| split; [exact Hold | exact Hheap]].
  intros j Hj. apply Hnew. lia.
Qed.

Lemma X8_witness :
  exists c' h',
    cluster.CreateNodes cluster.New 3 "node" ∅ = Returned ((c', None), h') /\
    cluster.Size c' = 3 /\
    exists p, cluster.GetNode c' "node-2" = Some p /\
              h' !! p = Some (node.New "node-2").
Proof.
  assert (Hok : cluster.registry_ok cluster.New ∅).
  { intros i p Hi. vm_compute in Hi. discriminate. }
  assert (Hfree : forall j, 1 <= j <= 3 ->
            cluster.GetNode cluster.New (cluster.node_name "node" j) = None).
  { intros j _. reflexivity. }
  destruct (X8_CreateNodes_fresh cluster.New ∅ 3 "node" Hok Hfree)
    as (c' & h' & Hrun & Hsize & _ & Hnew & _).
  exists c', h'. split; [exact Hrun |]. split; [exact Hsize |].
  destruct (Hnew 2 ltac:(lia)) as (p & Hp & _ & Hp').
  exists p. split; [exact Hp | exact Hp'].
Defined.

Section cluster_create_taken.
Import cluster.


End cluster_create_taken.



(** ** Metrics: counters and latencies *)

Section metrics_counters.
Import metrics.

Lemma recorded_snoc ops o :
  recorded (ops ++ [o]) =
    recorded ops ++ match o with
                    | OpRecordSuccess l | OpRecordFailure l => [l]
                    | OpReset _ => []
                    end.
Proof. unfold recorded. rewrite omap_app. by destruct o. Qed.

Lemma since_reset_snoc ops o :
  since_reset (ops ++ [o]) =
    match o with
    | OpRecordSuccess _ | OpRecordFailure _ => since_reset ops + 1
    | OpReset _ => 0
    end.
Proof. unfold since_reset. rewrite fold_left_app. by destruct o. Qed.

Lemma sum_list_app l1 l2 : sum_list (l1 ++ l2) = sum_list l1 + sum_list l2.
Proof. unfold sum_list. induction l1 as [|x l1 IH]; cbn; lia. Qed.

Lemma since_reset_bounds ops : 0 <= since_reset ops <= Z.of_nat (length ops).
Proof.
  induction ops as [|o ops IH] using rev_ind; [done |].
  rewrite since_reset_snoc, length_app. cbn. destruct o; lia.
Qed.

Lemma counters_run t0 ops :
  Z.of_nat (length ops) < u64_mod ->
  let m := run ops (New t0) in
  totalRequests m = successes ops + failures ops /\
  successRequests m = successes ops /\
  failedRequests m = failures ops /\
  successes ops + failures ops = Z.of_nat (length (recorded ops)) /\
  windowRequests m = since_reset ops /\
  startTime m = t0 /\
  successes ops + failures ops <= Z.of_nat (length ops).
Proof.
  unfold successes, failures.
  induction ops as [|o ops IH] using rev_ind; intros Hlen; [done |].
  rewrite length_app in Hlen. cbn in Hlen.
  destruct IH as (Ht & Hs & Hf & Hr & Hw & Hst & Hle); [lia |].
  pose proof (since_reset_bounds ops) as Hsr.
  rewrite run_snoc, recorded_snoc, since_reset_snoc, !filter_app, !length_app.
  rewrite !filter_cons, !filter_nil.
  unfold u64_mod in *.
  destruct o; cbn [step RecordSuccess RecordFailure Reset totalRequests successRequests
                   failedRequests windowRequests startTime is_success is_failure];
    unfold u64_add, u64_inc, u64_mod; rewrite ?Ht, ?Hs, ?Hf, ?Hw;
    repeat case_decide; try done; cbn [length];
    repeat split; try done;
    rewrite ?Z.mod_small by lia; lia.
Qed.

Lemma totalLatencyNs_run t0 ops :
  totalLatencyNs (run ops (New t0)) = (sum_list (recorded ops)) mod u64_mod.
Proof.
  induction ops as [|o ops IH] using rev_ind; [done |].
  rewrite run_snoc, recorded_snoc, sum_list_app.
  destruct o; cbn [step RecordSuccess RecordFailure Reset totalLatencyNs sum_list fold_right];
    unfold u64_add, uint64_of_int64; rewrite ?IH.
  - rewrite Z.add_0_r. by rewrite <- Z.add_mod by done.
  - rewrite Z.add_0_r. by rewrite <- Z.add_mod by done.
  - by rewrite Z.add_0_r.
Qed.

Lemma sum_list_bounds lo hi (l : list Duration) :
  Forall (fun x => lo <= x <= hi) l ->
  lo * Z.of_nat (length l) <= sum_list l <= hi * Z.of_nat (length l).
Proof.
  induction 1 as [|x l Hx _ IH]; cbn [sum_list fold_right length]; [lia |].
  fold (sum_list l). lia.
Qed.

End metrics_counters.

(** X10: the request counters of a collector, after any history of
    fewer than 2^64 calls.  [SuccessRequests] and [FailedRequests] are
    the numbers of calls of [RecordSuccess] and of [RecordFailure],
    [TotalRequests] is their sum, and [windowRequests] is the number of
    recordings since the last [Reset].  [Reset] empties the window and
    the reservoir and leaves the three counters alone. *)
Theorem X10_request_counters (t0 : Time) (ops : list metrics.Op)
    (Hlen : Z.of_nat (length ops) < 2 ^ 64) :
  let m := metrics.run ops (metrics.New t0) in
  metrics.SuccessRequests m = metrics.successes ops /\
  metrics.FailedRequests m = metrics.failures ops /\
  metrics.TotalRequests m = metrics.SuccessRequests m + metrics.FailedRequests m /\
  metrics.TotalRequests m = Z.of_nat (length (metrics.recorded ops)) /\
  metrics.windowRequests m = metrics.since_reset ops /\
  (forall now,
     metrics.TotalRequests (metrics.Reset now m) = metrics.TotalRequests m /\
     metrics.SuccessRequests (metrics.Reset now m) = metrics.SuccessRequests m /\
     metrics.FailedRequests (metrics.Reset now m) = metrics.FailedRequests m /\
     metrics.windowRequests (metrics.Reset now m) = 0 /\
     metrics.latencies (metrics.Reset now m) = []).
Proof.
  intros m.
  destruct (counters_run t0 ops Hlen) as (Ht & Hs & Hf & Hr & Hw & _).
  unfold metrics.TotalRequests, metrics.SuccessRequests, metrics.FailedRequests.
  fold m in Ht, Hs, Hf, Hw.
  repeat split; try done; lia.
Qed.

Lemma X10_witness :
  let m := metrics.run [metrics.OpRecordSuccess 5; metrics.OpRecordFailure 7;
                        metrics.OpReset at_1s; metrics.OpRecordSuccess 3]
                       (metrics.New 0) in
  metrics.TotalRequests m = 3 /\
  metrics.SuccessRequests m = 2 /\
  metrics.FailedRequests m = 1 /\
  metrics.windowRequests m = 1.
Proof.
  intros m.
  destruct (X10_request_counters 0
              [metrics.OpRecordSuccess 5; metrics.OpRecordFailure 7;
               metrics.OpReset at_1s; metrics.OpRecordSuccess 3])
    as (Hs & Hf & _ & Ht & Hw & _); [cbn; lia |].
  split; [exact Ht |]. split; [exact Hs |]. split; [exact Hf | exact Hw].
Defined.

Lemma sum_list_nonneg (l : list Duration) :
  Forall (fun x => 0 <= x) l -> 0 <= metrics.sum_list l.
Proof.
  unfold metrics.sum_list. induction 1 as [|x l Hx _ IH]; cbn; lia.
Qed.

(** X11: [AverageLatency] after any history of fewer than 2^64 calls
    whose recorded latencies are not negative and add up to less than
    2^63 ns.  It is 0 when nothing was recorded; otherwise it is the
    sum of the latencies of all the recorded requests, failed ones
    included, divided by their number and rounded down.  [Reset] has
    no part in it: the average runs from the creation of the collector.
    It lies between any two bounds of the recorded latencies. *)
Theorem X11_AverageLatency_is_mean (t0 : Time) (ops : list metrics.Op)
    (Hlen : Z.of_nat (length ops) < 2 ^ 64)
    (Hnonneg : Forall (fun l => 0 <= l) (metrics.recorded ops))
    (Hsum : metrics.sum_list (metrics.recorded ops) < 2 ^ 63) :
  let m := metrics.run ops (metrics.New t0) in
  metrics.AverageLatency m =
    (if decide (metrics.recorded ops = []) then 0
     else metrics.sum_list (metrics.recorded ops)
          / Z.of_nat (length (metrics.recorded ops))) /\
  (forall lo hi,
     metrics.recorded ops <> [] ->
     Forall (fun l => lo <= l <= hi) (metrics.recorded ops) ->
     lo <= metrics.AverageLatency m <= hi).
Proof.
  intros m.
  destruct (counters_run t0 ops Hlen) as (Ht & _ & _ & Hr & _).
  fold m in Ht. rewrite Hr in Ht.
  pose proof (totalLatencyNs_run t0 ops) as Hl. fold m in Hl.
  pose proof (sum_list_nonneg _ Hnonneg) as H0.
  remember (metrics.recorded ops) as lats eqn:Hlats.
  assert (Havg : metrics.AverageLatency m =
            if decide (lats = []) then 0
            else metrics.sum_list lats / Z.of_nat (length lats)).
  { unfold metrics.AverageLatency. cbv zeta. rewrite Ht, Hl.
    destruct lats as [|l lats'].
    - rewrite decide_True by done. by rewrite decide_True.
    - rewrite decide_False by (cbn [length]; lia).
      rewrite decide_False by done.
      unfold u64_mod. rewrite Z.mod_small by lia.
      unfold metrics.int64_of_uint64. rewrite decide_True; [done |].
      apply Z.div_lt_upper_bound; [cbn [length]; lia |].
      cbn [length]. nia. }
  split; [exact Havg |].
  intros lo hi Hne Hb. rewrite Havg, decide_False by done.
  pose proof (sum_list_bounds lo hi lats Hb) as Hsb.
  remember (Z.of_nat (length lats)) as len eqn:Hlen'.
  assert (0 < len).
  { subst len. destruct lats; [done | cbn [length]; lia]. }
  split.
  - apply Z.div_le_lower_bound; [lia |]. rewrite Z.mul_comm. lia.
  - apply Z.div_le_upper_bound; [lia |]. rewrite Z.mul_comm. lia.
Qed.

Lemma X11_witness :
  metrics.AverageLatency
    (metrics.run [metrics.OpRecordSuccess 5; metrics.OpRecordFailure 8;
                  metrics.OpReset at_1s; metrics.OpRecordSuccess 3]
                 (metrics.New 0)) = 5.
Proof.
  refine (proj1 (X11_AverageLatency_is_mean 0
            [metrics.OpRecordSuccess 5; metrics.OpRecordFailure 8;
             metrics.OpReset at_1s; metrics.OpRecordSuccess 3] _ _ _)).
  - cbn. lia.
  - cbn. repeat constructor; lia.
  - cbn. lia.
Defined.

Section metrics_p99.
Import metrics.

(** In an ascending list, nothing before a position exceeds what is
    at it, so what exceeds it lies behind it. *)
Lemma sorted_above (sorted : list Duration) (i : nat) (d : Duration) :
  Sorted Z.le sorted -> sorted !! i = Some d ->
  (length (filter (fun x : Z => (d < x)%Z) sorted) <= length sorted - S i)%nat.
Proof.
  intros Hs Hd.
  apply (Sorted_StronglySorted Z.le) in Hs.
  pose proof (take_drop_middle sorted i d Hd) as Hsplit.
  rewrite <- Hsplit in Hs.
  apply StronglySorted_app in Hs as (Hle & _ & _).
  assert (Hf : filter (fun x : Z => d < x) sorted
               = filter (fun x : Z => d < x) (drop (S i) sorted)).
  { rewrite <- Hsplit at 1.
    rewrite filter_app, filter_cons_False by lia.
    rewrite filter_none; [done |].
    apply Forall_forall. intros x Hx.
    specialize (Hle x d Hx). apply Z.le_ngt. apply Hle. apply list_elem_of_here. }
  rewrite Hf.
  pose proof (length_filter (fun x : Z => d < x) (drop (S i) sorted)) as Hlf.
  rewrite length_drop in Hlf. exact Hlf.
Qed.

End metrics_p99.

(** X12: [P99Latency] after any history of calls on a fresh collector
    returns (the index it computes is never out of range).  On an
    empty reservoir the result is 0; otherwise it is one of the samples
    held, fewer than one sample in a hundred exceeds it, and with a
    hundred samples or fewer it is the largest of them. *)
Theorem X12_P99_bounds_the_samples (t0 : Time) (ops : list metrics.Op) :
  let m := metrics.run ops (metrics.New t0) in
  let N := Z.of_nat (length (metrics.latencies m)) in
  exists d : Duration,
    metrics.P99Latency m = Returned d /\
    (metrics.latencies m = [] -> d = 0) /\
    (metrics.latencies m <> [] ->
       d ∈ metrics.latencies m /\
       100 * Z.of_nat (length (filter (fun x : Z => d < x) (metrics.latencies m))) < N /\
       (N <= 100 -> Forall (fun x : Z => x <= d) (metrics.latencies m))).
Proof.
  intros m N.
  destruct (decide (metrics.latencies m = [])) as [Hnil|Hne].
  - exists 0. split; [| done].
    unfold metrics.P99Latency. rewrite Hnil. done.
  - set (sorted := merge_sort Z.le (metrics.latencies m)).
    assert (Hs : Sorted Z.le sorted) by apply (Sorted_merge_sort Z.le).
    assert (Hp : sorted ≡ₚ metrics.latencies m) by apply merge_sort_Permutation.
    pose proof (latencies_run_length ops t0) as Hcap. fold m in Hcap.
    destruct (P99Latency_spec m sorted Hne Hcap Hs Hp) as (d & Hd & Hret).
    fold N in Hd.
    assert (HN : 1 <= N <= 1000).
    { unfold N. destruct (metrics.latencies m); [done | cbn [length] in *; lia]. }
    assert (Hidx : 0 <= 99 * N / 100 < N).
    { split; [apply Z.div_pos; lia | apply Z.div_lt_upper_bound; lia]. }
    rewrite Z.min_l in Hd by lia.
    pose proof (sorted_above sorted _ d Hs Hd) as Habove.
    assert (Hcount : length (filter (fun x : Z => d < x) (metrics.latencies m))
                     = length (filter (fun x : Z => d < x) sorted)).
    { by rewrite Hp. }
    assert (Hlen : length sorted = length (metrics.latencies m)) by (by rewrite Hp).
    assert (Hfew : 100 * Z.of_nat (length (filter (fun x : Z => d < x)
                                              (metrics.latencies m))) < N).
    { assert (99 * N < 100 * (99 * N / 100) + 100).
      { pose proof (Z.mod_pos_bound (99 * N) 100 ltac:(lia)).
        pose proof (Z.div_mod (99 * N) 100 ltac:(lia)). lia. }
      unfold N, Duration in *. lia. }
    exists d. split; [exact Hret |]. split; [done |]. intros _.
    split; [| split].
    + rewrite <- Hp. by eapply list_elem_of_lookup_2.
    + exact Hfew.
    + intros H100.
      assert (Hnone : filter (fun x : Z => d < x) (metrics.latencies m) = []).
      { apply length_zero_iff_nil. lia. }
      apply Forall_forall. intros x Hx.
      destruct (decide (d < x)) as [Hlt|]; [| lia].
      exfalso. eapply filter_nil_not_elem_of; [exact Hnone | exact Hlt | exact Hx].
Qed.

(** ** Load generator: one request *)

(** X13: what one request of the load generator does and how it is
    counted.  A read is always counted as a success, also when the
    node is Stopped or Suspended and [Get] finds nothing; it changes no
    node.  A write is counted as a failure exactly when the node is not
    Running, and then changes no node; on a Running node it stores
    [ValueSize] bytes under the key and is counted as a success. *)
Theorem X13_request_outcome
    (cfg : client.Config) (p : positive) (key : string) (isWrite : bool)
    (random : list Byte.byte) (latency : Duration) (mt : metrics.Metrics)
    (h : gmap positive node.Node) (n : node.Node)
    (Hlive : h !! p = Some n)
    (Hsize : 0 <= client.ValueSize cfg) :
  let accepted := bool_decide (node.status n = node.StatusRunning) in
  let value := resize (Z.to_nat (client.ValueSize cfg)) Byte.x00 random in
  client.createJob cfg p key isWrite random latency mt h =
    Returned (if isWrite && negb accepted
              then metrics.RecordFailure latency mt
              else metrics.RecordSuccess latency mt,
              if isWrite && accepted
              then <[p := node.set_data (<[key := value]> (node.data n)) n]> h
              else h) /\
  Z.of_nat (length value) = client.ValueSize cfg.
Proof.
  intros accepted value. split.
  - unfold client.createJob, mbind, M_bind.
    destruct isWrite; cbn [andb].
    + rewrite decide_False by lia. unfold call. rewrite Hlive.
      fold value. unfold node.Set_, accepted.
      destruct (decide (node.status n = node.StatusRunning)) as [Hs|Hs].
      * rewrite decide_False by (by intros ?).
        rewrite bool_decide_eq_true_2 by done. done.
      * rewrite decide_True by done.
        rewrite bool_decide_eq_false_2 by done. cbn.
        by rewrite insert_id.
    + unfold query. rewrite Hlive. done.
  - unfold value. rewrite length_resize. lia.
Qed.

Lemma X13_witness :
  client.createJob (client.mkConfig 100) 1%positive "key-7" false [] 250
    (metrics.New 0) heap_1_suspended
  = Returned (metrics.RecordSuccess 250 (metrics.New 0), heap_1_suspended).
Proof.
  assert (Hlive : heap_1_suspended !! 1%positive = Some suspended_node)
    by (vm_compute; reflexivity).
  exact (proj1 (X13_request_outcome (client.mkConfig 100) 1%positive "key-7" false []
                  250 (metrics.New 0) heap_1_suspended suspended_node Hlive
                  ltac:(cbn; lia))).
Defined.

(** ** Chaos injector: targets and effects *)

Section chaos_targets.
Import chaos.

Lemma running_of_filter (h : gmap positive node.Node) ps :
  Forall (fun p => is_Some (h !! p)) ps ->
  running_of ps h =
    Returned (filter (fun p => node.status <$> h !! p = Some node.StatusRunning) ps, h).
Proof.
  induction 1 as [|p ps [n Hn] _ IH]; [done |].
  cbn [running_of]. unfold mbind, M_bind, query. rewrite Hn, IH.
  unfold mret, M_ret, node.Status_of. rewrite filter_cons, Hn. cbn.
  destruct (decide (node.status n = node.StatusRunning)) as [Hs|Hs].
  - rewrite decide_True by congruence. done.
  - rewrite decide_False by congruence. done.
Qed.

End chaos_targets.

(** [selectTargets] step by step, on a registry of live nodes:
    [running] is the slice of the Running nodes of the snapshot. *)
Lemma selectTargets_unfold
    (c : cluster.Cluster) (h : gmap positive node.Node) (nodes : list positive)
    (d : chaos.Draws) (m : chaos.Monkey) :
  cluster.registry_ok c h -> cluster.snapshot c nodes ->
  let running :=
    filter (fun p => node.status <$> h !! p = Some node.StatusRunning) nodes in
  let count := chaos.TargetCount (chaos.config m) in
  let count' :=
    if decide (count > Z.of_nat (length running))
    then Z.of_nat (length running) else count in
  chaos.selectTargets nodes d m h =
    (if decide (length running = 0%nat) then Returned ([], h)
     else if decide (count' < 0) then Panicked
     else Returned (take (Z.to_nat count')
                         (chaos.Shuffle (chaos.shuffle_draws d) running), h)) /\
  Z.of_nat (length running) =
    Z.of_nat (length (cluster.with_status node.StatusRunning c h)) /\
  NoDup running /\
  (forall p, p ∈ running ->
     p ∈ cluster.Nodes c /\ node.status <$> h !! p = Some node.StatusRunning).
Proof.
  intros Hok Hsnap running count count'.
  pose proof (registry_ok_snapshot c h nodes Hok Hsnap) as Hlive.
  unfold cluster.snapshot in Hsnap.
  split; [| split; [| split]].
  - unfold chaos.selectTargets. case_decide as Hn.
    + assert (Hr : length running = 0%nat).
      { pose proof (length_filter
          (fun p => node.status <$> h !! p = Some node.StatusRunning) nodes).
        unfold running. lia. }
      by rewrite decide_True.
    + unfold mbind, M_bind. rewrite running_of_filter by done. fold running.
      case_decide; [done |]. cbv zeta. fold count. fold count'. by case_decide.
  - unfold running, cluster.with_status. by rewrite Hsnap.
  - unfold running. apply NoDup_filter. rewrite Hsnap. by eapply registry_ok_NoDup.
  - intros p Hp. unfold running in Hp.
    apply list_elem_of_filter in Hp as [Hst Hin]. split; [| done].
    by rewrite <- Hsnap.
Qed.

(** The targets of a tick with a count that is not negative. *)
Lemma selectTargets_returns
    (c : cluster.Cluster) (h : gmap positive node.Node) (nodes : list positive)
    (d : chaos.Draws) (m : chaos.Monkey) :
  cluster.registry_ok c h -> cluster.snapshot c nodes ->
  let k := Z.of_nat (length (cluster.with_status node.StatusRunning c h)) in
  let count := chaos.TargetCount (chaos.config m) in
  k = 0 \/ 0 <= count ->
  exists targets,
    chaos.selectTargets nodes d m h = Returned (targets, h) /\
    Z.of_nat (length targets) = Z.max 0 (Z.min count k) /\
    NoDup targets /\
    forall p, p ∈ targets ->
      p ∈ cluster.Nodes c /\
      node.status <$> h !! p = Some node.StatusRunning.
Proof.
  intros Hok Hsnap k count Hcase.
  destruct (selectTargets_unfold c h nodes d m Hok Hsnap) as (Hsel & Hk & Hnd & Hrun).
  cbv zeta in Hsel. fold count in Hsel. fold k in Hk.
  set (running := filter (fun p => node.status <$> h !! p = Some node.StatusRunning)
                         nodes) in *.
  rewrite Hsel. clear Hsel.
  case_decide as Hr.
  { exists []. split; [done |]. split; [cbn; lia |]. split; [constructor |].
    intros p Hp. by apply elem_of_nil in Hp. }
  assert (0 <= count) by lia.
  pose proof (Shuffle_Permutation (chaos.shuffle_draws d) running) as Hperm.
  assert (Hslen : length (chaos.Shuffle (chaos.shuffle_draws d) running)
                  = length running) by (by rewrite Hperm).
  rewrite (decide_False (P := _ < 0)) by (case_decide; lia).
  eexists. split; [reflexivity |]. split; [| split].
  - rewrite length_take, Hslen. case_decide; lia.
  - eapply sublist_NoDup; [| apply sublist_take]. by rewrite Hperm.
  - intros p Hp. apply Hrun. rewrite <- Hperm. eapply subseteq_take. exact Hp.
Qed.

(** X14: [selectTargets] on a registry of live nodes, for every order
    of the snapshot and every outcome of the shuffle.  With [k] nodes
    Running it picks min([TargetCount], [k]) of them, all different,
    all registered and Running, and changes nothing; with none Running
    it picks none.  A negative [TargetCount] makes it panic as soon as
    one node is Running. *)
Theorem X14_selectTargets_picks_running
    (c : cluster.Cluster) (h : gmap positive node.Node) (nodes : list positive)
    (d : chaos.Draws) (m : chaos.Monkey)
    (Hok : cluster.registry_ok c h)
    (Hsnap : cluster.snapshot c nodes) :
  let k := Z.of_nat (length (cluster.with_status node.StatusRunning c h)) in
  let count := chaos.TargetCount (chaos.config m) in
  (0 < k -> count < 0 -> chaos.selectTargets nodes d m h = Panicked) /\
  (k = 0 \/ 0 <= count ->
   exists targets,
     chaos.selectTargets nodes d m h = Returned (targets, h) /\
     Z.of_nat (length targets) = Z.max 0 (Z.min count k) /\
     NoDup targets /\
     forall p, p ∈ targets ->
       p ∈ cluster.Nodes c /\
       node.status <$> h !! p = Some node.StatusRunning).
Proof.
  intros k count. split.
  - intros Hpos Hneg.
    destruct (selectTargets_unfold c h nodes d m Hok Hsnap) as (Hsel & Hk & _).
    cbv zeta in Hsel. fold count in Hsel. fold k in Hk.
    rewrite Hsel. clear Hsel. rewrite decide_False by lia.
    rewrite decide_True; [done |]. case_decide; lia.
  - intros Hcase. by apply (selectTargets_returns c h nodes d m).
Qed.

Lemma registry_ok_2_running : cluster.registry_ok cluster_2 heap_2_running.
Proof.
  intros i p Hi. unfold cluster_2 in Hi. cbn [cluster.nodes] in Hi.
  apply lookup_insert_Some in Hi as [[<- <-]|[Hne Hi]].
  - exists running_node. split; [| reflexivity]. vm_compute. reflexivity.
  - apply lookup_singleton_Some in Hi as [<- <-].
    exists (fst (node.Start (node.New "node-2"))).
    split; [| reflexivity]. vm_compute. reflexivity.
Qed.

Lemma X14_witness :
  exists targets,
    chaos.selectTargets (cluster.Nodes cluster_2) draws_0 (chaos.New kill_two) heap_2_running
      = Returned (targets, heap_2_running) /\
    Z.of_nat (length targets) = 2.
Proof.
  destruct (X14_selectTargets_picks_running cluster_2 heap_2_running
              (cluster.Nodes cluster_2) draws_0 (chaos.New kill_two)
              registry_ok_2_running (snapshot_Nodes cluster_2)) as [_ Hsel].
  destruct Hsel as (targets & Hrun & Hlen & _); [right; cbn; lia |].
  exists targets. split; [exact Hrun | exact Hlen].
Defined.

Section chaos_effects.
Import chaos.

Lemma attack_call_running t cfg n :
  node.status n = node.StatusRunning -> attack_call t cfg n = attacked t cfg n.
Proof.
  intros Hs. destruct t; cbn; [| | done].
  - unfold node.Stop. rewrite decide_False by congruence. done.
  - unfold node.Suspend. rewrite decide_False by (intros H; by apply H). done.
Qed.

Lemma attack_call_frame t cfg n :
  node.id (attack_call t cfg n) = node.id n /\
  node.data (attack_call t cfg n) = node.data n.
Proof.
  destruct t; cbn; unfold node.Stop, node.Suspend; repeat case_decide; done.
Qed.

Lemma tracks_refl now ids : tracks now ids ids.
Proof. intros i. by left. Qed.

Lemma tracks_insert now before after i :
  tracks now before after -> tracks now before (<[i := now]> after).
Proof.
  intros Ht j. destruct (decide (j = i)) as [->|Hne].
  - right. apply lookup_insert_eq.
  - rewrite lookup_insert_ne by done. apply Ht.
Qed.

Lemma executeAttack_heap p t now m (h : gmap positive node.Node) n :
  h !! p = Some n ->
  exists m',
    executeAttack p t now m h = Returned (m', <[p := attack_call t (config m) n]> h) /\
    config m' = config m /\
    attackCount m' = attackCount m /\
    lastAttack m' = lastAttack m /\
    (t <> AttackSuspend -> suspendedIDs m' = suspendedIDs m) /\
    (suspendedIDs m' = suspendedIDs m \/
     suspendedIDs m' = <[node.id n := now]> (suspendedIDs m)) /\
    (t = AttackSuspend -> node.status n = node.StatusRunning ->
     suspendedIDs m' = <[node.id n := now]> (suspendedIDs m)).
Proof.
  intros Hn.
  destruct t; cbn [executeAttack attack_call].
  - unfold attackKill, mbind, M_bind, call, query. rewrite Hn.
    unfold node.Stop. case_decide as Hs; cbn [fst snd node.errorf];
      rewrite ?lookup_insert_eq; (eexists; split; [reflexivity |]);
      repeat split; try done; by left.
  - unfold attackSuspend, mbind, M_bind, call, query. rewrite Hn.
    unfold node.Suspend. case_decide as Hs; cbn [fst snd node.errorf];
      rewrite ?lookup_insert_eq; (eexists; split; [reflexivity |]);
      repeat split; try done; try (by left); by right.
  - unfold attackDelay, mbind, M_bind, call, query. rewrite Hn. cbn [fst snd].
    rewrite lookup_insert_eq. eexists. split; [reflexivity |].
    repeat split; try done. by left.
Qed.

Lemma executeAttacks_heap t now targets : forall m (h : gmap positive node.Node),
  Forall (fun p => is_Some (h !! p)) targets -> NoDup targets ->
  exists m' h',
    executeAttacks targets t now m h = Returned (m', h') /\
    config m' = config m /\
    attackCount m' = attackCount m /\
    lastAttack m' = lastAttack m /\
    (t <> AttackSuspend -> suspendedIDs m' = suspendedIDs m) /\
    tracks now (suspendedIDs m) (suspendedIDs m') /\
    (t = AttackSuspend ->
     forall p n, p ∈ targets -> h !! p = Some n ->
       node.status n = node.StatusRunning ->
       suspendedIDs m' !! node.id n = Some now) /\
    forall p, h' !! p =
      (fun n => if decide (p ∈ targets) then attack_call t (config m) n else n)
        <$> h !! p.
Proof.
  induction targets as [|p ps IH]; intros m h Hlive Hnd.
  - exists m, h. cbn. repeat split; try done.
    + apply tracks_refl.
    + intros _ p n Hp. by apply elem_of_nil in Hp.
    + intros p. destruct (h !! p); cbn; [| done].
      rewrite decide_False by (by intros ?%elem_of_nil). done.
  - apply Forall_cons in Hlive as [[n Hn] Hlive].
    apply NoDup_cons in Hnd as [Hp Hnd].
    destruct (executeAttack_heap p t now m h n Hn)
      as (m1 & Hrun1 & Hcfg1 & Hcnt1 & Hlast1 & Hids1 & Hor1 & Hsus1).
    set (h1 := <[p := attack_call t (config m) n]> h) in *.
    assert (Hlive1 : Forall (fun q => is_Some (h1 !! q)) ps).
    { eapply Forall_impl; [exact Hlive |]. intros q Hq. unfold h1.
      destruct (decide (q = p)) as [->|Hne].
      - rewrite lookup_insert_eq. by eexists.
      - by rewrite lookup_insert_ne. }
    destruct (IH m1 h1 Hlive1 Hnd)
      as (m' & h' & Hrun & Hcfg & Hcnt & Hlast & Hids & Htr & Hsus & Hh').
    exists m', h'. cbn [executeAttacks]. unfold mbind, M_bind. rewrite Hrun1.
    split; [exact Hrun |]. split; [congruence |]. split; [congruence |].
    split; [congruence |]. split; [intros Ht; rewrite Hids, Hids1 by done; done |].
    split; [| split].
    + intros i. destruct (Htr i) as [Hi|Hi]; [| by right].
      rewrite Hi. destruct Hor1 as [->| ->]; [by left |].
      destruct (decide (i = node.id n)) as [->|Hne].
      * right. apply lookup_insert_eq.
      * left. by rewrite lookup_insert_ne.
    + intros Ht q nq Hq Hnq Hrunning.
      apply elem_of_cons in Hq as [->|Hq].
      * assert (nq = n) as -> by congruence.
        destruct (Htr (node.id n)) as [Hi|Hi]; [| done].
        rewrite Hi, (Hsus1 Ht Hrunning). apply lookup_insert_eq.
      * apply (Hsus Ht q nq Hq); [| done].
        unfold h1. rewrite lookup_insert_ne; [done |]. intros ->. done.
    + intros q. rewrite Hh'. unfold h1. rewrite Hcfg1.
      destruct (decide (q = p)) as [->|Hne].
      * rewrite lookup_insert_eq, Hn. cbn.
        rewrite decide_False by done.
        rewrite decide_True by (by apply elem_of_cons; left). done.
      * rewrite lookup_insert_ne by done.
        destruct (h !! q); cbn; [| done].
        destruct (decide (q ∈ ps)).
        -- rewrite decide_True by (by apply elem_of_cons; right). done.
        -- rewrite decide_False; [done |].
           intros [?|?]%elem_of_cons; done.
Qed.

Lemma selectAttackType_elem d m :
  selectAttackType d m ∈ AttackTypes (config m) \/
  (AttackTypes (config m) = [] /\ selectAttackType d m = AttackKill).
Proof.
  unfold selectAttackType.
  destruct (AttackTypes (config m)) as [|t0 ts] eqn:Hts; [by right |].
  left. apply list_elem_of_In, nth_In.
  apply Nat.mod_upper_bound. done.
Qed.

End chaos_effects.

(** X15: one tick of the injector on a registry of live nodes, with a
    [TargetCount] that is not negative.  The tick returns.  The nodes
    it selected, all Running, are Stopped by a kill, Suspended by a
    suspend, and given the configured delay by a delay, and nothing
    else about them changes; every other node, and so every node that
    was not Running, is left exactly as it was.  No node loses its
    identity or its store.  A suspend files each target in the tracking
    map with the time of the tick; the other attacks leave the map
    alone.  The attack is one of the configured types (a kill when none
    is configured). *)
Theorem X15_attack_tick_effect
    (c : cluster.Cluster) (h : gmap positive node.Node) (nodes : list positive)
    (d : chaos.Draws) (now : Time) (m : chaos.Monkey)
    (Hok : cluster.registry_ok c h)
    (Hsnap : cluster.snapshot c nodes)
    (Hcount : 0 <= chaos.TargetCount (chaos.config m)) :
  let t := chaos.selectAttackType d m in
  exists targets m' h',
    chaos.selectTargets nodes d m h = Returned (targets, h) /\
    chaos.attack nodes d now m h = Returned (m', h') /\
    (forall p, h' !! p =
       (fun n => if decide (p ∈ targets)
                 then chaos.attacked t (chaos.config m) n else n) <$> h !! p) /\
    (forall p n, h !! p = Some n ->
       exists n', h' !! p = Some n' /\
         node.id n' = node.id n /\ node.data n' = node.data n /\
         (node.status n <> node.StatusRunning -> n' = n)) /\
    cluster.registry_ok c h' /\
    chaos.config m' = chaos.config m /\
    (t = chaos.AttackSuspend ->
     forall p n, p ∈ targets -> h !! p = Some n ->
       chaos.suspendedIDs m' !! node.id n = Some now) /\
    (t <> chaos.AttackSuspend -> chaos.suspendedIDs m' = chaos.suspendedIDs m) /\
    (t ∈ chaos.AttackTypes (chaos.config m) \/
     (chaos.AttackTypes (chaos.config m) = [] /\ t = chaos.AttackKill)).
Proof.
  intros t.
  destruct (selectTargets_returns c h nodes d m Hok Hsnap)
    as (targets & Hsel & _ & Hnd & Htargets); [by right |].
  assert (Hlive : Forall (fun p => is_Some (h !! p)) targets).
  { apply Forall_forall. intros p Hp. destruct (Htargets p Hp) as [_ Hs].
    destruct (h !! p); [by eexists | done]. }
  assert (Hframe : forall (h' : gmap positive node.Node),
    (forall p, h' !! p =
       (fun n => if decide (p ∈ targets)
                 then chaos.attacked t (chaos.config m) n else n) <$> h !! p) ->
    (forall p n, h !! p = Some n ->
       exists n', h' !! p = Some n' /\
         node.id n' = node.id n /\ node.data n' = node.data n /\
         (node.status n <> node.StatusRunning -> n' = n)) /\
    cluster.registry_ok c h').
  { intros h' Hh'.
    assert (Hpt : forall p n, h !! p = Some n ->
       exists n', h' !! p = Some n' /\
         node.id n' = node.id n /\ node.data n' = node.data n /\
         (node.status n <> node.StatusRunning -> n' = n)).
    { intros p n Hn. rewrite Hh', Hn. cbn. eexists. split; [reflexivity |].
      case_decide as Hin; [| done].
      destruct (Htargets p Hin) as [_ Hs]. rewrite Hn in Hs. cbn in Hs.
      destruct t; cbn; repeat split; try done; intros Hne; congruence. }
    split; [exact Hpt |].
    intros i p Hi. destruct (Hok _ _ Hi) as (n & Hn & Hid).
    destruct (Hpt p n Hn) as (n' & Hn' & Hid' & _). exists n'. split; [done | congruence]. }
  exists targets. unfold chaos.attack, mbind, M_bind. rewrite Hsel.
  case_decide as Hempty.
  - apply length_zero_iff_nil in Hempty. subst targets.
    assert (Hh : forall p, h !! p =
       (fun n => if decide (p ∈ @nil positive)
                 then chaos.attacked t (chaos.config m) n else n) <$> h !! p).
    { intros p. destruct (h !! p); cbn; [| done].
      rewrite decide_False by (by intros ?%elem_of_nil). done. }
    destruct (Hframe h Hh) as [Hpt Hok'].
    exists m, h. split; [done |]. split; [done |]. split; [exact Hh |].
    split; [exact Hpt |]. split; [exact Hok' |]. split; [done |].
    split; [intros _ p n Hp; by apply elem_of_nil in Hp |].
    split; [done |]. apply selectAttackType_elem.
  - destruct (executeAttacks_heap t now targets m h Hlive Hnd)
      as (m1 & h' & Hrun & Hcfg & _ & _ & Hids & _ & Hsus & Hh').
    fold t. rewrite Hrun.
    assert (Hh : forall p, h' !! p =
       (fun n => if decide (p ∈ targets)
                 then chaos.attacked t (chaos.config m) n else n) <$> h !! p).
    { intros p. rewrite Hh'. destruct (h !! p) as [n|] eqn:Hn; cbn; [| done].
      case_decide as Hin; [| done]. f_equal.
      apply attack_call_running.
      destruct (Htargets p Hin) as [_ Hs]. rewrite Hn in Hs. cbn in Hs. congruence. }
    destruct (Hframe h' Hh) as [Hpt Hok'].
    eexists _, h'. split; [done |]. split; [reflexivity |].
    cbn [chaos.config chaos.suspendedIDs].
    split; [exact Hh |]. split; [exact Hpt |]. split; [exact Hok' |].
    split; [exact Hcfg |]. split; [| split; [exact Hids | apply selectAttackType_elem]].
    intros Ht p n Hp Hn. apply (Hsus Ht p n Hp Hn).
    destruct (Htargets p Hp) as [_ Hs]. rewrite Hn in Hs. cbn in Hs. congruence.
Qed.

Lemma X15_witness :
  exists targets m' h',
    chaos.selectTargets (cluster.Nodes cluster_2) draws_0 (chaos.New kill_two)
      heap_2_running = Returned (targets, heap_2_running) /\
    chaos.attack (cluster.Nodes cluster_2) draws_0 at_1s (chaos.New kill_two)
      heap_2_running = Returned (m', h') /\
    cluster.registry_ok cluster_2 h'.
Proof.
  destruct (X15_attack_tick_effect cluster_2 heap_2_running (cluster.Nodes cluster_2)
              draws_0 at_1s (chaos.New kill_two)
              registry_ok_2_running (snapshot_Nodes cluster_2) ltac:(cbn; lia))
    as (targets & m' & h' & Hsel & Hatt & _ & _ & Hok & _).
  exists targets, m', h'. split; [exact Hsel |]. split; [exact Hatt | exact Hok].
Defined.

(** ** Chaos injector: the auto-resume loop *)

Section chaos_resume.
Import chaos.

Lemma Resume_resumed n : fst (node.Resume n) = resumed n.
Proof.
  unfold node.Resume, resumed.
  destruct (decide (node.status n = node.StatusSuspended)) as [Hs|Hs].
  - rewrite decide_False by (intros H; by apply H). done.
  - rewrite decide_True by done. done.
Qed.

Lemma resumed_idemp n : resumed (resumed n) = resumed n.
Proof.
  unfold resumed. destruct (decide (node.status n = node.StatusSuspended)) as [Hs|Hs].
  - rewrite decide_False; [done |]. cbn. discriminate.
  - by rewrite decide_False.
Qed.

Lemma resumed_frame n :
  node.id (resumed n) = node.id n /\
  node.data (resumed n) = node.data n /\
  node.delay (resumed n) = node.delay n /\
  (node.status n <> node.StatusSuspended -> resumed n = n).
Proof. unfold resumed. case_decide; done. Qed.

Lemma resumed_at_nil h : resumed_at [] h h.
Proof.
  intros p. destruct (h !! p); cbn; [| done].
  rewrite decide_False by (by intros ?%elem_of_nil). done.
Qed.

Lemma resumed_at_cons p ps (h h' : gmap positive node.Node) n :
  h !! p = Some n ->
  resumed_at ps (<[p := resumed n]> h) h' ->
  resumed_at (p :: ps) h h'.
Proof.
  intros Hn Hh' q. rewrite Hh'.
  destruct (decide (q = p)) as [->|Hne].
  - rewrite lookup_insert_eq, Hn. cbn.
    rewrite (decide_True (P := p ∈ p :: ps)) by (by apply elem_of_cons; left).
    case_decide; [by rewrite resumed_idemp | done].
  - rewrite lookup_insert_ne by done.
    destruct (h !! q); cbn; [| done].
    destruct (decide (q ∈ ps)).
    + rewrite decide_True by (by apply elem_of_cons; right). done.
    + rewrite decide_False; [done |]. intros [?|?]%elem_of_cons; done.
Qed.

Lemma resumed_at_ext ps1 ps2 (h h' : gmap positive node.Node) :
  (forall p, p ∈ ps1 <-> p ∈ ps2) -> resumed_at ps1 h h' -> resumed_at ps2 h h'.
Proof.
  intros Hiff Hh' p. rewrite Hh'. destruct (h !! p); cbn; [| done].
  destruct (decide (p ∈ ps1)) as [H1|H1].
  - rewrite decide_True by (by apply Hiff). done.
  - rewrite decide_False; [done |]. intros H2. by apply H1, Hiff.
Qed.

Lemma resumed_at_frame c ps (h h' : gmap positive node.Node) :
  cluster.registry_ok c h -> resumed_at ps h h' ->
  cluster.registry_ok c h' /\
  forall p n, h !! p = Some n ->
    exists n', h' !! p = Some n' /\
      node.id n' = node.id n /\ node.data n' = node.data n /\
      node.delay n' = node.delay n /\
      (node.status n <> node.StatusSuspended -> n' = n).
Proof.
  intros Hok Hh'.
  assert (Hpt : forall p n, h !! p = Some n ->
    exists n', h' !! p = Some n' /\
      node.id n' = node.id n /\ node.data n' = node.data n /\
      node.delay n' = node.delay n /\
      (node.status n <> node.StatusSuspended -> n' = n)).
  { intros p n Hn. rewrite Hh', Hn. cbn. eexists. split; [reflexivity |].
    case_decide; [apply resumed_frame | done]. }
  split; [| exact Hpt].
  intros i p Hi. destruct (Hok _ _ Hi) as (n & Hn & Hid).
  destruct (Hpt p n Hn) as (n' & Hn' & Hid' & _). exists n'. split; [done | congruence].
Qed.

Lemma registry_ok_resumed c (h : gmap positive node.Node) p n :
  cluster.registry_ok c h -> h !! p = Some n ->
  cluster.registry_ok c (<[p := resumed n]> h).
Proof.
  intros Hok Hn i q Hi. destruct (Hok _ _ Hi) as (nq & Hnq & Hid).
  destruct (decide (q = p)) as [->|Hne].
  - rewrite lookup_insert_eq. eexists. split; [reflexivity |].
    destruct (resumed_frame n) as [-> _]. congruence.
  - rewrite lookup_insert_ne by done. by exists nq.
Qed.

Lemma resume_ids_spec c ids : forall (h : gmap positive node.Node),
  cluster.registry_ok c h ->
  exists h',
    resume_ids c ids h = Returned (tt, h') /\
    resumed_at (omap (cluster.GetNode c) ids) h h'.
Proof.
  induction ids as [|i ids IH]; intros h Hok.
  - exists h. split; [done | apply resumed_at_nil].
  - cbn [resume_ids omap list_omap]. unfold mbind, M_bind.
    unfold cluster.GetNode in *.
    destruct (cluster.nodes c !! i) as [p|] eqn:Hi.
    + destruct (Hok _ _ Hi) as (n & Hn & Hid).
      unfold call. rewrite Hn. rewrite Resume_resumed. cbn [mret M_ret].
      destruct (IH _ (registry_ok_resumed c h p n Hok Hn)) as (h' & Hrun & Hh').
      exists h'. split; [exact Hrun |]. by eapply resumed_at_cons.
    + cbn [mret M_ret]. apply IH, Hok.
Qed.

Lemma resume_entries_spec c now m0 entries : forall m (h : gmap positive node.Node),
  config m = config m0 ->
  cluster.registry_ok c h ->
  exists m' h',
    resume_entries c now entries m h = Returned (m', h') /\
    config m' = config m /\
    attackCount m' = attackCount m /\
    attackByType m' = attackByType m /\
    lastAttack m' = lastAttack m /\
    (forall i, suspendedIDs m' !! i =
       if decide (i ∈ due_keys now m0 entries) then None else suspendedIDs m !! i) /\
    resumed_at (due_among c now m0 entries) h h'.
Proof.
  induction entries as [|[i t] entries IH]; intros m h Hcfg Hok.
  - exists m, h. cbn. repeat split; try done. apply resumed_at_nil.
  - cbn [resume_entries]. unfold mbind, M_bind.
    unfold due_among, due_keys. cbn [omap list_omap fst snd].
    rewrite filter_cons. cbn [snd].
    fold (due_among c now m0 entries).
    unfold resume_entry, expired. rewrite Hcfg.
    destruct (decide (Time_Sub now t >= SuspendTime (config m0))) as [Hdue|Hdue];
      [rewrite !(bool_decide_eq_true_2 (Time_Sub now t >= SuspendTime (config m0))) by done;
       rewrite (decide_True (P := true = true)) by done
      |rewrite !(bool_decide_eq_false_2 (Time_Sub now t >= SuspendTime (config m0))) by done;
       rewrite (decide_False (P := false = true)) by done];
      change (filter _ entries).*1 with (due_keys now m0 entries).
    + unfold mbind, M_bind, cluster.GetNode in *.
      destruct (cluster.nodes c !! i) as [p|] eqn:Hi.
      * destruct (Hok _ _ Hi) as (n & Hn & Hid).
        unfold call. rewrite Hn. rewrite Resume_resumed. cbn [mret M_ret].
        set (m1 := mkMonkey _ _ _ _ _ _).
        assert (Hm1 : config m1 = config m /\ attackCount m1 = attackCount m /\
                      attackByType m1 = attackByType m /\ lastAttack m1 = lastAttack m /\
                      suspendedIDs m1 = delete i (suspendedIDs m)).
        { unfold m1. destruct (snd (node.Resume n)); done. }
        destruct Hm1 as (Hc1 & Ha1 & Hb1 & Hl1 & Hs1).
        destruct (IH m1 _ ltac:(congruence) (registry_ok_resumed c h p n Hok Hn))
          as (m' & h' & Hrun & Hc & Ha & Hb & Hl & Hs & Hh').
        exists m', h'. split; [exact Hrun |].
        split; [congruence |]. split; [congruence |]. split; [congruence |].
        split; [congruence |]. split; [| by eapply resumed_at_cons].
        intros j. rewrite Hs, Hs1. cbn [fmap list_fmap fst].
        destruct (decide (j = i)) as [->|Hne].
        -- rewrite lookup_delete_eq.
           rewrite (decide_True (P := i ∈ i :: _)) by (by apply elem_of_cons; left).
           by case_decide.
        -- rewrite lookup_delete_ne by done.
           destruct (decide (j ∈ due_keys now m0 entries)) as [Hin|Hin].
           ++ rewrite decide_True by (by apply elem_of_cons; right). done.
           ++ rewrite decide_False; [done |]. intros [?|?]%elem_of_cons; done.
      * cbn [mret M_ret].
        set (m1 := mkMonkey _ _ _ _ _ _).
        destruct (IH m1 h ltac:(done) Hok)
          as (m' & h' & Hrun & Hc & Ha & Hb & Hl & Hs & Hh').
        exists m', h'. split; [exact Hrun |].
        split; [rewrite Hc; exact Hcfg |]. split; [exact Ha |]. split; [exact Hb |].
        split; [exact Hl |]. split; [| exact Hh'].
        intros j. rewrite Hs. unfold m1. cbn [suspendedIDs fmap list_fmap fst].
        destruct (decide (j = i)) as [->|Hne].
        -- rewrite lookup_delete_eq.
           rewrite (decide_True (P := i ∈ i :: _)) by (by apply elem_of_cons; left).
           by case_decide.
        -- rewrite lookup_delete_ne by done.
           destruct (decide (j ∈ due_keys now m0 entries)) as [Hin|Hin].
           ++ rewrite decide_True by (by apply elem_of_cons; right). done.
           ++ rewrite decide_False; [done |]. intros [?|?]%elem_of_cons; done.
    + cbn [mret M_ret].
      destruct (IH m h Hcfg Hok) as (m' & h' & Hrun & Hc & Ha & Hb & Hl & Hs & Hh').
      exists m', h'. split; [exact Hrun |].
      split; [rewrite Hc; exact Hcfg |]. done.
Qed.

End chaos_resume.

(** X16: one round of the auto-resume loop on a registry of live
    nodes, whatever the order in which the tracking map is met.  The
    round returns.  An entry stays in the map exactly when its
    suspension is younger than [SuspendTime]; the others are dropped,
    whether their node could be resumed or not.  [Resume] is called on
    the nodes registered under a dropped identity: those still
    Suspended become Running, and every other node is left exactly as
    it was.  No node loses its identity, its store or its delay, and
    the attack counters are not touched. *)
Theorem X16_checkAndResume_round
    (c : cluster.Cluster) (h : gmap positive node.Node)
    (entries : list (string * Time)) (now : Time) (m : chaos.Monkey)
    (Hok : cluster.registry_ok c h)
    (Hentries : chaos.suspended_entries m entries) :
  exists m' h',
    chaos.checkAndResume c entries now m h = Returned (m', h') /\
    chaos.suspendedIDs m' =
      filter (fun kv => chaos.expired now m (snd kv) = false) (chaos.suspendedIDs m) /\
    (forall p, h' !! p =
       (fun n => if decide (p ∈ chaos.due c now m) then chaos.resumed n else n)
         <$> h !! p) /\
    cluster.registry_ok c h' /\
    (forall p n, h !! p = Some n ->
       exists n', h' !! p = Some n' /\
         node.id n' = node.id n /\ node.data n' = node.data n /\
         node.delay n' = node.delay n /\
         (node.status n <> node.StatusSuspended -> n' = n)) /\
    chaos.config m' = chaos.config m /\
    chaos.attackCount m' = chaos.attackCount m /\
    chaos.attackByType m' = chaos.attackByType m.
Proof.
  unfold chaos.checkAndResume, chaos.suspended_entries in *.
  destruct (resume_entries_spec c now m entries m h eq_refl Hok)
    as (m' & h' & Hrun & Hc & Ha & Hb & _ & Hs & Hh').
  assert (Hdue : chaos.resumed_at (chaos.due c now m) h h').
  { eapply resumed_at_ext; [| exact Hh'].
    intros p. unfold chaos.due, chaos.due_among. by rewrite Hentries. }
  destruct (resumed_at_frame c _ h h' Hok Hdue) as [Hok' Hframe].
  exists m', h'. split; [exact Hrun |]. split; [| done].
  apply map_eq. intros i. rewrite Hs.
  destruct (chaos.suspendedIDs m !! i) as [t|] eqn:Hi.
  - assert (Hin : (i, t) ∈ entries).
    { rewrite Hentries. by apply elem_of_map_to_list. }
    destruct (chaos.expired now m t) eqn:Hexp.
    + rewrite decide_True.
      * symmetry. apply map_lookup_filter_None. right. intros t' Hi'.
        cbn. assert (t' = t) as -> by congruence. by rewrite Hexp.
      * unfold chaos.due_keys. apply list_elem_of_fmap. exists (i, t).
        split; [done |]. apply list_elem_of_filter. done.
    + rewrite decide_False.
      * symmetry. apply map_lookup_filter_Some. done.
      * unfold chaos.due_keys. intros Hk.
        apply list_elem_of_fmap in Hk as [[i' t'] [Heq Hk]]. cbn in Heq. subst i'.
        apply list_elem_of_filter in Hk as [Ht' Hk]. cbn in Ht'.
        rewrite Hentries in Hk. apply elem_of_map_to_list in Hk.
        assert (t' = t) as -> by congruence. congruence.
  - assert (Hnone : filter (fun kv => chaos.expired now m (snd kv) = false)
                      (chaos.suspendedIDs m) !! i = None).
    { apply map_lookup_filter_None. by left. }
    rewrite Hnone. by case_decide.
Qed.

Lemma X16_witness :
  exists m' h',
    chaos.checkAndResume cluster_1 [("node-1", at_1s)] at_5s
      (chaos.mkMonkey chaos.DefaultConfig None 1 {[ chaos.AttackSuspend := 1 ]} at_1s
                      {[ "node-1" := at_1s ]})
      heap_1_suspended = Returned (m', h') /\
    cluster.registry_ok cluster_1 h'.
Proof.
  destruct (X16_checkAndResume_round cluster_1 heap_1_suspended [("node-1", at_1s)] at_5s
              (chaos.mkMonkey chaos.DefaultConfig None 1 {[ chaos.AttackSuspend := 1 ]} at_1s
                              {[ "node-1" := at_1s ]})
              registry_ok_1)
    as (m' & h' & Hrun & _ & _ & Hok & _).
  { unfold chaos.suspended_entries. cbn [chaos.suspendedIDs].
    by rewrite map_to_list_singleton. }
  exists m', h'. split; [exact Hrun | exact Hok].
Defined.

(** X17: [resumeAll], which [Stop] runs last, on a registry of live
    nodes.  It returns and empties the tracking map.  [Resume] is
    called on every node registered under a tracked identity: those
    that are Suspended become Running, so none of them is Suspended
    afterwards; every other node is left exactly as it was, and no node
    loses its identity, its store or its delay. *)
Theorem X17_resumeAll_on_stop
    (c : cluster.Cluster) (h : gmap positive node.Node)
    (ids : list string) (m : chaos.Monkey)
    (Hok : cluster.registry_ok c h)
    (Hids : ids ≡ₚ (map_to_list (chaos.suspendedIDs m)).*1) :
  exists h',
    chaos.resumeAll c ids m h =
      Returned (chaos.mkMonkey (chaos.config m) (chaos.eventBus m) (chaos.attackCount m)
                               (chaos.attackByType m) (chaos.lastAttack m) ∅, h') /\
    (forall p, h' !! p =
       (fun n => if decide (p ∈ chaos.tracked c m) then chaos.resumed n else n)
         <$> h !! p) /\
    cluster.registry_ok c h' /\
    (forall p n, h !! p = Some n ->
       exists n', h' !! p = Some n' /\
         node.id n' = node.id n /\ node.data n' = node.data n /\
         node.delay n' = node.delay n /\
         (node.status n <> node.StatusSuspended -> n' = n)) /\
    (forall i p, is_Some (chaos.suspendedIDs m !! i) -> cluster.GetNode c i = Some p ->
       exists n', h' !! p = Some n' /\ node.status n' <> node.StatusSuspended).
Proof.
  destruct (resume_ids_spec c ids h Hok) as (h' & Hrun & Hh').
  assert (Htr : chaos.resumed_at (chaos.tracked c m) h h').
  { eapply resumed_at_ext; [| exact Hh'].
    intros p. unfold chaos.tracked. by rewrite Hids. }
  destruct (resumed_at_frame c _ h h' Hok Htr) as [Hok' Hframe].
  exists h'. split; [| split; [exact Htr | split; [exact Hok' | split; [exact Hframe |]]]].
  - unfold chaos.resumeAll, mbind, M_bind. by rewrite Hrun.
  - intros i p [t Hi] Hp.
    assert (Hin : p ∈ chaos.tracked c m).
    { unfold chaos.tracked. apply list_elem_of_omap. exists i. split; [| done].
      apply list_elem_of_fmap. exists (i, t). split; [done |].
      by apply elem_of_map_to_list. }
    unfold cluster.GetNode in Hp. destruct (Hok _ _ Hp) as (n & Hn & _).
    rewrite Htr, Hn. cbn. rewrite decide_True by done.
    eexists. split; [reflexivity |].
    unfold chaos.resumed. case_decide as Hs; [cbn; discriminate | exact Hs].
Qed.

Lemma X17_witness :
  exists h',
    chaos.resumeAll cluster_1 ["node-1"]
      (chaos.mkMonkey chaos.DefaultConfig None 1 {[ chaos.AttackSuspend := 1 ]} at_1s
                      {[ "node-1" := at_1s ]})
      heap_1_suspended
    = Returned (chaos.mkMonkey chaos.DefaultConfig None 1 {[ chaos.AttackSuspend := 1 ]}
                               at_1s ∅, h') /\
    cluster.registry_ok cluster_1 h'.
Proof.
  destruct (X17_resumeAll_on_stop cluster_1 heap_1_suspended ["node-1"]
              (chaos.mkMonkey chaos.DefaultConfig None 1 {[ chaos.AttackSuspend := 1 ]} at_1s
                              {[ "node-1" := at_1s ]})
              registry_ok_1)
    as (h' & Hrun & _ & Hok & _).
  { cbn [chaos.suspendedIDs]. by rewrite map_to_list_singleton. }
  exists h'. split; [exact Hrun | exact Hok].
Defined.

(** ** Recovery supervisor: what a health check does to the nodes *)

Section recovery_frame.
Import recovery.

Lemma tended_refl n : tended n n.
Proof. unfold tended. tauto. Qed.

Lemma tended_trans n1 n2 n3 : tended n1 n2 -> tended n2 n3 -> tended n1 n3.
Proof.
  unfold tended. intros (Hi1 & Hd1 & Hs1 & Hl1) (Hi2 & Hd2 & Hs2 & Hl2).
  repeat split; try congruence.
  - destruct Hs2 as [Hs2|Hs2]; [rewrite Hs2; exact Hs1 | by right].
  - destruct Hl2 as [Hl2|Hl2]; [rewrite Hl2; exact Hl1 | by right].
Qed.

Lemma handleRunningNode_frame n state now m :
  let r := handleRunningNode n state now m in
  tended n (fst (fst r)) /\
  config (snd r) = config m /\
  nodeStates (snd r) = nodeStates m /\
  RetryCount (snd (fst r)) = 0.
Proof.
  unfold handleRunningNode. cbv zeta. cbn [fst snd].
  split; [| split; [| split]].
  - unfold tended, node.SetDelay.
    destruct (ClearDelay (config m) && bool_decide (node.Delay n > 0)); cbn; tauto.
  - destruct (negb (IsRecovered state) && bool_decide (RetryCount state > 0)); done.
  - destruct (negb (IsRecovered state) && bool_decide (RetryCount state > 0)); done.
  - done.
Qed.

Lemma handleStoppedNode_frame n state now m :
  let r := handleStoppedNode n state now m in
  tended n (fst (fst r)) /\
  config (snd r) = config m /\
  nodeStates (snd r) = nodeStates m /\
  (RetryCount (snd (fst r)) = RetryCount state \/
   (RetryCount (snd (fst r)) = int_inc (RetryCount state) /\
    (MaxRetries (config m) > 0 -> RetryCount state < MaxRetries (config m)))).
Proof.
  unfold handleStoppedNode. cbv zeta.
  destruct (negb (AutoRestart (config m))); [cbn; auto using tended_refl |].
  destruct (IsZero (FailedAt state)); [cbn; auto using tended_refl |].
  destruct (bool_decide (Time_Sub now (FailedAt state) < RecoveryDelay (config m)));
    [cbn; auto using tended_refl |].
  destruct (bool_decide (MaxRetries (config m) > 0)) eqn:Hmax;
    destruct (bool_decide (RetryCount state >= MaxRetries (config m))) eqn:Hge;
    cbn [andb]; try (cbn; auto using tended_refl; fail).
  all: assert (Hbudget : MaxRetries (config m) > 0 ->
                         RetryCount state < MaxRetries (config m))
         by (apply bool_decide_eq_false in Hge || apply bool_decide_eq_false in Hmax; lia).
  all: unfold node.Start;
       destruct (decide (node.status n = node.StatusRunning)) as [Hs|Hs];
       unfold node.errorf; cbn [fst snd];
       (split; [unfold tended; cbn; tauto |]);
       (split; [done |]); (split; [done |]);
       right; (split; [done | exact Hbudget]).
Qed.

Lemma handleSuspendedNode_frame n state now m :
  let r := handleSuspendedNode n state now m in
  tended n (fst (fst r)) /\
  config (snd r) = config m /\
  nodeStates (snd r) = nodeStates m.
Proof.
  unfold handleSuspendedNode. cbv zeta.
  destruct (negb (AutoResume (config m))); [cbn; auto using tended_refl |].
  destruct (IsZero (FailedAt state)); [cbn; auto using tended_refl |].
  destruct (bool_decide (Time_Sub now (FailedAt state) < RecoveryDelay (config m)));
    [cbn; auto using tended_refl |].
  unfold node.Resume;
    destruct (decide (node.status n <> node.StatusSuspended)) as [Hs|Hs];
    unfold node.errorf; cbn [fst snd];
    (split; [unfold tended; cbn; tauto | done]).
Qed.

(** One check of one node: the node is tended, the configuration is
    kept, and the tracking map changes at the node's identity only. *)
Lemma checkNode_frame p now m (h : gmap positive node.Node) n :
  h !! p = Some n ->
  exists n' state' m',
    checkNode p now m h =
      Returned (mkManager (config m) (eventBus m')
                          (<[node.id n := state']> (nodeStates m)) (stats m'),
                <[p := n']> h) /\
    tended n n' /\
    (node.status n = node.StatusRunning -> RetryCount state' = 0) /\
    (node.status n = node.StatusSuspended -> AutoResume (config m) = false ->
     state' = default (mkNodeState now Time_zero 0 false) (nodeStates m !! node.id n)) /\
    (node.status n = node.StatusStopped ->
     let state := default (mkNodeState now Time_zero 0 false)
                          (nodeStates m !! node.id n) in
     RetryCount state' = RetryCount state \/
     (RetryCount state' = int_inc (RetryCount state) /\
      (MaxRetries (config m) > 0 -> RetryCount state < MaxRetries (config m)))).
Proof.
  intros Hn. unfold checkNode. rewrite Hn. unfold node.ID, node.Status_of.
  set (state := match nodeStates m !! node.id n with
                | Some state => state
                | None => mkNodeState now Time_zero 0 false
                end).
  assert (Hstate : state = default (mkNodeState now Time_zero 0 false)
                             (nodeStates m !! node.id n)).
  { unfold state. by destruct (nodeStates m !! node.id n). }
  destruct (node.status n) eqn:Hs.
  - pose proof (handleStoppedNode_frame n state now m) as Hf. cbv zeta in Hf.
    destruct (handleStoppedNode n state now m) as [[n' state'] m'].
    cbn [fst snd] in Hf. destruct Hf as (Ht & Hc & Hm & Hr).
    exists n', state', m'. rewrite Hc, Hm. split; [done |]. split; [done |].
    split; [done |]. split; [done |]. intros _. cbv zeta. by rewrite <- Hstate.
  - pose proof (handleRunningNode_frame n state now m) as Hf. cbv zeta in Hf.
    destruct (handleRunningNode n state now m) as [[n' state'] m'].
    cbn [fst snd] in Hf. destruct Hf as (Ht & Hc & Hm & Hr).
    exists n', state', m'. rewrite Hc, Hm. split; [done |]. split; [done |].
    split; [done |]. split; [done |]. done.
  - pose proof (handleSuspendedNode_frame n state now m) as Hf. cbv zeta in Hf.
    pose proof (handleSuspendedNode_off n state now m) as Hoff.
    destruct (handleSuspendedNode n state now m) as [[n' state'] m'].
    cbn [fst snd] in Hf. destruct Hf as (Ht & Hc & Hm).
    exists n', state', m'. rewrite Hc, Hm. split; [done |]. split; [done |].
    split; [done |]. split; [| done].
    intros _ Hres. specialize (Hoff Hres). congruence.
Qed.

Lemma checkNodes_frame now ps : forall m (h : gmap positive node.Node),
  Forall (fun p => is_Some (h !! p)) ps ->
  exists m' h',
    checkNodes ps now m h = Returned (m', h') /\
    config m' = config m /\
    forall p n, h !! p = Some n ->
      exists n', h' !! p = Some n' /\ tended n n' /\ (p ∉ ps -> n' = n).
Proof.
  induction ps as [|p ps IH]; intros m h Hlive.
  - exists m, h. split; [done |]. split; [done |].
    intros p n Hn. exists n. split; [done |]. split; [apply tended_refl | done].
  - apply Forall_cons in Hlive as [[n Hn] Hlive].
    destruct (checkNode_frame p now m h n Hn) as (n' & state' & m1 & Hrun1 & Ht1 & _).
    set (m1' := mkManager (config m) (eventBus m1)
                          (<[node.id n := state']> (nodeStates m)) (stats m1)) in *.
    set (h1 := <[p := n']> h) in *.
    assert (Hlive1 : Forall (fun q => is_Some (h1 !! q)) ps).
    { eapply Forall_impl; [exact Hlive |]. intros q Hq. unfold h1.
      destruct (decide (q = p)) as [->|Hne].
      - rewrite lookup_insert_eq. by eexists.
      - by rewrite lookup_insert_ne. }
    destruct (IH m1' h1 Hlive1) as (m' & h' & Hrun & Hc & Hframe).
    exists m', h'. cbn [checkNodes]. unfold mbind, M_bind. rewrite Hrun1.
    split; [exact Hrun |]. split; [exact Hc |].
    intros q nq Hq. destruct (decide (q = p)) as [->|Hne].
    + assert (nq = n) as -> by congruence.
      destruct (Hframe p n') as (n'' & Hn'' & Ht2 & _);
        [unfold h1; apply lookup_insert_eq |].
      exists n''. split; [done |]. split; [by eapply tended_trans |].
      intros Hnot. exfalso. apply Hnot. by apply elem_of_cons; left.
    + destruct (Hframe q nq) as (n'' & Hn'' & Ht2 & Hout);
        [unfold h1; by rewrite lookup_insert_ne |].
      exists n''. split; [done |]. split; [done |].
      intros Hnot. apply Hout. intros Hin. apply Hnot. by apply elem_of_cons; right.
Qed.

End recovery_frame.

(** X19: a health-check tick over live nodes always returns, whatever
    the nodes' statuses and whatever the supervisor has recorded.  It
    never changes the identity or the store of a node; the status of a
    node is afterwards what it was or Running, its delay what it was or
    zero; a node that is not in the snapshot is left exactly as it was,
    and the configuration of the supervisor is kept. *)
Theorem X19_tick_tends_nodes
    (nodes : list positive) (now : Time) (m : recovery.Manager)
    (h : gmap positive node.Node)
    (Hlive : Forall (fun p => is_Some (h !! p)) nodes) :
  exists m' h',
    recovery.checkAndRecover nodes now m h = Returned (m', h') /\
    recovery.config m' = recovery.config m /\
    forall p n, h !! p = Some n ->
      exists n', h' !! p = Some n' /\
        node.id n' = node.id n /\
        node.data n' = node.data n /\
        (node.status n' = node.status n \/ node.status n' = node.StatusRunning) /\
        (node.delay n' = node.delay n \/ node.delay n' = 0) /\
        (p ∉ nodes -> n' = n).
Proof.
  unfold recovery.checkAndRecover.
  destruct (checkNodes_frame now nodes m h Hlive) as (m' & h' & Hrun & Hc & Hframe).
  exists m', h'. split; [exact Hrun |]. split; [exact Hc |].
  intros p n Hn. destruct (Hframe p n Hn) as (n' & Hn' & (Hi & Hd & Hs & Hl) & Hout).
  exists n'. repeat split; done.
Qed.

Lemma X19_witness :
  exists m' h',
    recovery.checkAndRecover (cluster.Nodes cluster_1) at_1s
      (recovery.New recovery.DefaultConfig) heap_1_suspended = Returned (m', h') /\
    recovery.config m' = recovery.DefaultConfig.
Proof.
  destruct (X19_tick_tends_nodes (cluster.Nodes cluster_1) at_1s
              (recovery.New recovery.DefaultConfig) heap_1_suspended
              (registry_ok_Nodes cluster_1 heap_1_suspended registry_ok_1))
    as (m' & h' & Hrun & Hc & _).
  exists m', h'. split; [exact Hrun | exact Hc].
Defined.

(** ** Recovery supervisor: the retry budget *)

Section recovery_budget.
Import recovery.

Lemma int_inc_small x : 0 <= x < 2 ^ 63 - 1 -> int_inc x = x + 1.
Proof.
  intros Hx. unfold int_inc, int_wrap.
  rewrite Z.mod_small by lia. lia.
Qed.

Lemma checkNode_budget cfg p now m (h : gmap positive node.Node) m' h' :
  config m = cfg -> AutoResume cfg = false -> 0 < MaxRetries cfg < 2 ^ 63 ->
  within_budget cfg m ->
  checkNode p now m h = Returned (m', h') ->
  config m' = cfg /\ within_budget cfg m'.
Proof.
  intros Hcfg Hoff Hmax Hb Hrun.
  destruct (h !! p) as [n|] eqn:Hn;
    [| unfold checkNode in Hrun; rewrite Hn in Hrun; discriminate].
  destruct (checkNode_frame p now m h n Hn)
    as (n' & state' & m1 & Hrun1 & _ & Hrunning & Hsusp & Hstopped).
  rewrite Hrun1 in Hrun. injection Hrun as <- <-.
  split; [done |]. unfold within_budget. cbn [nodeStates].
  apply map_Forall_insert_2; [| exact Hb].
  set (state := default (mkNodeState now Time_zero 0 false)
                        (nodeStates m !! node.id n)) in *.
  assert (Hstate : 0 <= RetryCount state <= MaxRetries cfg).
  { unfold state. destruct (nodeStates m !! node.id n) as [st|] eqn:Hst; cbn.
    - by apply (Hb _ _ Hst).
    - lia. }
  destruct (node.status n) eqn:Hs.
  - destruct (Hstopped eq_refl) as [Hr|[Hr Hlt]].
    + by rewrite Hr.
    + rewrite Hcfg in Hlt. specialize (Hlt ltac:(lia)).
      rewrite Hr, int_inc_small by lia. lia.
  - rewrite (Hrunning eq_refl). lia.
  - rewrite (Hsusp eq_refl) by (by rewrite Hcfg). exact Hstate.
Qed.

Lemma checkNodes_budget cfg now ps : forall m (h : gmap positive node.Node) m' h',
  config m = cfg -> AutoResume cfg = false -> 0 < MaxRetries cfg < 2 ^ 63 ->
  within_budget cfg m ->
  checkNodes ps now m h = Returned (m', h') ->
  config m' = cfg /\ within_budget cfg m'.
Proof.
  induction ps as [|p ps IH]; intros m h m' h' Hcfg Hoff Hmax Hb Hrun.
  - injection Hrun as <- <-. done.
  - cbn [checkNodes] in Hrun. unfold mbind, M_bind in Hrun.
    destruct (checkNode p now m h) as [[m1 h1]|] eqn:H1; [| discriminate].
    destruct (checkNode_budget cfg p now m h m1 h1 Hcfg Hoff Hmax Hb H1) as [Hc1 Hb1].
    by eapply IH.
Qed.

Lemma after_ticks_budget cfg k m :
  after_ticks cfg k m -> AutoResume cfg = false -> 0 < MaxRetries cfg < 2 ^ 63 ->
  config m = cfg /\ within_budget cfg m.
Proof.
  intros Hticks Hoff Hmax.
  induction Hticks as [|k m bus _ IH|k m c nodes h now m' h' _ IH _ Hrun].
  - split; [done |]. unfold within_budget. cbn. apply map_Forall_empty.
  - done.
  - destruct IH as [Hc Hb]. by eapply checkNodes_budget.
Qed.

Lemma handleStoppedNode_gives_up n state now m :
  MaxRetries (config m) > 0 -> RetryCount state >= MaxRetries (config m) ->
  fst (fst (handleStoppedNode n state now m)) = n.
Proof.
  intros Hmax Hge. unfold handleStoppedNode.
  destruct (negb (AutoRestart (config m))); [done |].
  destruct (IsZero (FailedAt state)); [done |].
  destruct (bool_decide (Time_Sub now (FailedAt state) < RecoveryDelay (config m)));
    [done |].
  rewrite !bool_decide_eq_true_2 by done. done.
Qed.

End recovery_budget.

(** X18: the retry budget of a supervisor that does not resume
    ([AutoResume] off) and has a positive [MaxRetries].  After any
    number of health-check ticks, whatever happened to the nodes in
    between, no tracked node has used more than [MaxRetries] retries.
    A Stopped node that has used them all is given up: a health check
    leaves every node as it is, until the node is seen Running again. *)
Theorem X18_retry_budget
    (cfg : recovery.Config) (k : Z) (m : recovery.Manager)
    (Hticks : recovery.after_ticks cfg k m)
    (Hoff : recovery.AutoResume cfg = false)
    (Hmax : 0 < recovery.MaxRetries cfg < 2 ^ 63) :
  (forall i state, recovery.nodeStates m !! i = Some state ->
     0 <= recovery.RetryCount state <= recovery.MaxRetries cfg) /\
  (forall p n state now (h : gmap positive node.Node),
     h !! p = Some n ->
     node.status n = node.StatusStopped ->
     recovery.nodeStates m !! node.id n = Some state ->
     recovery.RetryCount state = recovery.MaxRetries cfg ->
     exists m', recovery.checkNode p now m h = Returned (m', h)).
Proof.
  destruct (after_ticks_budget cfg k m Hticks Hoff Hmax) as [Hc Hb].
  split; [exact Hb |].
  intros p n state now h Hn Hs Hst Hr.
  unfold recovery.checkNode. rewrite Hn. unfold node.ID, node.Status_of.
  rewrite Hst, Hs.
  pose proof (handleStoppedNode_gives_up n state now m) as Hgive.
  destruct (recovery.handleStoppedNode n state now m) as [[n' state'] m'].
  cbn [fst] in Hgive. rewrite Hgive by (rewrite Hc; lia).
  rewrite (insert_id h p n Hn). by eexists.
Qed.

Lemma X18_witness :
  recovery.after_ticks restart_only 2 restart_done /\
  (forall i state, recovery.nodeStates restart_done !! i = Some state ->
     0 <= recovery.RetryCount state <= 3).
Proof.
  split; [exact after_restart_ticks |].
  refine (proj1 (X18_retry_budget restart_only 2 restart_done after_restart_ticks _ _)).
  - reflexivity.
  - cbn. lia.
Defined.

(** ** Recovery supervisor: a killed node comes back *)

(** X20: how the supervisor heals a Stopped node it has no record of,
    with [AutoRestart] on.  The first health check only notes the
    failure: the node stays Stopped, [CurrentlyFailed] goes up by one.
    A later check made less than [RecoveryDelay] after the first does
    nothing at all.  The first check made [RecoveryDelay] or more after
    it restarts the node, whatever [MaxRetries] is: the node is Running
    with the store, the identity and the delay it had, [TotalRecoveries]
    has gone up by one, [CurrentlyFailed] is taken down again, the
    retry count of the node is 1 and one recovery-start event has been
    published. *)
Theorem X20_restart_after_delay
    (p : positive) (n : node.Node) (h : gmap positive node.Node)
    (m : recovery.Manager) (now1 now2 : Time)
    (Hlive : h !! p = Some n)
    (Hstopped : node.status n = node.StatusStopped)
    (Hauto : recovery.AutoRestart (recovery.config m) = true)
    (Hnew : recovery.nodeStates m !! node.id n = None)
    (Hnow1 : now1 <> Time_zero) :
  exists m1,
    recovery.checkNode p now1 m h = Returned (m1, h) /\
    recovery.nodeStates m1 !! node.id n
      = Some (recovery.mkNodeState now1 now1 0 false) /\
    recovery.CurrentlyFailed (recovery.stats m1)
      = int_inc (recovery.CurrentlyFailed (recovery.stats m)) /\
    recovery.TotalRecoveries (recovery.stats m1)
      = recovery.TotalRecoveries (recovery.stats m) /\
    (Time_Sub now2 now1 < recovery.RecoveryDelay (recovery.config m) ->
       recovery.checkNode p now2 m1 h = Returned (m1, h)) /\
    (recovery.RecoveryDelay (recovery.config m) <= Time_Sub now2 now1 ->
       exists m2,
         recovery.checkNode p now2 m1 h
           = Returned (m2, <[p := node.set_status node.StatusRunning
                                    (node.set_cancel true n)]> h) /\
         recovery.nodeStates m2 !! node.id n
           = Some (recovery.mkNodeState now1 Time_zero 1 false) /\
         recovery.TotalRecoveries (recovery.stats m2)
           = u64_inc (recovery.TotalRecoveries (recovery.stats m)) /\
         recovery.CurrentlyFailed (recovery.stats m2)
           = int_dec (int_inc (recovery.CurrentlyFailed (recovery.stats m))) /\
         recovery.eventBus m2
           = events.publish (events.NewRecoveryStartEvent (node.id n) 1)
                            (recovery.eventBus m)).
Proof.
  assert (Hz1 : IsZero now1 = false).
  { unfold IsZero. apply Z.eqb_neq. exact Hnow1. }
  set (state1 := recovery.mkNodeState now1 now1 0 false).
  set (m1 := recovery.mkManager (recovery.config m) (recovery.eventBus m)
               (<[node.id n := state1]> (recovery.nodeStates m))
               (recovery.mkStats
                  (recovery.TotalRecoveries (recovery.stats m))
                  (recovery.SuccessRecoveries (recovery.stats m))
                  (recovery.FailedRecoveries (recovery.stats m))
                  (int_inc (recovery.CurrentlyFailed (recovery.stats m))))).
  assert (H1 : recovery.checkNode p now1 m h = Returned (m1, h)).
  { unfold recovery.checkNode. rewrite Hlive. unfold node.ID, node.Status_of.
    rewrite Hnew, Hstopped. unfold recovery.handleStoppedNode.
    rewrite Hauto. cbn [negb recovery.FailedAt]. unfold IsZero, Time_zero. cbn [Z.eqb].
    cbn [recovery.LastSeen recovery.RetryCount recovery.IsRecovered
         recovery.set_stats recovery.config recovery.eventBus recovery.nodeStates
         recovery.stats].
    by rewrite (insert_id h p n Hlive). }
  assert (Hst1 : recovery.nodeStates m1 !! node.id n = Some state1)
    by apply lookup_insert_eq.
  exists m1. split; [exact H1 |]. split; [exact Hst1 |].
  split; [done |]. split; [done |]. split.
  - intros Hearly.
    unfold recovery.checkNode. rewrite Hlive. unfold node.ID, node.Status_of.
    rewrite Hst1, Hstopped. unfold recovery.handleStoppedNode.
    cbn [recovery.config m1]. rewrite Hauto.
    cbn [negb recovery.FailedAt state1]. rewrite Hz1.
    rewrite bool_decide_eq_true_2 by exact Hearly.
    rewrite (insert_id h p n Hlive).
    rewrite (insert_id _ _ _ Hst1). done.
  - intros Hlate.
    unfold recovery.checkNode. rewrite Hlive. unfold node.ID, node.Status_of.
    rewrite Hst1, Hstopped. unfold recovery.handleStoppedNode.
    cbn [recovery.config m1]. rewrite Hauto.
    cbn [negb recovery.FailedAt state1]. rewrite Hz1.
    rewrite bool_decide_eq_false_2 by lia.
    cbn [recovery.RetryCount recovery.LastSeen recovery.IsRecovered state1].
    assert (Hbudget : bool_decide (recovery.MaxRetries (recovery.config m) > 0)
                      && bool_decide (0 >= recovery.MaxRetries (recovery.config m))
                      = false).
    { destruct (bool_decide_reflect (recovery.MaxRetries (recovery.config m) > 0));
        [| done].
      cbn. apply bool_decide_eq_false_2. lia. }
    rewrite Hbudget.
    unfold node.Start. rewrite decide_False by congruence.
    cbv zeta. cbn.
    eexists. split; [reflexivity |]. cbn.
    split; [by rewrite lookup_insert_eq |]. done.
Qed.

Lemma X20_witness :
  exists m1,
    recovery.checkNode 1%positive at_1s (recovery.New recovery.DefaultConfig)
      heap_1_stopped = Returned (m1, heap_1_stopped) /\
    exists m2,
      recovery.checkNode 1%positive at_4s m1 heap_1_stopped
        = Returned (m2, <[1%positive := node.set_status node.StatusRunning
                                          (node.set_cancel true stopped_node)]>
                          heap_1_stopped).
Proof.
  assert (Hlive : heap_1_stopped !! 1%positive = Some stopped_node)
    by (vm_compute; reflexivity).
  destruct (X20_restart_after_delay 1%positive stopped_node heap_1_stopped
              (recovery.New recovery.DefaultConfig) at_1s at_4s
              Hlive eq_refl eq_refl eq_refl ltac:(discriminate))
    as (m1 & H1 & _ & _ & _ & _ & Hlate).
  exists m1. split; [exact H1 |].
  destruct Hlate as (m2 & H2 & _); [vm_compute; discriminate |].
  exists m2. exact H2.
Defined.

(** ** Event bus *)

Section eventbus_props.
Import eventbus.

Ltac by_sets := set_unfold; intuition (subst; auto; congruence).

Lemma bus_ok_NewBus : bus_ok NewBus ∅.
Proof.
  split; [done |]. split.
  - intros ch Hch. by apply elem_of_empty in Hch.
  - intros ch c Hc. by rewrite lookup_empty in Hc.
Qed.

Lemma Subscribe_ok b (cs : gmap positive Chan) :
  bus_ok b cs ->
  let ch := fresh (dom cs) in
  Subscribe b cs =
    Returned (ch, mkBus ({[ ch ]} ∪ subscribers b) (bufferSize b),
              <[ch := mkChan [] (bufferSize b) false]> cs) /\
  cs !! ch = None /\
  (ch ∉ subscribers b) /\
  bus_ok (mkBus ({[ ch ]} ∪ subscribers b) (bufferSize b))
         (<[ch := mkChan [] (bufferSize b) false]> cs).
Proof.
  intros (Hsize & Hsubs & Hchans) ch.
  assert (Hfresh : cs !! ch = None) by (apply not_elem_of_dom, is_fresh).
  assert (Hnot : ch ∉ subscribers b).
  { intros Hin. destruct (Hsubs ch Hin) as (c & Hc & _). congruence. }
  split; [| split; [done | split; [done |]]].
  - unfold Subscribe. rewrite decide_False; [done |].
    rewrite Hsize. unfold defaultBufferSize. lia.
  - split; [done |]. cbn [subscribers bufferSize]. split.
    + intros ch' Hch'. destruct (decide (ch' = ch)) as [->|Hne].
      * rewrite lookup_insert_eq. by eexists.
      * rewrite lookup_insert_ne by done. apply Hsubs. by_sets.
    + intros ch' c Hc. destruct (decide (ch' = ch)) as [->|Hne].
      * rewrite lookup_insert_eq in Hc. injection Hc as <-. cbn.
        rewrite Hsize. unfold defaultBufferSize. split; [done |].
        split; [lia |]. intros _. by_sets.
      * rewrite lookup_insert_ne in Hc by done.
        destruct (Hchans ch' c Hc) as (? & ? & Hopen).
        split; [done |]. split; [done |]. intros Ho. specialize (Hopen Ho). by_sets.
Qed.

Lemma close_ok b (cs : gmap positive Chan) ch :
  bus_ok b cs -> ch ∈ subscribers b ->
  exists c,
    cs !! ch = Some c /\
    close ch cs = Returned (<[ch := mkChan (queue c) (capacity c) true]> cs) /\
    bus_ok (mkBus (subscribers b ∖ {[ ch ]}) (bufferSize b))
           (<[ch := mkChan (queue c) (capacity c) true]> cs).
Proof.
  intros (Hsize & Hsubs & Hchans) Hin.
  destruct (Hsubs ch Hin) as (c & Hc & Hopen).
  exists c. split; [done |]. split.
  - unfold close. by rewrite Hc, Hopen.
  - split; [done |]. cbn [subscribers bufferSize]. split.
    + intros ch' Hch'. assert (ch' <> ch) by by_sets.
      rewrite lookup_insert_ne by done. apply Hsubs. by_sets.
    + intros ch' c' Hc'. destruct (decide (ch' = ch)) as [->|Hne].
      * rewrite lookup_insert_eq in Hc'. injection Hc' as <-. cbn.
        destruct (Hchans ch c Hc) as (? & ? & _). done.
      * rewrite lookup_insert_ne in Hc' by done.
        destruct (Hchans ch' c' Hc') as (? & ? & Hopen').
        split; [done |]. split; [done |]. intros Ho. specialize (Hopen' Ho). by_sets.
Qed.

Lemma Unsubscribe_ok b (cs : gmap positive Chan) ch :
  bus_ok b cs ->
  exists b' cs', Unsubscribe b ch cs = Returned (b', cs') /\ bus_ok b' cs' /\
    subscribers b' = subscribers b ∖ {[ ch ]}.
Proof.
  intros Hok. unfold Unsubscribe.
  destruct (decide (ch ∈ subscribers b)) as [Hin|Hin].
  - destruct (close_ok b cs ch Hok Hin) as (c & _ & -> & Hok').
    do 2 eexists. split; [reflexivity |]. split; [exact Hok' | done].
  - exists b, cs. split; [done |]. split; [done |]. by_sets.
Qed.

Lemma try_send_ok b (cs : gmap positive Chan) ch event :
  bus_ok b cs -> ch ∈ subscribers b ->
  exists c,
    cs !! ch = Some c /\
    try_send ch event cs = Returned (<[ch := offered event c]> cs) /\
    bus_ok b (<[ch := offered event c]> cs).
Proof.
  intros (Hsize & Hsubs & Hchans) Hin.
  destruct (Hsubs ch Hin) as (c & Hc & Hopen).
  destruct (Hchans ch c Hc) as (Hcap & Hlen & _).
  exists c. split; [done |]. split.
  - unfold try_send, offered. rewrite Hc, Hopen.
    case_decide; [by rewrite <- Hopen |]. by rewrite insert_id.
  - split; [done |]. split.
    + intros ch' Hch'. destruct (decide (ch' = ch)) as [->|Hne].
      * rewrite lookup_insert_eq. eexists. split; [done |].
        unfold offered. by case_decide.
      * rewrite lookup_insert_ne by done. by apply Hsubs.
    + intros ch' c' Hc'. destruct (decide (ch' = ch)) as [->|Hne].
      * rewrite lookup_insert_eq in Hc'. injection Hc' as <-.
        unfold offered. case_decide; cbn; [| by apply Hchans].
        split; [done |]. split; [rewrite length_app; cbn; lia | done].
      * rewrite lookup_insert_ne in Hc' by done. by apply Hchans.
Qed.

Lemma publish_to_ok b event subs : forall (cs : gmap positive Chan),
  bus_ok b cs -> NoDup subs -> (forall ch, ch ∈ subs -> ch ∈ subscribers b) ->
  exists cs',
    publish_to subs event cs = Returned cs' /\
    bus_ok b cs' /\
    forall ch, cs' !! ch =
      (fun c => if decide (ch ∈ subs) then offered event c else c) <$> cs !! ch.
Proof.
  induction subs as [|ch subs IH]; intros cs Hok Hnd Hsub.
  - exists cs. split; [done |]. split; [done |].
    intros ch. destruct (cs !! ch); cbn; [| done].
    rewrite decide_False by (by intros ?%elem_of_nil). done.
  - apply NoDup_cons in Hnd as [Hch Hnd].
    destruct (try_send_ok b cs ch event Hok) as (c & Hc & Hsend & Hok1);
      [apply Hsub; by apply elem_of_cons; left |].
    destruct (IH _ Hok1 Hnd) as (cs' & Hrun & Hok' & Hcs');
      [intros ch' Hch'; apply Hsub; by apply elem_of_cons; right |].
    exists cs'. cbn [publish_to]. rewrite Hsend.
    split; [exact Hrun |]. split; [exact Hok' |].
    intros ch'. rewrite Hcs'.
    destruct (decide (ch' = ch)) as [->|Hne].
    + rewrite lookup_insert_eq, Hc. cbn.
      rewrite decide_False by done.
      rewrite decide_True by (by apply elem_of_cons; left). done.
    + rewrite lookup_insert_ne by done.
      destruct (cs !! ch'); cbn; [| done].
      destruct (decide (ch' ∈ subs)).
      * rewrite decide_True by (by apply elem_of_cons; right). done.
      * rewrite decide_False; [done |]. intros [?|?]%elem_of_cons; done.
Qed.

Lemma close_each_ok subs : forall b (cs : gmap positive Chan),
  bus_ok b cs -> NoDup subs -> (forall ch, ch ∈ subs -> ch ∈ subscribers b) ->
  exists cs',
    close_each subs b cs =
      Returned (mkBus (subscribers b ∖ list_to_set subs) (bufferSize b), cs') /\
    bus_ok (mkBus (subscribers b ∖ list_to_set subs) (bufferSize b)) cs'.
Proof.
  induction subs as [|ch subs IH]; intros b cs Hok Hnd Hsub.
  - exists cs. cbn [close_each list_to_set].
    assert (Hb : mkBus (subscribers b ∖ ∅) (bufferSize b) = b).
    { destruct b as [s z]. cbn. f_equal. by_sets. }
    rewrite Hb. done.
  - apply NoDup_cons in Hnd as [Hch Hnd].
    destruct (close_ok b cs ch Hok) as (c & Hc & Hclose & Hok1);
      [apply Hsub; by apply elem_of_cons; left |].
    destruct (IH _ _ Hok1 Hnd) as (cs' & Hrun & Hok');
      [intros ch' Hch'; cbn [subscribers];
       assert (ch' ∈ subscribers b) by (apply Hsub; by apply elem_of_cons; right);
       by_sets |].
    cbn [subscribers bufferSize] in Hrun, Hok'.
    assert (Hset : subscribers b ∖ {[ch]} ∖ list_to_set subs
                   = subscribers b ∖ list_to_set (ch :: subs)).
    { cbn [list_to_set]. by_sets. }
    rewrite Hset in Hrun, Hok'.
    exists cs'. cbn [close_each]. rewrite Hclose. done.
Qed.

Lemma receive_ok b (cs : gmap positive Chan) ch r cs' :
  bus_ok b cs -> receive ch cs = Some (r, cs') -> bus_ok b cs'.
Proof.
  intros (Hsize & Hsubs & Hchans) Hrecv. unfold receive in Hrecv.
  destruct (cs !! ch) as [c|] eqn:Hc; [| discriminate].
  destruct (queue c) as [|event rest] eqn:Hq.
  - destruct (closed c); [| discriminate]. injection Hrecv as <- <-. done.
  - injection Hrecv as <- <-. split; [done |]. split.
    + intros ch' Hch'. destruct (decide (ch' = ch)) as [->|Hne].
      * rewrite lookup_insert_eq. eexists. split; [done |]. cbn.
        destruct (Hsubs ch Hch') as (c' & Hc' & Hopen). congruence.
      * rewrite lookup_insert_ne by done. by apply Hsubs.
    + intros ch' c' Hc'. destruct (decide (ch' = ch)) as [->|Hne].
      * rewrite lookup_insert_eq in Hc'. injection Hc' as <-. cbn.
        destruct (Hchans ch c Hc) as (Hcap & Hlen & Hopen).
        rewrite Hq in Hlen. cbn [length] in Hlen.
        split; [done |]. split; [lia | done].
      * rewrite lookup_insert_ne in Hc' by done. by apply Hchans.
Qed.

Lemma range_of_spec b subs :
  range_of b subs -> NoDup subs /\ forall ch, ch ∈ subs <-> ch ∈ subscribers b.
Proof.
  unfold range_of. intros Hperm. split.
  - rewrite Hperm. apply NoDup_elements.
  - intros ch. rewrite Hperm. apply elem_of_elements.
Qed.

Lemma reachable_bus_ok b (cs : gmap positive Chan) : reachable b cs -> bus_ok b cs.
Proof.
  induction 1 as [|b cs ch b' cs' _ IH Hsub|b cs ch b' cs' _ IH Hun
                  |b cs subs event cs' _ IH Hrange Hpub
                  |b cs subs b' cs' _ IH Hrange Hclose
                  |b cs ch r cs' _ IH Hrecv].
  - apply bus_ok_NewBus.
  - destruct (Subscribe_ok b cs IH) as (Hrun & _ & _ & Hok).
    rewrite Hrun in Hsub. by injection Hsub as <- <- <-.
  - destruct (Unsubscribe_ok b cs ch IH) as (b1 & cs1 & Hrun & Hok & _).
    rewrite Hrun in Hun. by injection Hun as <- <-.
  - destruct (range_of_spec b subs Hrange) as [Hnd Hin].
    destruct (publish_to_ok b event subs cs IH Hnd) as (cs1 & Hrun & Hok & _);
      [intros ch; apply Hin |].
    unfold Publish in Hpub. rewrite Hrun in Hpub. by injection Hpub as <-.
  - destruct (range_of_spec b subs Hrange) as [Hnd Hin].
    destruct (close_each_ok subs b cs IH Hnd) as (cs1 & Hrun & Hok);
      [intros ch; apply Hin |].
    unfold Close in Hclose. rewrite Hrun in Hclose. by injection Hclose as <- <-.
  - by eapply receive_ok.
Qed.

End eventbus_props.



(** X22: what [Publish] delivers, on a bus reached as in X21 and
    whatever the order in which the subscribers are met.  Every
    subscriber whose buffer holds fewer than 100 events gets the event
    once, behind the events it already holds; for a subscriber whose
    buffer is full the event is dropped and its buffer is unchanged;
    channels that are no subscribers (any more) are not touched.  A
    receive hands out the oldest event a channel holds. *)
Theorem X22_Publish_delivers
    (b : eventbus.Bus) (cs : gmap positive eventbus.Chan)
    (subs : list positive) (event : events.Event)
    (Hreach : eventbus.reachable b cs)
    (Hrange : eventbus.range_of b subs) :
  exists cs',
    eventbus.Publish b subs event cs = Returned cs' /\
    (forall ch, cs' !! ch =
       (fun c => if decide (ch ∈ eventbus.subscribers b)
                 then if decide (Z.of_nat (length (eventbus.queue c)) < 100)
                      then eventbus.mkChan (eventbus.queue c ++ [event]) 100 false
                      else c
                 else c) <$> cs !! ch) /\
    (forall ch c first rest,
       cs' !! ch = Some c -> eventbus.queue c = first :: rest ->
       eventbus.receive ch cs' =
         Some (Some first, true,
               <[ch := eventbus.mkChan rest (eventbus.capacity c) (eventbus.closed c)]> cs')).
Proof.
  pose proof (reachable_bus_ok b cs Hreach) as Hok.
  destruct (range_of_spec b subs Hrange) as [Hnd Hin].
  destruct (publish_to_ok b event subs cs Hok Hnd) as (cs' & Hrun & _ & Hcs');
    [intros ch; apply Hin |].
  exists cs'. split; [exact Hrun |]. split.
  - intros ch. rewrite Hcs'. destruct (cs !! ch) as [c|] eqn:Hc; cbn; [| done].
    destruct Hok as (_ & Hsubs & Hchans).
    destruct (Hchans ch c Hc) as (Hcap & _ & _).
    destruct (decide (ch ∈ subs)) as [Hs|Hs].
    + rewrite decide_True by (by apply Hin).
      destruct (Hsubs ch) as (c' & Hc' & Hopen); [by apply Hin |].
      assert (c' = c) as -> by congruence.
      unfold eventbus.offered. rewrite Hcap, Hopen. done.
    + rewrite decide_False; [done |]. intros H1. by apply Hs, Hin.
  - intros ch c first rest Hc Hq. unfold eventbus.receive. by rewrite Hc, Hq.
Qed.

Lemma bus_1_reachable : eventbus.reachable bus_1 chans_1.
Proof.
  apply (eventbus.reach_subscribe eventbus.NewBus ∅ 1%positive bus_1 chans_1
           eventbus.reach_new).
  vm_compute. reflexivity.
Qed.

Lemma bus_1_range : eventbus.range_of bus_1 [1%positive].
Proof. unfold eventbus.range_of. vm_compute. reflexivity. Qed.

Lemma X22_witness :
  exists cs',
    eventbus.Publish bus_1 [1%positive] (events.NewChaosResumeEvent "node-1") chans_1
      = Returned cs' /\
    eventbus.queue <$> cs' !! 1%positive = Some [events.NewChaosResumeEvent "node-1"].
Proof.
  destruct (X22_Publish_delivers bus_1 chans_1 [1%positive]
              (events.NewChaosResumeEvent "node-1") bus_1_reachable bus_1_range)
    as (cs' & Hrun & Hcs' & _).
  exists cs'. split; [exact Hrun |].
  rewrite Hcs'. vm_compute. reflexivity.
Defined.

(** ** Status endpoint *)

Section api_props.
Import api.

Lemma Status_String_not_capitalised s :
  String.eqb (node.Status_String s) "Stopped" = false /\
  String.eqb (node.Status_String s) "Suspended" = false.
Proof. by destruct s. Qed.

Lemma count_by_name_unchanged (h : gmap positive node.Node) ps : forall resp,
  Forall (fun p => is_Some (h !! p)) ps ->
  count_by_name ps resp h = Returned (resp, h).
Proof.
  induction ps as [|p ps IH]; intros resp Hlive; [done |].
  apply Forall_cons in Hlive as [[n Hn] Hlive].
  cbn [count_by_name]. unfold mbind, M_bind, query. rewrite Hn.
  destruct (Status_String_not_capitalised (node.Status_of n)) as [-> ->].
  by apply IH.
Qed.

End api_props.

(** X23: what GET /api/status reports about a cluster of live nodes:
    [NodeCount] is the size of the registry and [RunningNodes] the
    number of Running nodes, but [StoppedNodes] and [SuspendedNodes]
    are 0 whatever the statuses of the nodes are, because the handler
    compares the status names, which are written in lower case, with
    "Stopped" and "Suspended".  Any other method is answered with
    405. *)
Theorem X23_status_endpoint_counts
    (s : api.Server) (c : cluster.Cluster) (h : gmap positive node.Node)
    (nodes : list positive)
    (Hcluster : api.cluster_of s = Some c)
    (Hok : cluster.registry_ok c h)
    (Hsnap : cluster.snapshot c nodes) :
  api.handleStatus s "GET" nodes h =
    Returned (inl (api.mkStatusResponse (api.running s) (api.config_Name s)
                     (cluster.Size c)
                     (Z.of_nat (length (cluster.with_status node.StatusRunning c h)))
                     0 0), h) /\
  (forall method, method <> "GET" ->
     api.handleStatus s method nodes h = Returned (inr 405, h)).
Proof.
  split.
  - unfold api.handleStatus. cbn [String.eqb Ascii.eqb Bool.eqb negb].
    rewrite Hcluster. unfold mbind, M_bind, cluster.RunningCount.
    rewrite count_status_spec by (by apply registry_ok_Nodes).
    rewrite count_by_name_unchanged by (by eapply registry_ok_snapshot).
    cbn [api.Running api.ScenarioName]. unfold cluster.with_status.
    destruct (String.eqb_spec (api.config_Name s) "") as [->|Hne]; cbn [negb]; done.
  - intros method Hne. unfold api.handleStatus.
    destruct (String.eqb_spec method "GET") as [->|_]; [done |]. done.
Qed.

Lemma X23_witness :
  api.handleStatus (api.mkServer true "demo" (Some cluster_1)) "GET"
    (cluster.Nodes cluster_1) heap_1_suspended
  = Returned (inl (api.mkStatusResponse true "demo" 1 0 0 0), heap_1_suspended).
Proof.
  exact (proj1 (X23_status_endpoint_counts (api.mkServer true "demo" (Some cluster_1))
                  cluster_1 heap_1_suspended (cluster.Nodes cluster_1)
                  eq_refl registry_ok_1 (snapshot_Nodes cluster_1))).
Defined.

(** ** Configuration: attack names *)

Section config_props.
Import config.

Lemma parse_from_known ToLower types : forall rest attacks,
  Forall (fun t => ToLower t ∈ ["kill"; "suspend"; "delay"]) types ->
  exists parsed,
    parse_from ToLower (types ++ rest) attacks
      = parse_from ToLower rest (attacks ++ parsed) /\
    chaos.AttackType_String <$> parsed = ToLower <$> types.
Proof.
  induction types as [|t types IH]; intros rest attacks Hknown.
  - exists []. by rewrite app_nil_r.
  - apply Forall_cons in Hknown as [Ht Hknown].
    cbn [app parse_from].
    assert (Hcase : ToLower t = "kill" \/ ToLower t = "suspend" \/ ToLower t = "delay").
    { repeat (apply elem_of_cons in Ht as [Ht|Ht]; [tauto |]).
      by apply elem_of_nil in Ht. }
    destruct Hcase as [Hk|[Hk|Hk]]; rewrite Hk; cbn [String.eqb Ascii.eqb Bool.eqb];
      match goal with
      | |- context [parse_from _ _ (attacks ++ [?a])] =>
          destruct (IH rest (attacks ++ [a]) Hknown) as (parsed & Hrun & Hnames);
          exists (a :: parsed); rewrite Hrun, <- app_assoc;
          split; [done |]; rewrite !fmap_cons, Hnames, Hk; done
      end.
Qed.

End config_props.

(** X24: [parseAttackTypes], for whatever [strings.ToLower] maps each
    name to.  When every name is, in lower case, one of kill, suspend
    and delay, the result is nil as an error and one attack type per
    name, in the order of the names: printed back with [String()] they
    are the names in lower case.  The first name that is none of the
    three ends the parsing: the result is then no attack type at all
    and an error that quotes the name as it was written. *)
Theorem X24_parseAttackTypes_names
    (ToLower : string -> string) (types : list string)
    (Hknown : Forall (fun t => ToLower t ∈ ["kill"; "suspend"; "delay"]) types) :
  (exists attacks,
     config.parseAttackTypes ToLower types = (attacks, None) /\
     chaos.AttackType_String <$> attacks = ToLower <$> types) /\
  (forall t rest,
     ToLower t ∉ ["kill"; "suspend"; "delay"] ->
     config.parseAttackTypes ToLower (types ++ t :: rest)
       = ([], Some ("unknown attack type: " +:+ t))).
Proof.
  unfold config.parseAttackTypes. split.
  - destruct (parse_from_known ToLower types [] [] Hknown) as (parsed & Hrun & Hnames).
    rewrite app_nil_r in Hrun. exists parsed. by rewrite Hrun.
  - intros t rest Hunknown.
    destruct (parse_from_known ToLower types (t :: rest) [] Hknown)
      as (parsed & Hrun & _).
    rewrite Hrun. cbn [config.parse_from].
    destruct (String.eqb_spec (ToLower t) "kill") as [Hk|_].
    { exfalso. apply Hunknown. rewrite Hk. by apply elem_of_cons; left. }
    destruct (String.eqb_spec (ToLower t) "suspend") as [Hk|_].
    { exfalso. apply Hunknown. rewrite Hk. apply elem_of_cons; right.
      by apply elem_of_cons; left. }
    destruct (String.eqb_spec (ToLower t) "delay") as [Hk|_]; [| done].
    exfalso. apply Hunknown. rewrite Hk. apply elem_of_cons; right.
    apply elem_of_cons; right. by apply elem_of_cons; left.
Qed.

Lemma X24_witness :
  config.parseAttackTypes config.ToLower_ascii ["Kill"; "DELAY"]
    = ([chaos.AttackKill; chaos.AttackDelay], None) /\
  config.parseAttackTypes config.ToLower_ascii ["Kill"; "DELAY"; "crash"; "kill"]
    = ([], Some "unknown attack type: crash").
Proof.
  assert (Hknown : Forall (fun t => config.ToLower_ascii t ∈ ["kill"; "suspend"; "delay"])
                          ["Kill"; "DELAY"]).
  { repeat constructor. }
  destruct (X24_parseAttackTypes_names config.ToLower_ascii ["Kill"; "DELAY"] Hknown)
    as [_ Herr].
  split; [vm_compute; reflexivity |].
  apply (Herr "crash" ["kill"]).
  vm_compute. intros Hin.
  repeat (apply elem_of_cons in Hin as [Hin|Hin]; [discriminate |]).
  by apply elem_of_nil in Hin.
Defined.

(** ** Recovery supervisor: a suspended node is resumed *)

(** X25: how the supervisor treats a Suspended node it has no record
    of, with [AutoResume] on.  The first health check only notes the
    time and changes no counter.  The first check made [RecoveryDelay]
    or more after it resumes the node, without looking at [MaxRetries]:
    the node is Running and otherwise as it was, and [TotalRecoveries]
    and [SuccessRecoveries] both go up by one.  The next check, which
    sees the node Running with a retry count of 1, counts the same
    recovery as a success once more and publishes a second success
    event: one resume adds one to [TotalRecoveries] and two to
    [SuccessRecoveries]. *)
Theorem X25_resume_counted_twice
    (p : positive) (n : node.Node) (h : gmap positive node.Node)
    (m : recovery.Manager) (now1 now2 now3 : Time)
    (Hlive : h !! p = Some n)
    (Hsuspended : node.status n = node.StatusSuspended)
    (Hauto : recovery.AutoResume (recovery.config m) = true)
    (Hnew : recovery.nodeStates m !! node.id n = None)
    (Hnow1 : now1 <> Time_zero)
    (Hlate : recovery.RecoveryDelay (recovery.config m) <= Time_Sub now2 now1) :
  let h2 := <[p := node.set_status node.StatusRunning n]> h in
  exists m1 m2 m3 n3,
    recovery.checkNode p now1 m h = Returned (m1, h) /\
    recovery.stats m1 = recovery.stats m /\
    recovery.checkNode p now2 m1 h = Returned (m2, h2) /\
    recovery.TotalRecoveries (recovery.stats m2)
      = u64_inc (recovery.TotalRecoveries (recovery.stats m)) /\
    recovery.SuccessRecoveries (recovery.stats m2)
      = u64_inc (recovery.SuccessRecoveries (recovery.stats m)) /\
    recovery.checkNode p now3 m2 h2 = Returned (m3, <[p := n3]> h2) /\
    node.status n3 = node.StatusRunning /\
    node.data n3 = node.data n /\
    recovery.TotalRecoveries (recovery.stats m3)
      = u64_inc (recovery.TotalRecoveries (recovery.stats m)) /\
    recovery.SuccessRecoveries (recovery.stats m3)
      = u64_inc (u64_inc (recovery.SuccessRecoveries (recovery.stats m))) /\
    recovery.FailedRecoveries (recovery.stats m3)
      = recovery.FailedRecoveries (recovery.stats m) /\
    recovery.nodeStates m3 !! node.id n
      = Some (recovery.mkNodeState now3 Time_zero 0 false) /\
    recovery.eventBus m3
      = events.publish (events.NewRecoverySuccessEvent (node.id n))
          (events.publish (events.NewRecoverySuccessEvent (node.id n))
             (events.publish (events.NewRecoveryStartEvent (node.id n) 1)
                (recovery.eventBus m))).
Proof.
  intros h2.
  assert (Hz1 : IsZero now1 = false).
  { unfold IsZero. apply Z.eqb_neq. exact Hnow1. }
  set (state1 := recovery.mkNodeState now1 now1 0 false).
  set (m1 := recovery.mkManager (recovery.config m) (recovery.eventBus m)
               (<[node.id n := state1]> (recovery.nodeStates m)) (recovery.stats m)).
  assert (H1 : recovery.checkNode p now1 m h = Returned (m1, h)).
  { unfold recovery.checkNode. rewrite Hlive. unfold node.ID, node.Status_of.
    rewrite Hnew, Hsuspended. unfold recovery.handleSuspendedNode.
    rewrite Hauto. cbn [negb recovery.FailedAt]. unfold IsZero, Time_zero. cbn [Z.eqb].
    cbn [recovery.LastSeen recovery.RetryCount recovery.IsRecovered].
    by rewrite (insert_id h p n Hlive). }
  assert (Hst1 : recovery.nodeStates m1 !! node.id n = Some state1)
    by apply lookup_insert_eq.
  set (state2 := recovery.mkNodeState now1 Time_zero 1 false).
  set (bus2 := events.publish (events.NewRecoverySuccessEvent (node.id n))
                 (events.publish (events.NewRecoveryStartEvent (node.id n) 1)
                    (recovery.eventBus m))).
  set (m2 := recovery.mkManager (recovery.config m) bus2
               (<[node.id n := state2]> (recovery.nodeStates m1))
               (recovery.mkStats
                  (u64_inc (recovery.TotalRecoveries (recovery.stats m)))
                  (u64_inc (recovery.SuccessRecoveries (recovery.stats m)))
                  (recovery.FailedRecoveries (recovery.stats m))
                  (recovery.CurrentlyFailed (recovery.stats m)))).
  assert (H2 : recovery.checkNode p now2 m1 h = Returned (m2, h2)).
  { unfold recovery.checkNode. rewrite Hlive. unfold node.ID, node.Status_of.
    rewrite Hst1, Hsuspended. unfold recovery.handleSuspendedNode.
    cbn [recovery.config m1]. rewrite Hauto.
    cbn [negb recovery.FailedAt state1]. rewrite Hz1.
    rewrite bool_decide_eq_false_2 by lia.
    unfold node.Resume. rewrite decide_False by (intros Hne; by apply Hne).
    cbv zeta. cbn. reflexivity. }
  assert (Hst2 : recovery.nodeStates m2 !! node.id n = Some state2)
    by apply lookup_insert_eq.
  assert (Hlive2 : h2 !! p = Some (node.set_status node.StatusRunning n))
    by apply lookup_insert_eq.
  exists m1, m2. do 2 eexists.
  split; [exact H1 |]. split; [done |]. split; [exact H2 |].
  split; [done |]. split; [done |]. split.
  - unfold recovery.checkNode. rewrite Hlive2. unfold node.ID, node.Status_of.
    cbn [node.set_status node.id node.status]. rewrite Hst2.
    unfold recovery.handleRunningNode.
    cbn [recovery.IsRecovered recovery.RetryCount state2 negb andb].
    rewrite (bool_decide_eq_true_2 (1 > 0)) by lia. cbv zeta.
    cbn [recovery.config m2 recovery.stats recovery.set_stats recovery.publishEvent
         recovery.eventBus recovery.nodeStates recovery.FailedAt
         recovery.TotalRecoveries recovery.SuccessRecoveries
         recovery.FailedRecoveries recovery.CurrentlyFailed].
    reflexivity.
  - cbn [recovery.stats recovery.TotalRecoveries recovery.SuccessRecoveries
         recovery.FailedRecoveries recovery.nodeStates recovery.eventBus].
    split; [by case_match |]. split; [by case_match |].
    split; [done |]. split; [done |]. split; [done |].
    split; [by rewrite lookup_insert_eq | done].
Qed.

Lemma X25_witness :
  exists m1 m2 m3 n3,
    recovery.checkNode 1%positive at_1s (recovery.New recovery.DefaultConfig)
      heap_1_suspended = Returned (m1, heap_1_suspended) /\
    recovery.checkNode 1%positive at_4s m1 heap_1_suspended
      = Returned (m2, <[1%positive := node.set_status node.StatusRunning suspended_node]>
                        heap_1_suspended) /\
    recovery.checkNode 1%positive at_5s m2
      (<[1%positive := node.set_status node.StatusRunning suspended_node]> heap_1_suspended)
      = Returned (m3, <[1%positive := n3]>
                        (<[1%positive := node.set_status node.StatusRunning suspended_node]>
                           heap_1_suspended)) /\
    recovery.TotalRecoveries (recovery.stats m3) = 1 /\
    recovery.SuccessRecoveries (recovery.stats m3) = 2.
Proof.
  assert (Hlive : heap_1_suspended !! 1%positive = Some suspended_node)
    by (vm_compute; reflexivity).
  destruct (X25_resume_counted_twice 1%positive suspended_node heap_1_suspended
              (recovery.New recovery.DefaultConfig) at_1s at_4s at_5s
              Hlive eq_refl eq_refl eq_refl ltac:(discriminate)
              ltac:(vm_compute; discriminate))
    as (m1 & m2 & m3 & n3 & H1 & _ & H2 & _ & _ & H3 & _ & _ & Ht & Hs & _).
  exists m1, m2, m3, n3. split; [exact H1 |]. split; [exact H2 |].
  split; [exact H3 |]. split; [exact Ht | exact Hs].
Defined.

(** ** Recovery supervisor: recovery switched off *)

Section recovery_disabled.
Import recovery.

Lemma cleared_idemp cfg n : cleared cfg (cleared cfg n) = cleared cfg n.
Proof.
  unfold cleared.
  destruct (ClearDelay cfg && bool_decide (node.status n = node.StatusRunning)
            && bool_decide (node.delay n > 0)) eqn:Hc; [| by rewrite Hc].
  cbn. rewrite (bool_decide_eq_false_2 (0 > 0)) by lia.
  by rewrite andb_false_r.
Qed.

Lemma checkNode_disabled p now m (h : gmap positive node.Node) n :
  h !! p = Some n ->
  AutoRestart (config m) = false -> AutoResume (config m) = false ->
  exists m',
    checkNode p now m h = Returned (m', <[p := cleared (config m) n]> h) /\
    config m' = config m /\
    TotalRecoveries (stats m') = TotalRecoveries (stats m) /\
    FailedRecoveries (stats m') = FailedRecoveries (stats m) /\
    CurrentlyFailed (stats m') = CurrentlyFailed (stats m).
Proof.
  intros Hn Hrestart Hresume.
  unfold checkNode. rewrite Hn. unfold node.ID, node.Status_of, cleared.
  destruct (node.status n) eqn:Hs.
  - unfold handleStoppedNode. rewrite Hrestart. cbn [negb].
    rewrite (bool_decide_eq_false_2 (node.StatusStopped = node.StatusRunning)) by done.
    rewrite andb_false_r. cbn [andb]. eexists. split; [reflexivity |]. done.
  - unfold handleRunningNode. cbv zeta.
    rewrite (bool_decide_eq_true_2 (node.StatusRunning = node.StatusRunning)) by done.
    rewrite andb_true_r. unfold node.Delay, node.SetDelay.
    eexists. split; [reflexivity |].
    destruct (negb _ && _); done.
  - unfold handleSuspendedNode. rewrite Hresume. cbn [negb].
    rewrite (bool_decide_eq_false_2 (node.StatusSuspended = node.StatusRunning)) by done.
    rewrite andb_false_r. cbn [andb]. eexists. split; [reflexivity |]. done.
Qed.

Lemma checkNodes_disabled now ps : forall m (h : gmap positive node.Node),
  Forall (fun p => is_Some (h !! p)) ps ->
  AutoRestart (config m) = false -> AutoResume (config m) = false ->
  exists m' h',
    checkNodes ps now m h = Returned (m', h') /\
    config m' = config m /\
    TotalRecoveries (stats m') = TotalRecoveries (stats m) /\
    FailedRecoveries (stats m') = FailedRecoveries (stats m) /\
    CurrentlyFailed (stats m') = CurrentlyFailed (stats m) /\
    forall p, h' !! p =
      (fun n => if decide (p ∈ ps) then cleared (config m) n else n) <$> h !! p.
Proof.
  induction ps as [|p ps IH]; intros m h Hlive Hrestart Hresume.
  - exists m, h. repeat split; try done.
    intros p. destruct (h !! p); cbn; [| done].
    rewrite decide_False by (by intros ?%elem_of_nil). done.
  - apply Forall_cons in Hlive as [[n Hn] Hlive].
    destruct (checkNode_disabled p now m h n Hn Hrestart Hresume)
      as (m1 & Hrun1 & Hc1 & Ht1 & Hf1 & Hcf1).
    set (h1 := <[p := cleared (config m) n]> h) in *.
    assert (Hlive1 : Forall (fun q => is_Some (h1 !! q)) ps).
    { eapply Forall_impl; [exact Hlive |]. intros q Hq. unfold h1.
      destruct (decide (q = p)) as [->|Hne].
      - rewrite lookup_insert_eq. by eexists.
      - by rewrite lookup_insert_ne. }
    destruct (IH m1 h1 Hlive1) as (m' & h' & Hrun & Hc & Ht & Hf & Hcf & Hh');
      [congruence | congruence |].
    exists m', h'. cbn [checkNodes]. unfold mbind, M_bind. rewrite Hrun1.
    split; [exact Hrun |]. split; [congruence |]. split; [congruence |].
    split; [congruence |]. split; [congruence |].
    intros q. rewrite Hh', Hc1. unfold h1.
    destruct (decide (q = p)) as [->|Hne].
    + rewrite lookup_insert_eq, Hn. cbn.
      rewrite (decide_True (P := p ∈ p :: ps)) by (by apply elem_of_cons; left).
      case_decide; [by rewrite cleared_idemp | done].
    + rewrite lookup_insert_ne by done.
      destruct (h !! q); cbn; [| done].
      destruct (decide (q ∈ ps)).
      * rewrite decide_True by (by apply elem_of_cons; right). done.
      * rewrite decide_False; [done |]. intros [?|?]%elem_of_cons; done.
Qed.

End recovery_disabled.

(** X26: a supervisor with [AutoRestart] and [AutoResume] off is
    harmless.  A health-check tick over live nodes returns, changes no
    node's status, identity or store, and attempts no recovery
    ([TotalRecoveries], [FailedRecoveries] and [CurrentlyFailed] stay
    as they are).  All it may do is clear the positive delay of a
    Running node of the snapshot, and only with [ClearDelay] on: with
    [ClearDelay] off the tick leaves every node exactly as it was. *)
Theorem X26_disabled_supervisor_is_harmless
    (nodes : list positive) (now : Time) (m : recovery.Manager)
    (h : gmap positive node.Node)
    (Hlive : Forall (fun p => is_Some (h !! p)) nodes)
    (Hrestart : recovery.AutoRestart (recovery.config m) = false)
    (Hresume : recovery.AutoResume (recovery.config m) = false) :
  exists m' h',
    recovery.checkAndRecover nodes now m h = Returned (m', h') /\
    (forall p, h' !! p =
       (fun n => if decide (p ∈ nodes)
                 then recovery.cleared (recovery.config m) n else n) <$> h !! p) /\
    (forall p n, h !! p = Some n ->
       exists n', h' !! p = Some n' /\
         node.status n' = node.status n /\
         node.id n' = node.id n /\
         node.data n' = node.data n) /\
    (recovery.ClearDelay (recovery.config m) = false -> h' = h) /\
    recovery.TotalRecoveries (recovery.stats m')
      = recovery.TotalRecoveries (recovery.stats m) /\
    recovery.FailedRecoveries (recovery.stats m')
      = recovery.FailedRecoveries (recovery.stats m) /\
    recovery.CurrentlyFailed (recovery.stats m')
      = recovery.CurrentlyFailed (recovery.stats m).
Proof.
  unfold recovery.checkAndRecover.
  destruct (checkNodes_disabled now nodes m h Hlive Hrestart Hresume)
    as (m' & h' & Hrun & _ & Ht & Hf & Hcf & Hh').
  exists m', h'. split; [exact Hrun |]. split; [exact Hh' |].
  split; [| split; [| done]].
  - intros p n Hn. rewrite Hh', Hn. cbn. eexists. split; [reflexivity |].
    case_decide; [| done]. unfold recovery.cleared. by case_match.
  - intros Hclear. apply map_eq. intros p. rewrite Hh'.
    destruct (h !! p) as [n|]; cbn; [| done].
    case_decide; [| done]. unfold recovery.cleared. by rewrite Hclear.
Qed.

Lemma registry_ok_1_stopped : cluster.registry_ok cluster_1 heap_1_stopped.
Proof.
  intros i p Hi. unfold cluster_1 in Hi. cbn in Hi.
  apply lookup_singleton_Some in Hi as [<- <-].
  exists stopped_node. split; [| reflexivity].
  unfold heap_1_stopped. apply lookup_singleton_eq.
Qed.

Lemma X26_witness :
  exists m' h',
    recovery.checkAndRecover (cluster.Nodes cluster_1) at_1s
      (recovery.New idle_supervisor) heap_1_stopped = Returned (m', h') /\
    h' = heap_1_stopped.
Proof.
  destruct (X26_disabled_supervisor_is_harmless (cluster.Nodes cluster_1) at_1s
              (recovery.New idle_supervisor) heap_1_stopped
              (registry_ok_Nodes cluster_1 heap_1_stopped registry_ok_1_stopped)
              eq_refl eq_refl)
    as (m' & h' & Hrun & _ & _ & Hsame & _).
  exists m', h'. split; [exact Hrun |]. exact (Hsame eq_refl).
Defined.

(** ** Chaos injector: a suspension is lifted again *)

Section chaos_round_trip.
Import chaos.

Lemma resumed_suspended n :
  node.status n = node.StatusRunning ->
  resumed (node.set_status node.StatusSuspended n) = n.
Proof.
  intros Hs. unfold resumed. cbn. rewrite decide_True by done.
  destruct n as [i s d dt cl]. cbn in Hs. by subst s.
Qed.

(** The identities a suspend attack files: those of its targets. *)
Lemma executeAttacks_suspend_ids now targets :
  forall m (h : gmap positive node.Node),
  Forall (fun p => node.status <$> h !! p = Some node.StatusRunning) targets ->
  NoDup targets ->
  exists m' h',
    executeAttacks targets AttackSuspend now m h = Returned (m', h') /\
    forall i, suspendedIDs m' !! i =
      if decide (i ∈ omap (fun p => node.id <$> h !! p) targets)
      then Some now else suspendedIDs m !! i.
Proof.
  induction targets as [|p ps IH]; intros m h Hrun Hnd.
  - exists m, h. split; [done |]. intros i. cbn.
    rewrite decide_False by (by intros ?%elem_of_nil). done.
  - apply Forall_cons in Hrun as [Hp Hrun].
    apply NoDup_cons in Hnd as [Hnot Hnd].
    destruct (h !! p) as [n|] eqn:Hn; [| done]. cbn in Hp.
    assert (Hs : node.status n = node.StatusRunning) by congruence.
    destruct (executeAttack_heap p AttackSuspend now m h n Hn)
      as (m1 & Hrun1 & _ & _ & _ & _ & _ & Hids1).
    specialize (Hids1 eq_refl Hs).
    set (h1 := <[p := attack_call AttackSuspend (config m) n]> h) in *.
    assert (Hsame : forall q, q ∈ ps -> h1 !! q = h !! q).
    { intros q Hq. unfold h1. rewrite lookup_insert_ne; [done |]. by intros ->. }
    assert (Hrun' : Forall (fun q => node.status <$> h1 !! q = Some node.StatusRunning) ps).
    { apply Forall_forall. intros q Hq. rewrite (Hsame q Hq).
      by apply (proj1 (Forall_forall _ _) Hrun). }
    destruct (IH m1 h1 Hrun' Hnd) as (m' & h' & Hexec & Hids).
    exists m', h'. cbn [executeAttacks]. unfold mbind, M_bind. rewrite Hrun1.
    split; [exact Hexec |].
    assert (Homap : omap (fun q => node.id <$> h1 !! q) ps
                    = omap (fun q => node.id <$> h !! q) ps).
    { apply list_omap_ext. apply Forall_Forall2_diag, Forall_forall.
      intros q Hq. by rewrite (Hsame q Hq). }
    intros i. rewrite Hids, Homap, Hids1.
    cbn [omap list_omap]. rewrite Hn. cbn [fmap option_fmap option_map].
    destruct (decide (i = node.id n)) as [->|Hne].
    + rewrite lookup_insert_eq.
      rewrite (decide_True (P := node.id n ∈ node.id n :: _))
        by (by apply elem_of_cons; left).
      by case_decide.
    + rewrite lookup_insert_ne by done.
      destruct (decide (i ∈ omap (fun q => node.id <$> h !! q) ps)).
      * rewrite decide_True by (by apply elem_of_cons; right). done.
      * rewrite decide_False; [done |]. intros [?|?]%elem_of_cons; done.
Qed.

Lemma registered_under_id c (h : gmap positive node.Node) p n :
  cluster.registry_ok c h -> p ∈ cluster.Nodes c -> h !! p = Some n ->
  cluster.GetNode c (node.id n) = Some p.
Proof.
  intros Hok Hp Hn. apply elem_of_Nodes in Hp as [i Hi].
  destruct (Hok _ _ Hi) as (n' & Hn' & Hid).
  assert (n' = n) as -> by congruence. unfold cluster.GetNode. by rewrite Hid.
Qed.

End chaos_round_trip.

(** X27: a suspend attack is lifted by the auto-resume loop and by
    nothing else.  Take an injector that tracks no node, a registry of
    live nodes, and a tick at the time [now] whose attack is a
    suspend.  A round of the auto-resume loop made less than
    [SuspendTime] after the tick resumes no node and keeps the
    tracking map.  A round made [SuspendTime] or more after the tick
    resumes every target: all nodes are then exactly as they were
    before the attack, and the tracking map is empty again. *)
Theorem X27_suspension_is_lifted
    (c : cluster.Cluster) (h : gmap positive node.Node) (nodes : list positive)
    (d : chaos.Draws) (now now2 : Time) (m : chaos.Monkey)
    (Hok : cluster.registry_ok c h)
    (Hsnap : cluster.snapshot c nodes)
    (Hcount : 0 <= chaos.TargetCount (chaos.config m))
    (Hsuspend : chaos.selectAttackType d m = chaos.AttackSuspend)
    (Hnone : chaos.suspendedIDs m = ∅) :
  exists m1 h1,
    chaos.attack nodes d now m h = Returned (m1, h1) /\
    forall entries, chaos.suspended_entries m1 entries ->
      (Time_Sub now2 now < chaos.SuspendTime (chaos.config m) ->
         exists m2,
           chaos.checkAndResume c entries now2 m1 h1 = Returned (m2, h1) /\
           chaos.suspendedIDs m2 = chaos.suspendedIDs m1) /\
      (chaos.SuspendTime (chaos.config m) <= Time_Sub now2 now ->
         exists m2,
           chaos.checkAndResume c entries now2 m1 h1 = Returned (m2, h) /\
           chaos.suspendedIDs m2 = ∅).
Proof.
  destruct (selectTargets_returns c h nodes d m Hok Hsnap)
    as (targets & Hsel & _ & Hnd & Htargets); [by right |].
  assert (Hrunning : Forall (fun p => node.status <$> h !! p = Some node.StatusRunning)
                            targets).
  { apply Forall_forall. intros p Hp. by apply Htargets. }
  assert (Hlive : Forall (fun p => is_Some (h !! p)) targets).
  { apply Forall_forall. intros p Hp. destruct (Htargets p Hp) as [_ Hs].
    destruct (h !! p); [by eexists | done]. }
  destruct (executeAttacks_heap chaos.AttackSuspend now targets m h Hlive Hnd)
    as (m' & h1 & Hexec & Hcfg & _ & _ & _ & _ & _ & Hh1).
  destruct (executeAttacks_suspend_ids now targets m h Hrunning Hnd)
    as (m'' & h1' & Hexec' & Hids).
  rewrite Hexec in Hexec'. injection Hexec' as <- <-.
  (* the heap and the tracking map after the tick *)
  assert (Hh1' : forall p, h1 !! p =
            (fun n => if decide (p ∈ targets)
                      then node.set_status node.StatusSuspended n else n) <$> h !! p).
  { intros p. rewrite Hh1. destruct (h !! p) as [n|] eqn:Hn; cbn; [| done].
    case_decide as Hin; [| done]. f_equal.
    destruct (Htargets p Hin) as [_ Hs]. rewrite Hn in Hs. cbn in Hs.
    apply (attack_call_running chaos.AttackSuspend (chaos.config m) n). congruence. }
  assert (Hok1 : cluster.registry_ok c h1).
  { intros i p Hi. destruct (Hok _ _ Hi) as (n & Hn & Hid).
    rewrite Hh1', Hn. cbn. eexists. split; [reflexivity |]. by case_decide. }
  assert (Htracked : forall i t, chaos.suspendedIDs m' !! i = Some t ->
            t = now /\ exists p n, p ∈ targets /\ h !! p = Some n /\ node.id n = i).
  { intros i t. rewrite Hids, Hnone. case_decide as Hin; [| by rewrite lookup_empty].
    intros [= <-]. split; [done |].
    apply list_elem_of_omap in Hin as (p & Hp & Hpid).
    destruct (h !! p) as [n|] eqn:Hn; [| done]. cbn in Hpid.
    exists p, n. split; [done |]. split; [done | congruence]. }
  assert (Htarget_tracked : forall p n, p ∈ targets -> h !! p = Some n ->
            chaos.suspendedIDs m' !! node.id n = Some now).
  { intros p n Hp Hn. rewrite Hids. rewrite decide_True; [done |].
    apply list_elem_of_omap. exists p. split; [done |]. by rewrite Hn. }
  (* the result of the tick *)
  set (m1 := if decide (length targets = 0%nat) then m
             else chaos.mkMonkey (chaos.config m') (chaos.eventBus m')
                    (u64_inc (chaos.attackCount m')) (chaos.attackByType m')
                    now (chaos.suspendedIDs m')).
  assert (Hattack : chaos.attack nodes d now m h = Returned (m1, h1)).
  { unfold chaos.attack, mbind, M_bind. rewrite Hsel. unfold m1.
    case_decide as Hempty.
    - apply length_zero_iff_nil in Hempty. subst targets.
      cbn in Hexec. by injection Hexec as <- <-.
    - rewrite Hsuspend, Hexec. done. }
  assert (Hcfg1 : chaos.config m1 = chaos.config m).
  { unfold m1. by case_decide. }
  assert (Hids1 : chaos.suspendedIDs m1 = chaos.suspendedIDs m').
  { unfold m1. case_decide as Hempty; [| done].
    apply length_zero_iff_nil in Hempty. subst targets.
    cbn in Hexec. by injection Hexec as <- <-. }
  exists m1, h1. split; [exact Hattack |].
  intros entries Hentries. unfold chaos.suspended_entries in Hentries.
  rewrite Hids1 in Hentries.
  assert (Hentry : forall i t, (i, t) ∈ entries <-> chaos.suspendedIDs m' !! i = Some t).
  { intros i t. rewrite Hentries. apply elem_of_map_to_list. }
  unfold chaos.checkAndResume.
  destruct (resume_entries_spec c now2 m1 entries m1 h1 eq_refl Hok1)
    as (m2 & h2 & Hrun & _ & _ & _ & _ & Hids2 & Hh2).
  rewrite Hids1 in Hids2.
  split.
  - (* too early: nothing is due *)
    intros Hearly.
    assert (Hfresh : forall i t, (i, t) ∈ entries -> chaos.expired now2 m1 t = false).
    { intros i t Hin. apply Hentry, Htracked in Hin as [-> _].
      unfold chaos.expired. rewrite Hcfg1. apply bool_decide_eq_false_2. lia. }
    assert (Hkeys : chaos.due_keys now2 m1 entries = []).
    { unfold chaos.due_keys. rewrite filter_none; [done |].
      apply Forall_forall. intros [i t] Hin. cbn. by rewrite (Hfresh i t Hin). }
    assert (Hdue : chaos.due_among c now2 m1 entries = []).
    { unfold chaos.due_among. apply length_zero_iff_nil, Nat.le_0_r.
      assert (Hall : forall p, p ∉ omap (fun entry : string * Time =>
                       if chaos.expired now2 m1 (snd entry)
                       then cluster.GetNode c (fst entry) else None) entries).
      { intros p Hp. apply list_elem_of_omap in Hp as ([i t] & Hin & Hsome).
        cbn in Hsome. by rewrite (Hfresh i t Hin) in Hsome. }
      destruct (omap _ entries) as [|p ps]; [done |].
      exfalso. apply (Hall p). by apply elem_of_cons; left. }
    exists m2. split.
    + rewrite Hrun. do 2 f_equal. apply map_eq. intros p. rewrite Hh2, Hdue.
      destruct (h1 !! p); cbn; [| done].
      rewrite decide_False by (by intros ?%elem_of_nil). done.
    + apply map_eq. intros i. rewrite Hids2, Hkeys.
      rewrite decide_False by (by intros ?%elem_of_nil). by rewrite Hids1.
  - (* late enough: every target is due *)
    intros Hlate.
    assert (Hexp : chaos.expired now2 m1 now = true).
    { unfold chaos.expired. rewrite Hcfg1. apply bool_decide_eq_true_2. lia. }
    assert (Hdue_iff : forall p, p ∈ chaos.due_among c now2 m1 entries <-> p ∈ targets).
    { intros p. unfold chaos.due_among. rewrite list_elem_of_omap. split.
      - intros ([i t] & Hin & Hsome). cbn in Hsome.
        apply Hentry, Htracked in Hin as [-> (q & nq & Hq & Hnq & Hid)].
        rewrite Hexp in Hsome.
        destruct (Htargets q Hq) as [Hreg _].
        pose proof (registered_under_id c h q nq Hok Hreg Hnq) as Hget.
        rewrite Hid in Hget. unfold cluster.GetNode in Hget.
        assert (p = q) as -> by congruence. exact Hq.
      - intros Hp. destruct (Htargets p Hp) as [Hreg Hs].
        destruct (h !! p) as [n|] eqn:Hn; [| done].
        exists (node.id n, now). split.
        + apply Hentry. by eapply Htarget_tracked.
        + cbn [fst snd]. rewrite Hexp.
          exact (registered_under_id c h p n Hok Hreg Hn). }
    exists m2. split.
    + rewrite Hrun. do 2 f_equal. apply map_eq. intros p. rewrite Hh2, Hh1'.
      destruct (h !! p) as [n|] eqn:Hn; cbn; [| done]. f_equal.
      destruct (decide (p ∈ targets)) as [Hp|Hp].
      * rewrite decide_True by (by apply Hdue_iff).
        apply resumed_suspended.
        destruct (Htargets p Hp) as [_ Hs]. rewrite Hn in Hs. cbn in Hs. congruence.
      * rewrite decide_False; [done |]. intros Hin. by apply Hp, Hdue_iff.
    + apply map_eq. intros i. rewrite Hids2, lookup_empty.
      case_decide as Hin; [done |].
      destruct (chaos.suspendedIDs m' !! i) as [t|] eqn:Hi; [| done].
      exfalso. apply Hin. unfold chaos.due_keys.
      apply list_elem_of_fmap. exists (i, t). split; [done |].
      apply list_elem_of_filter. split; [| by apply Hentry].
      cbn. destruct (Htracked i t Hi) as [-> _]. exact Hexp.
Qed.

Lemma suspend_tick :
  chaos.attack (cluster.Nodes cluster_1) draws_0 at_1s (chaos.New suspend_only)
    heap_1_running
  = Returned (suspended_once, heap_1_suspended).
Proof. vm_compute. reflexivity. Qed.

Lemma suspended_once_entries :
  chaos.suspended_entries suspended_once [("node-1", at_1s)].
Proof.
  unfold chaos.suspended_entries, suspended_once. cbn [chaos.suspendedIDs].
  by rewrite map_to_list_singleton.
Qed.

Lemma X27_witness :
  exists m1 h1,
    chaos.attack (cluster.Nodes cluster_1) draws_0 at_1s (chaos.New suspend_only)
      heap_1_running = Returned (m1, h1) /\
    exists m2,
      chaos.checkAndResume cluster_1 [("node-1", at_1s)] at_5s m1 h1
        = Returned (m2, heap_1_running) /\
      chaos.suspendedIDs m2 = ∅.
Proof.
  destruct (X27_suspension_is_lifted cluster_1 heap_1_running (cluster.Nodes cluster_1)
              draws_0 at_1s at_5s (chaos.New suspend_only)
              registry_ok_1_running (snapshot_Nodes cluster_1)
              ltac:(vm_compute; discriminate) eq_refl eq_refl)
    as (m1 & h1 & Hattack & Hresume).
  exists m1, h1. split; [exact Hattack |].
  assert (Heq : Returned (m1, h1) = Returned (suspended_once, heap_1_suspended)).
  { rewrite <- Hattack. exact suspend_tick. }
  injection Heq as -> ->.
  destruct (Hresume [("node-1", at_1s)] suspended_once_entries) as [_ Hlate].
  apply Hlate. vm_compute. discriminate.
Defined.

(** ** Chaos injector and supervisor: an injected delay *)

(** X28: what becomes of an injected delay.  A delay attack on a
    Running node that has no delay gives it the configured
    [DelayDuration] and changes nothing else.  The next health check
    of a supervisor with [ClearDelay] on takes a positive delay away
    again, so that the node is exactly as it was before the attack;
    with [ClearDelay] off, or for a delay that is not positive, the
    health check leaves the node with the injected delay. *)
Theorem X28_injected_delay_is_cleared
    (p : positive) (n : node.Node) (h : gmap positive node.Node)
    (m : chaos.Monkey) (sm : recovery.Manager) (now : Time)
    (Hlive : h !! p = Some n)
    (Hrunning : node.status n = node.StatusRunning)
    (Hzero : node.delay n = 0) :
  let h1 := <[p := node.set_delay (chaos.DelayDuration (chaos.config m)) n]> h in
  exists m1 sm',
    chaos.attackDelay p m h = Returned (m1, h1) /\
    recovery.checkNode p now sm h1 =
      Returned (sm',
                if recovery.ClearDelay (recovery.config sm)
                   && bool_decide (chaos.DelayDuration (chaos.config m) > 0)
                then h else h1).
Proof.
  intros h1.
  set (D := chaos.DelayDuration (chaos.config m)) in *.
  assert (Hh1 : h1 !! p = Some (node.set_delay D n)) by apply lookup_insert_eq.
  assert (Hattack : exists m1, chaos.attackDelay p m h = Returned (m1, h1)).
  { unfold chaos.attackDelay, mbind, M_bind, call, query. rewrite Hlive.
    cbn [fst snd]. unfold node.SetDelay. fold D. fold h1. rewrite Hh1.
    eexists. reflexivity. }
  assert (Hcheck : exists sm',
            recovery.checkNode p now sm h1 =
              Returned (sm',
                        <[p := if recovery.ClearDelay (recovery.config sm)
                                  && bool_decide (D > 0)
                               then node.set_delay 0 (node.set_delay D n)
                               else node.set_delay D n]> h1)).
  { unfold recovery.checkNode. rewrite Hh1. unfold node.ID, node.Status_of.
    cbn [node.set_delay node.status node.id]. rewrite Hrunning.
    unfold recovery.handleRunningNode. cbv zeta.
    eexists. reflexivity. }
  destruct Hattack as [m1 Hattack]. destruct Hcheck as [sm' Hcheck].
  exists m1, sm'. split; [exact Hattack |].
  rewrite Hcheck. do 2 f_equal.
  destruct (recovery.ClearDelay (recovery.config sm) && bool_decide (D > 0)).
  - assert (Hback : node.set_delay 0 (node.set_delay D n) = n).
    { destruct n as [i s d dt cl]. cbn in Hzero. by subst d. }
    rewrite Hback. unfold h1. by rewrite insert_insert_eq, (insert_id h p n Hlive).
  - unfold h1. by rewrite insert_insert_eq.
Qed.

Lemma X28_witness :
  exists m1 sm',
    chaos.attackDelay 1%positive (chaos.New chaos.DefaultConfig) heap_1_running
      = Returned (m1, <[1%positive := node.set_delay 100000000 running_node]> heap_1_running) /\
    recovery.checkNode 1%positive at_1s (recovery.New recovery.DefaultConfig)
      (<[1%positive := node.set_delay 100000000 running_node]> heap_1_running)
      = Returned (sm', heap_1_running).
Proof.
  assert (Hlive : heap_1_running !! 1%positive = Some running_node)
    by (vm_compute; reflexivity).
  destruct (X28_injected_delay_is_cleared 1%positive running_node heap_1_running
              (chaos.New chaos.DefaultConfig) (recovery.New recovery.DefaultConfig)
              at_1s Hlive eq_refl eq_refl)
    as (m1 & sm' & Hattack & Hcheck).
  exists m1, sm'. split; [exact Hattack | exact Hcheck].
Defined.
